(** * Dengue outbreak prediction pipeline: cleaner, feature builder, report generator

    A shallow embedding of the three batch jobs
    ([clean_data.py], [create_features.py], [generate_eda.py]).

    A data frame is an ordered list of named columns; a column is a list of
    cells; a missing cell (NaN, NaT, None) is [NA].  The object store, the
    console log and the plots are not part of the model: a job is the
    function from the frame it reads to the frame it would write, or [None]
    when the source raises.

    Two things pandas leaves open are kept open here.  The order
    [sort_values] gives to rows of equal date is a parameter ([TieBreak]),
    and every statement about a job holds for every tie-break.  Numeric
    cells are rationals and arithmetic on them is exact, where pandas
    computes in float64: the statements below say which rows enter a
    result, which cells are missing, and what sign a result has; none of
    them rests on the digits of a computed mean, deviation, difference or
    product. *)

From Stdlib Require Import String Ascii DecimalString.
From Stdlib Require Import ZArith QArith Lia Bool Arith List Sorted Permutation.
Import ListNotations.
Local Open Scope string_scope.
Local Open Scope list_scope.

(** ** Cells, columns, frames *)

Inductive value : Type :=
| NA
| Num (q : Q)
| Str (s : string)
| Date (t : Z).

Definition Column : Type := list value.
Definition DataFrame : Type := list (string * Column).

Definition isna (v : value) : bool :=
  match v with NA => true | _ => false end.

Definition notna (v : value) : bool := negb (isna v).

(** [name in df.columns] and [df[name]]. *)
Fixpoint get (name : string) (df : DataFrame) : option Column :=
  match df with
  | [] => None
  | (n, c) :: rest => if String.eqb name n then Some c else get name rest
  end.

Definition has (name : string) (df : DataFrame) : bool :=
  match get name df with Some _ => true | None => false end.

Definition columns (df : DataFrame) : list string := map fst df.

(** [df[name] = c]: overwrite in place when the column exists, append
    otherwise. *)
Fixpoint set_col (name : string) (c : Column) (df : DataFrame) : DataFrame :=
  match df with
  | [] => [(name, c)]
  | (n, c0) :: rest =>
      if String.eqb name n then (n, c) :: rest
      else (n, c0) :: set_col name c rest
  end.

Definition mem (name : string) (names : list string) : bool :=
  existsb (String.eqb name) names.

(** [df.drop(columns=names, errors='ignore')]. *)
Definition drop_columns (names : list string) (df : DataFrame) : DataFrame :=
  filter (fun nc => negb (mem (fst nc) names)) df.

(** [df[[c for c in order if c in df.columns]]]. *)
Fixpoint reorder (order : list string) (df : DataFrame) : DataFrame :=
  match order with
  | [] => []
  | n :: rest =>
      match get n df with
      | Some c => (n, c) :: reorder rest df
      | None => reorder rest df
      end
  end.

(** [df.shape[0]]: the length of the index, which every column shares. *)
Definition nrows (df : DataFrame) : nat :=
  match df with
  | [] => 0
  | (_, c) :: _ => length c
  end.

(** The frame invariant of pandas: all columns have the length of the index. *)
Definition rectangular (df : DataFrame) : Prop :=
  forall n c, In (n, c) df -> length c = nrows df.

(** ** Column primitives *)

(** [Series.ffill()]: carry the last seen non-missing cell forward. *)
Fixpoint ffill_from (last : value) (c : Column) : Column :=
  match c with
  | [] => []
  | v :: rest =>
      if isna v then last :: ffill_from last rest
      else v :: ffill_from v rest
  end.

Definition ffill (c : Column) : Column := ffill_from NA c.

(** [Series.bfill()]: the same scan from the other end. *)
Definition bfill (c : Column) : Column := rev (ffill (rev c)).

(** [Series.fillna(0)]. *)
Definition fillna0 (c : Column) : Column :=
  map (fun v => if isna v then Num 0 else v) c.

Definition is_negative (v : value) : bool :=
  match v with
  | Num q => match Qlt_le_dec q 0 with left _ => true | right _ => false end
  | _ => false
  end.

(** [df.loc[df[col] < 0, col] = 0]. *)
Definition clamp_col (c : Column) : Column :=
  map (fun v => if is_negative v then Num 0 else v) c.

(** A column counts as float64 / int64 when every cell is a number or
    missing: a cell of text makes [read_csv] leave the column at dtype
    object.  Cells carry no dtype of their own, so a column without rows
    and a column of missing cells only count as numeric as well. *)
Definition is_numeric_cell (v : value) : bool :=
  match v with NA | Num _ => true | _ => false end.

Definition is_numeric_dtype (c : Column) : bool := forallb is_numeric_cell c.

(** The dtype [read_csv(..., parse_dates=['DATE'])] leaves on the DATE
    column is datetime64 when the column has a row and every cell parsed
    as a timestamp or was empty; a column without any row, or with a cell
    that did not parse, stays of dtype object. *)
Definition is_datetime_cell (v : value) : bool :=
  match v with NA | Date _ => true | _ => false end.

Definition is_datetime_dtype (c : Column) : bool :=
  match c with
  | [] => false
  | _ => forallb is_datetime_cell c
  end.

(** [Series.shift(n)]: rows move down by [n], the first [n] become missing. *)
Definition shift (n : nat) (c : Column) : Column :=
  firstn (length c) (repeat NA n ++ c).

(** ** Sorting by a date column *)

(** Sort key of a cell of a datetime column; anything that is not a
    timestamp is NaT. *)
Definition date_key (v : value) : option Z :=
  match v with Date t => Some t | _ => None end.

(** Ascending order with [na_position='last']. *)
Definition key_le (a b : option Z) : bool :=
  match a, b with
  | _, None => true
  | None, Some _ => false
  | Some x, Some y => (x <=? y)%Z
  end.

(** [sort_values] sorts with pandas' default [kind='quicksort'], which is
    not stable: the order it leaves among rows with equal keys is whatever
    the sorting routine happens to produce for that array of keys.  The
    repository only calls it, so that order is a parameter of the model:
    [tie keys i j] says whether row [i] goes before row [j] when their keys
    are equal.  Every order a sort can produce is the order of some
    tie-break ([argsort_complete]). *)
Definition TieBreak : Type := list (option Z) -> nat -> nat -> bool.

(** Whether the (key, position) pair [p] goes before [q]: by key, and among
    equal keys as [tie] says. *)
Definition goes_before (tie : nat -> nat -> bool) (p q : option Z * nat)
  : bool :=
  key_le (fst p) (fst q)
  && (negb (key_le (fst q) (fst p)) || tie (snd p) (snd q)).

Fixpoint insert_key (tie : nat -> nat -> bool) (p : option Z * nat)
  (l : list (option Z * nat)) : list (option Z * nat) :=
  match l with
  | [] => [p]
  | q :: rest =>
      if goes_before tie p q then p :: q :: rest
      else q :: insert_key tie p rest
  end.

(** Sorting the (key, position) pairs by insertion. *)
Fixpoint sort_keys (tie : nat -> nat -> bool) (l : list (option Z * nat))
  : list (option Z * nat) :=
  match l with
  | [] => []
  | p :: rest => insert_key tie p (sort_keys tie rest)
  end.

(** The indexer of [sort_values]: positions of the rows in sorted order. *)
Definition argsort (tie : TieBreak) (keys : list (option Z)) : list nat :=
  map snd (sort_keys (tie keys) (combine keys (seq 0 (length keys)))).

(** The stable order: rows with equal keys keep their relative order. *)
Definition stable_order : TieBreak := fun _ _ _ => true.

(** An order that is not stable: among rows with equal keys, the row that
    stood later comes first. *)
Definition later_first : TieBreak := fun _ i j => (j <? i)%nat.

(** Whether row [i] stands before row [j] in the indexer [idx]. *)
Fixpoint comes_first (i j : nat) (idx : list nat) : bool :=
  match idx with
  | [] => true
  | k :: rest =>
      if Nat.eqb k i then true
      else if Nat.eqb k j then false
      else comes_first i j rest
  end.

(** The order among equal keys that the indexer [idx] shows. *)
Definition order_of (idx : list nat) : TieBreak :=
  fun _ i j => comes_first i j idx.

(** A tie-break that is total and transitive: with it [goes_before] is a
    linear order on the rows. *)
Definition linear_tie (t : nat -> nat -> bool) : Prop :=
  (forall i j, t i j = false -> t j i = true) /\
  (forall i j k, t i j = true -> t j k = true -> t i k = true).

(** [Series.take(indexer)]. *)
Definition take (idx : list nat) (c : Column) : Column :=
  map (fun i => nth i c NA) idx.

(** [df.sort_values(by).reset_index(drop=True)]; KeyError when [by] is not
    a column. *)
Definition sort_values (tie : TieBreak) (by_ : string) (df : DataFrame)
  : option DataFrame :=
  match get by_ df with
  | None => None
  | Some dates =>
      let idx := argsort tie (map date_key dates) in
      Some (map (fun nc => (fst nc, take idx (snd nc))) df)
  end.

(** [df[col] = f(df[col])] under the guard [if col in df.columns]. *)
Definition update_col (name : string) (f : Column -> Column) (df : DataFrame)
  : DataFrame :=
  match get name df with
  | Some c => set_col name (f c) df
  | None => df
  end.

Fixpoint zip3 {A : Type} (f : value -> value -> value -> A)
  (a b c : Column) : list A :=
  match a, b, c with
  | x :: a', y :: b', z :: c' => f x y z :: zip3 f a' b' c'
  | _, _, _ => []
  end.

(** Jobs that can raise: a small error monad on [option]. *)
Definition bind {A B : Type} (m : option A) (k : A -> option B) : option B :=
  match m with Some a => k a | None => None end.

Notation "x <- m ;; k" := (bind m (fun x => k))
  (at level 61, m at next level, right associativity).

(** A [for] loop whose body may raise. *)
Fixpoint for_each {A : Type} (xs : list A)
  (body : A -> DataFrame -> option DataFrame) (df : DataFrame)
  : option DataFrame :=
  match xs with
  | [] => Some df
  | x :: rest => df' <- body x df ;; for_each rest body df'
  end.

(** [df[tgt] = f(df[src])]; KeyError when [src] is missing, and [f] itself
    may raise. *)
Definition assign_from (src tgt : string) (f : Column -> option Column)
  (df : DataFrame) : option DataFrame :=
  c <- get src df ;;
  c' <- f c ;;
  Some (set_col tgt c' df).

(** ** The cleaner ([clean_data.py]) *)

Definition temp_humidity_cols : list string := ["TMAX"; "TMIN"; "Ave. Temp"; "RH"].

Definition col_order : list string :=
  ["DATE"; "YEAR"; "MONTH"; "DAY"; "RAINFALL"; "TMAX"; "TMIN";
   "Ave. Temp"; "RH"; "DENGUE CASES"].

Definition date_fields : list string := ["YEAR"; "MONTH"; "DAY"].

(** [df.select_dtypes(include=['float64', 'int64']).columns]. *)
Definition numeric_cols (df : DataFrame) : list string :=
  map fst (filter (fun nc => is_numeric_dtype (snd nc)) df).

(** One turn of the loop of step 4. *)
Definition clamp_step (df : DataFrame) (col : string) : DataFrame :=
  if mem col date_fields then df
  else match get col df with
       | Some c =>
           if existsb is_negative c then set_col col (clamp_col c) df else df
       | None => df
       end.

Section Pipeline.

(** What pandas supplies and the repository only calls:
    - [assemble y m d]: the timestamp [pd.to_datetime] builds from one row
      of YEAR, MONTH, DAY with [errors='coerce'], [None] for NaT;
    - [tie]: the order [sort_values] leaves among rows with equal DATE;
    - [Qsqrt]: the square root taken by [std];
    - [isoweek], [quarter], [month_period]: the [.dt] accessors. *)
Variable assemble : value -> value -> value -> option Z.
Variable Qsqrt : Q -> Q.
Variable isoweek quarter month_period : Z -> Z.
Variable tie : TieBreak.

Definition date_cell (y m d : value) : value :=
  match assemble y m d with Some t => Date t | None => NA end.

(** [pd.to_datetime(df[['YEAR', 'MONTH', 'DAY']], errors='coerce')];
    KeyError when one of the three columns is missing. *)
Definition to_datetime (df : DataFrame) : option Column :=
  y <- get "YEAR" df ;;
  m <- get "MONTH" df ;;
  d <- get "DAY" df ;;
  Some (zip3 date_cell y m d).

(** Steps 1 and 2: drop the wind columns, derive DATE, sort by it. *)
Definition date_and_sort (df : DataFrame) : option DataFrame :=
  let df := drop_columns ["WIND_SPEED"; "WIND_DIRECTION"] df in
  dates <- to_datetime df ;;
  let df := set_col "DATE" dates df in
  sort_values tie "DATE" df.

(** Step 3: fill the missing values. *)
Definition fill_missing (df : DataFrame) : DataFrame :=
  let df := fold_left
              (fun d col => update_col col (fun c => bfill (ffill c)) d)
              temp_humidity_cols df in
  let df := update_col "RAINFALL" fillna0 df in
  update_col "DENGUE CASES" (fun c => fillna0 (ffill c)) df.

(** Step 4: zero the negative values of the numeric columns. *)
Definition remove_negatives (df : DataFrame) : DataFrame :=
  fold_left clamp_step (numeric_cols df) df.

(** The frame [clean_data] writes, from the frame it reads. *)
Definition clean_data (df : DataFrame) : option DataFrame :=
  df <- date_and_sort df ;;
  Some (reorder col_order (remove_negatives (fill_missing df))).


(** ** The feature builder ([create_features.py]) *)

Definition lag_periods : list nat := [7; 14; 21]%nat.
Definition weather_vars : list string :=
  ["RAINFALL"; "TMAX"; "TMIN"; "Ave. Temp"; "RH"].
Definition rolling_windows : list nat := [7; 14]%nat.

(** How an f-string prints an integer. *)
Definition str_of_nat (n : nat) : string :=
  NilEmpty.string_of_uint (Nat.to_uint n).

(** The rows a trailing window of [w] rows ending at row [i] covers. *)
Definition window_at (w i : nat) (c : Column) : Column :=
  skipn (i + 1 - w) (firstn (i + 1) c).

(** The observations of a window: its non-missing numbers. *)
Fixpoint observations (c : Column) : list Q :=
  match c with
  | [] => []
  | Num q :: rest => q :: observations rest
  | _ :: rest => observations rest
  end.

Definition Qsum (l : list Q) : Q := fold_right Qplus 0%Q l.

Definition Qlen (l : list Q) : Q := inject_Z (Z.of_nat (length l)).

(** Aggregate of a window under [min_periods=1]: missing without an
    observation, else the mean of the observations (exact, where pandas
    keeps a float64 running sum). *)
Definition mean_of (obs : list Q) : value :=
  match obs with
  | [] => NA
  | _ => Num (Qsum obs / Qlen obs)
  end.

(** Sample standard deviation ([ddof=1]): undefined below two observations. *)
Definition std_of (obs : list Q) : value :=
  match obs with
  | [] => NA
  | [_] => NA
  | _ =>
      let m := (Qsum obs / Qlen obs)%Q in
      Num (Qsqrt (Qsum (map (fun x => (x - m) * (x - m)) obs)
                   / (Qlen obs - 1))%Q)
  end.

(** Row by row, the aggregate of the observations of the trailing window. *)
Definition rolling_values (w : nat) (agg : list Q -> value) (c : Column)
  : Column :=
  map (fun i => agg (observations (window_at w i c))) (seq 0 (length c)).

(** [Series.rolling(window=w, min_periods=1).agg()]; raises on a column
    that is not numeric. *)
Definition rolling (w : nat) (agg : list Q -> value) (c : Column)
  : option Column :=
  if is_numeric_dtype c then Some (rolling_values w agg c) else None.

Definition lag_name (var : string) (lag : nat) : string :=
  var ++ "_LAG" ++ str_of_nat lag.

Definition roll_mean_name (var : string) (w : nat) : string :=
  var ++ "_ROLL_MEAN_" ++ str_of_nat w ++ "D".

Definition roll_std_name (var : string) (w : nat) : string :=
  var ++ "_ROLL_STD_" ++ str_of_nat w ++ "D".

(** Element-wise arithmetic of two numeric columns; a missing operand gives
    a missing result, an operand that is not a number raises.  The result
    of [op] is exact, where pandas rounds to float64. *)
Fixpoint arith (op : Q -> Q -> Q) (a b : Column) : option Column :=
  match a, b with
  | x :: a', y :: b' =>
      r <- arith op a' b' ;;
      match x, y with
      | Num p, Num q => Some (Num (op p q) :: r)
      | NA, (NA | Num _) | Num _, NA => Some (NA :: r)
      | _, _ => None
      end
  | _, _ => Some []
  end.

(** What a [.dt] accessor computes: NaT stays missing. *)
Definition dt_map (f : Z -> Z) (c : Column) : Column :=
  map (fun v => match v with Date t => Num (inject_Z (f t)) | _ => NA end) c.

(** [Series.dt]: AttributeError on a column that is not datetime64. *)
Definition dt_accessor (f : Column -> Column) (c : Column) : option Column :=
  if is_datetime_dtype c then Some (f c) else None.

(** [Series.isin([6, 7, 8, 9, 10]).astype(int)]. *)
Definition isin_rainy (c : Column) : Column :=
  map (fun v =>
         match v with
         | Num q =>
             if existsb (fun k => Qeq_bool q (inject_Z k)) [6; 7; 8; 9; 10]%Z
             then Num 1 else Num 0
         | _ => Num 0
         end) c.

Definition lag_loop (var : string) (name : nat -> string) (df : DataFrame)
  : option DataFrame :=
  for_each lag_periods
    (fun lag => assign_from var (name lag) (fun c => Some (shift lag c))) df.

Definition interaction (a b tgt : string) (op : Q -> Q -> Q) (df : DataFrame)
  : option DataFrame :=
  if has a df && has b df
  then x <- get a df ;; y <- get b df ;; c <- arith op x y ;;
       Some (set_col tgt c df)
  else Some df.

(** Lines 33-39: lags of the weather variables. *)
Definition weather_lags (df : DataFrame) : option DataFrame :=
  for_each weather_vars
    (fun var d => if has var d then lag_loop var (lag_name var) d
                  else Some d) df.

(** Lines 41-46: lags of the case counts. *)
Definition dengue_lags (df : DataFrame) : option DataFrame :=
  if has "DENGUE CASES" df
  then lag_loop "DENGUE CASES" (lag_name "DENGUE_CASES") df
  else Some df.

(** One turn of the inner loop of lines 55-64. *)
Definition rolling_pair (var : string) (w : nat) (df : DataFrame)
  : option DataFrame :=
  df <- assign_from var (roll_mean_name var w) (rolling w mean_of) df ;;
  assign_from var (roll_std_name var w) (rolling w std_of) df.

(** Lines 53-64: rolling mean and standard deviation of the weather
    variables. *)
Definition weather_rolling (df : DataFrame) : option DataFrame :=
  for_each weather_vars
    (fun var d => if has var d
                  then for_each rolling_windows (rolling_pair var) d
                  else Some d) df.

(** Lines 66-71: rolling mean of the case counts. *)
Definition dengue_rolling (df : DataFrame) : option DataFrame :=
  if has "DENGUE CASES" df
  then for_each rolling_windows
         (fun w => assign_from "DENGUE CASES"
                     (roll_mean_name "DENGUE_CASES" w)
                     (rolling w mean_of)) df
  else Some df.

(** Lines 76-89: interaction features. *)
Definition interactions (df : DataFrame) : option DataFrame :=
  df <- interaction "TMAX" "TMIN" "TEMP_RANGE" Qminus df ;;
  df <- interaction "RAINFALL" "Ave. Temp" "RAIN_TEMP_INTERACTION" Qmult df ;;
  interaction "RH" "Ave. Temp" "HUMIDITY_TEMP_INTERACTION" Qmult df.

(** Lines 94-96: time-based features. *)
Definition time_features (df : DataFrame) : option DataFrame :=
  df <- assign_from "DATE" "WEEK_OF_YEAR" (dt_accessor (dt_map isoweek)) df ;;
  df <- assign_from "DATE" "QUARTER" (dt_accessor (dt_map quarter)) df ;;
  assign_from "MONTH" "IS_RAINY_SEASON" (fun c => Some (isin_rainy c)) df.

(** Everything after the sort of line 25. *)
Definition add_features (df : DataFrame) : option DataFrame :=
  df <- weather_lags df ;;
  df <- dengue_lags df ;;
  df <- weather_rolling df ;;
  df <- dengue_rolling df ;;
  df <- interactions df ;;
  time_features df.

(** The frame [create_lag_features] writes, from the frame it reads. *)
Definition create_lag_features (df : DataFrame) : option DataFrame :=
  df <- sort_values tie "DATE" df ;;
  add_features df.

(** ** The report generator ([generate_eda.py]) *)

(** Python's [sub in s] on strings. *)
Fixpoint contains (sub s : string) : bool :=
  match s with
  | EmptyString => prefix sub s
  | String _ s' => prefix sub s || contains sub s'
  end.

Definition calendar_cols : list string :=
  ["YEAR"; "MONTH"; "DAY"; "WEEK_OF_YEAR"; "QUARTER"].

Definition is_priority (col : string) : bool :=
  contains "DENGUE" col || negb (contains "LAG" col).

(** Lines 57-64: the columns the correlation matrix is computed over, from
    the numeric columns of the frame. *)
Definition select_corr_cols (numeric : list string) : list string :=
  let numeric := filter (fun col => negb (mem col calendar_cols)) numeric in
  if (20 <? length numeric)%nat then
    let priority_cols := filter is_priority numeric in
    let other_cols := filter (fun col => negb (mem col priority_cols)) numeric in
    priority_cols
      ++ firstn (Z.to_nat (Z.max 0 (20 - Z.of_nat (length priority_cols))))
           other_cols
  else numeric.

Definition corr_columns (df : DataFrame) : list string :=
  select_corr_cols (numeric_cols df).

(** The columns the plots index without a guard; KeyError when one is
    missing. *)
Definition plotted_cols : list string :=
  ["DATE"; "DENGUE CASES"; "RAINFALL"; "TMAX"; "TMIN"; "Ave. Temp"; "RH"].

Fixpoint require (names : list string) (df : DataFrame) : option unit :=
  match names with
  | [] => Some tt
  | n :: rest => _ <- get n df ;; require rest df
  end.

(** [Series.dt.to_period('M')]. *)
Definition to_period (c : Column) : Column :=
  map (fun v => match v with Date t => Date (month_period t) | _ => NA end) c.

(** What a run of the report generator leaves behind: the columns of the
    correlation matrix and the frame [df] as it stands when the job ends. *)
Record eda_run : Type := {
  corr_cols : list string;
  final_df : DataFrame
}.

Definition generate_eda (df : DataFrame) : option eda_run :=
  let cols := corr_columns df in
  _ <- require plotted_cols df ;;
  df <- assign_from "DATE" "YEAR_MONTH" (dt_accessor to_period) df ;;
  Some {| corr_cols := cols; final_df := df |}.

End Pipeline.

(** ** A concrete date assembly, for worked examples

    pandas assembles the three fields as the number [YYYYMMDD] before
    parsing it; on valid dates the order of these numbers is the order of
    the dates. *)
Definition ymd_assemble (y m d : value) : option Z :=
  match y, m, d with
  | Num (a # 1), Num (b # 1), Num (c # 1) => Some (a * 10000 + b * 100 + c)%Z
  | _, _, _ => None
  end.

Definition int_col (l : list Z) : Column := map (fun z => Num (inject_Z z)) l.

(** ** Vocabulary of the statements *)

Definition clamp_value (v : value) : value :=
  if is_negative v then Num 0 else v.

(** A column is settled when it has no missing cell or nothing else. *)
Definition settled (c : Column) : Prop :=
  Forall (fun v => isna v = false) c \/ Forall (fun v => isna v = true) c.

Definition pair_le (p q : option Z * nat) : Prop :=
  key_le (fst p) (fst q) = true.

(** A date column in ascending order, missing dates last. *)
Definition date_le (a b : value) : Prop :=
  key_le (date_key a) (date_key b) = true.

(** What step 3 does to the column called [n]. *)
Definition fill_of (n : string) : Column -> Column :=
  if String.eqb n "DENGUE CASES" then fun c => fillna0 (ffill c)
  else if String.eqb n "RAINFALL" then fillna0
  else if mem n temp_humidity_cols then fun c => bfill (ffill c)
  else fun c => c.

Definition nonneg_cell (v : value) : Prop :=
  match v with Num q => (0 <= q)%Q | _ => True end.

(** The TMAX example: four consecutive days. *)
Definition tmax_raw : DataFrame :=
  [("YEAR", int_col [2020; 2020; 2020; 2020]);
   ("MONTH", int_col [1; 1; 1; 1]);
   ("DAY", int_col [1; 2; 3; 4]);
   ("TMAX", int_col [30; 28; -5; 32])]%Z.

(** The nearest non-missing cell at or before row [i], [NA] when there is
    none: what propagating forward leaves at row [i]. *)
Fixpoint nearest_preceding (xs : Column) (i : nat) : value :=
  match i with
  | O => nth 0 xs NA
  | S j => if isna (nth i xs NA) then nearest_preceding xs j else nth i xs NA
  end.

Definition zero_if_missing (v : value) : value :=
  if isna v then Num 0 else v.

(** The case-count example: five consecutive days. *)
Definition dengue_raw : DataFrame :=
  [("YEAR", int_col [2020; 2020; 2020; 2020; 2020]%Z);
   ("MONTH", int_col [1; 1; 1; 1; 1]%Z);
   ("DAY", int_col [1; 2; 3; 4; 5]%Z);
   ("RAINFALL", [NA; Num 2; NA; Num 1; NA]);
   ("DENGUE CASES", [NA; NA; Num 3; NA; Num 5])].

Definition tmax_clean : DataFrame :=
  Eval vm_compute in
    match clean_data ymd_assemble stable_order tmax_raw with Some d => d | None => [] end.

Definition dengue_clean : DataFrame :=
  Eval vm_compute in
    match clean_data ymd_assemble stable_order dengue_raw with Some d => d | None => [] end.

(** Every column has [N] rows. *)
Definition all_len (N : nat) (df : DataFrame) : Prop :=
  Forall (fun nc => length (snd nc) = N) df.

(** A step of a job, and what it guarantees when it does not raise. *)
Definition step : Type := DataFrame -> option DataFrame.

Definition triple (P : DataFrame -> Prop) (s : step) (Q : DataFrame -> Prop)
  : Prop :=
  forall d d', P d -> s d = Some d' -> Q d'.

(** A step that leaves the column called [n] as it found it. *)
Definition preserves (n : string) (s : step) : Prop :=
  forall d d', s d = Some d' -> get n d' = get n d.

(** The columns each stage of the feature builder may assign. *)
Definition lag_targets : list string :=
  flat_map (fun v => map (lag_name v) lag_periods) weather_vars.

Definition dengue_lag_targets : list string :=
  map (lag_name "DENGUE_CASES") lag_periods.

Definition rolling_targets : list string :=
  flat_map (fun v => flat_map (fun w => [roll_mean_name v w; roll_std_name v w])
                       rolling_windows) weather_vars.

Definition dengue_rolling_targets : list string :=
  map (roll_mean_name "DENGUE_CASES") rolling_windows.

Definition interaction_targets : list string :=
  ["TEMP_RANGE"; "RAIN_TEMP_INTERACTION"; "HUMIDITY_TEMP_INTERACTION"].

Definition time_targets : list string :=
  ["WEEK_OF_YEAR"; "QUARTER"; "IS_RAINY_SEASON"].

Definition feature_targets : list string :=
  lag_targets ++ dengue_lag_targets ++ rolling_targets
    ++ dengue_rolling_targets ++ interaction_targets ++ time_targets.

(** The variables the feature builder derives columns from. *)
Definition lagged_vars : list string := weather_vars ++ ["DENGUE CASES"].

(** The name of the lag column of a variable: the case counts are written
    with an underscore. *)
Definition lag_column (var : string) (lag : nat) : string :=
  if String.eqb var "DENGUE CASES" then lag_name "DENGUE_CASES" lag
  else lag_name var lag.

(** What the stages after the lags, and after the rolling statistics of
    the weather variables, may assign. *)
Definition targets_after_weather_lags : list string :=
  dengue_lag_targets ++ rolling_targets ++ dengue_rolling_targets
    ++ interaction_targets ++ time_targets.

Definition targets_after_dengue_lags : list string :=
  rolling_targets ++ dengue_rolling_targets
    ++ interaction_targets ++ time_targets.

Definition targets_after_weather_rolling : list string :=
  dengue_rolling_targets ++ interaction_targets ++ time_targets.





(** The rainfall example: ten consecutive days. *)
Definition rain_raw : DataFrame :=
  [("YEAR", int_col [2020; 2020; 2020; 2020; 2020; 2020; 2020; 2020; 2020; 2020]%Z);
   ("MONTH", int_col [1; 1; 1; 1; 1; 1; 1; 1; 1; 1]%Z);
   ("DAY", int_col [1; 2; 3; 4; 5; 6; 7; 8; 9; 10]%Z);
   ("RAINFALL", int_col [0; 5; 0; 0; 10; 0; 0; 0; 0; 20]%Z)].

(** The state of the frame once the rolling statistics of variable [X] for
    window [w] are in place, [xs] being the column of [X]. *)
Definition rolled (Qsqrt : Q -> Q) (X : string) (w : nat) (xs : Column)
  (d : DataFrame) : Prop :=
  is_numeric_dtype xs = true /\
  get (roll_mean_name X w) d = Some (rolling_values w mean_of xs) /\
  get (roll_std_name X w) d = Some (rolling_values w (std_of Qsqrt) xs).

(** ** Concrete accessors, for worked examples

    On the [YYYYMMDD] coding of [ymd_assemble]: the month period, the
    quarter and the ISO week of a date, and a rational stand-in for the
    floating-point square root (three Newton steps from 1). *)
Definition ymd_month (t : Z) : Z := (t / 100)%Z.

Definition ymd_quarter (t : Z) : Z := (((t / 100) mod 100 - 1) / 3 + 1)%Z.

Definition is_leap (y : Z) : bool :=
  ((y mod 4 =? 0) && negb (y mod 100 =? 0) || (y mod 400 =? 0))%Z.

Definition day_of_year (y m d : Z) : Z :=
  (nth (Z.to_nat (m - 1)) [0; 31; 59; 90; 120; 151; 181; 212; 243; 273; 304; 334] 0
   + (if is_leap y && (2 <? m) then 1 else 0) + d)%Z.

(** Monday = 1 ... Sunday = 7, by the count of days since 0001-01-01. *)
Definition iso_weekday (y m d : Z) : Z :=
  let p := (y - 1)%Z in
  ((365 * p + p / 4 - p / 100 + p / 400 + day_of_year y m d - 1) mod 7 + 1)%Z.

Definition iso_weeks_in_year (y : Z) : Z :=
  let p := fun y => ((y + y / 4 - y / 100 + y / 400) mod 7)%Z in
  if ((p y =? 4) || (p (y - 1) =? 3))%Z then 53%Z else 52%Z.

Definition ymd_isoweek (t : Z) : Z :=
  let y := (t / 10000)%Z in
  let m := ((t / 100) mod 100)%Z in
  let d := (t mod 100)%Z in
  let w := ((day_of_year y m d - iso_weekday y m d + 10) / 7)%Z in
  if (w <? 1)%Z then iso_weeks_in_year (y - 1)
  else if (iso_weeks_in_year y <? w)%Z then 1%Z
  else w.

Definition Qsqrt_newton (q : Q) : Q :=
  match Qlt_le_dec 0 q with
  | left _ =>
      let next := fun x => Qred ((x + q / x) / 2) in
      next (next (next 1%Q))
  | right _ => 0%Q
  end.

(** A three-day sample with every column of the raw layout. *)
Definition sample_raw : DataFrame :=
  [("YEAR", int_col [2020; 2020; 2020]%Z);
   ("MONTH", int_col [6; 6; 6]%Z);
   ("DAY", int_col [1; 2; 3]%Z);
   ("WIND_SPEED", int_col [3; 4; 2]%Z);
   ("WIND_DIRECTION", int_col [90; 180; 270]%Z);
   ("TMAX", int_col [33; 34; 32]%Z);
   ("TMIN", int_col [25; 26; 24]%Z);
   ("Ave. Temp", int_col [29; 30; 28]%Z);
   ("RH", int_col [80; 75; 85]%Z);
   ("RAINFALL", int_col [0; 12; 3]%Z);
   ("DENGUE CASES", int_col [4; 6; 5]%Z)].

Definition sample_clean : DataFrame :=
  Eval vm_compute in
    match clean_data ymd_assemble stable_order sample_raw with Some d => d | None => [] end.

Definition sample_features : DataFrame :=
  Eval vm_compute in
    match create_lag_features Qsqrt_newton ymd_isoweek ymd_quarter stable_order sample_clean
    with Some f => f | None => [] end.

(** The numeric columns the heatmap may use, and the ones it prefers. *)
Definition eligible_cols (df : DataFrame) : list string :=
  filter (fun col => negb (mem col calendar_cols)) (numeric_cols df).

Definition priority_cols (df : DataFrame) : list string :=
  filter is_priority (eligible_cols df).

(** Five days out of order, with missing and negative readings. *)
Definition messy_raw : DataFrame :=
  [("YEAR", int_col [2020; 2020; 2020; 2020; 2020]%Z);
   ("MONTH", int_col [1; 1; 1; 1; 1]%Z);
   ("DAY", int_col [5; 2; 3; 4; 1]%Z);
   ("WIND_SPEED", int_col [1; 1; 1; 1; 1]%Z);
   ("TMAX", [Num 30; NA; Num (-5); Num 32; NA]);
   ("DENGUE CASES", [Num 5; NA; Num 3; NA; NA]);
   ("RAINFALL", [NA; Num 2; NA; NA; NA])].

Definition messy_clean : DataFrame :=
  Eval vm_compute in
    match clean_data ymd_assemble stable_order messy_raw with Some d => d | None => [] end.

Definition dengue_sorted : DataFrame :=
  Eval vm_compute in
    match date_and_sort ymd_assemble stable_order dengue_raw with
    | Some d => d
    | None => []
    end.

Definition rain_clean : DataFrame :=
  Eval vm_compute in
    match clean_data ymd_assemble stable_order rain_raw with Some d => d | None => [] end.

Definition rain_features : DataFrame :=
  Eval vm_compute in
    match create_lag_features Qsqrt_newton ymd_isoweek ymd_quarter stable_order rain_clean
    with Some f => f | None => [] end.

Definition sample_report : eda_run :=
  Eval vm_compute in
    match generate_eda ymd_month sample_features with
    | Some r => r
    | None => {| corr_cols := []; final_df := [] |}
    end.

(** The first non-missing cell of a column, [NA] when there is none: what
    filling backward leaves in the leading missing rows. *)
Fixpoint first_valid (c : Column) : value :=
  match c with
  | [] => NA
  | v :: rest => if isna v then first_valid rest else v
  end.

Definition messy_sorted : DataFrame :=
  Eval vm_compute in
    match date_and_sort ymd_assemble stable_order messy_raw with
    | Some d => d
    | None => []
    end.

(** A frame whose columns are those of [base], in order, followed by
    columns with names from [T]. *)
Definition extends_with (T base : list string) (d : DataFrame) : Prop :=
  exists extra, columns d = base ++ extra /\ forall x, In x extra -> In x T.

(** The cell an element-wise operation gives: a number from two numbers,
    missing otherwise. *)
Definition cell_op (op : Q -> Q -> Q) (x y : value) : value :=
  match x, y with
  | Num p, Num q => Num (op p q)
  | _, _ => NA
  end.

(** June to October. *)
Definition rainy_month (v : value) : Prop :=
  match v with
  | Num q => (q == 6 \/ q == 7 \/ q == 8 \/ q == 9 \/ q == 10)%Q
  | _ => False
  end.

(** [Series.isnull().sum()]. *)
Definition count_na (c : Column) : nat := length (filter isna c).

(** The three interaction features: the two columns read, the column
    written, the operation. *)
Definition interaction_specs : list (string * string * string * (Q -> Q -> Q)) :=
  [("TMAX", "TMIN", "TEMP_RANGE", Qminus);
   ("RAINFALL", "Ave. Temp", "RAIN_TEMP_INTERACTION", Qmult);
   ("RH", "Ave. Temp", "HUMIDITY_TEMP_INTERACTION", Qmult)].


(** ** The entry points: configuration from the environment *)

Definition Env : Type := string -> option string.

(** [os.environ.get(name, default)]. *)
Definition environ_get (env : Env) (name default : string) : string :=
  match env name with Some v => v | None => default end.

(** The truth value Python gives [os.environ.get(name)]: false when the
    variable is unset and when it is the empty string. *)
Definition is_set (env : Env) (name : string) : bool :=
  match env name with Some (String _ _) => true | _ => false end.

(** The four arguments a job is called with. *)
Record job_args : Type := {
  input_bucket : string;
  input_key : string;
  output_bucket : string;
  output_key : string
}.

(** The [__main__] block of [clean_data.py] and [create_features.py] up to
    the call of the job; [None] is [sys.exit(1)] before the job is
    called. *)
Definition job_config (default_input default_output : string) (env : Env)
  : option job_args :=
  if negb (is_set env "INPUT_BUCKET") || negb (is_set env "OUTPUT_BUCKET")
  then None
  else Some {| input_bucket := environ_get env "INPUT_BUCKET" "";
               input_key := environ_get env "INPUT_KEY" default_input;
               output_bucket := environ_get env "OUTPUT_BUCKET" "";
               output_key := environ_get env "OUTPUT_KEY" default_output |}.

Definition clean_data_config : Env -> option job_args :=
  job_config "sample_manila_weather.csv" "cleaned_manila_weather.csv".

Definition create_features_config : Env -> option job_args :=
  job_config "cleaned_manila_weather.csv" "features_manila_weather.csv".

(** [str.endswith]: some tail of [s] is [suffix]. *)
Fixpoint endswith (s suffix : string) : bool :=
  String.eqb s suffix
  || match s with
     | EmptyString => false
     | String _ s' => endswith s' suffix
     end.

(** Lines 258-262 of [generate_eda.py]: the prefix the report is written
    under. *)
Definition output_prefix (env : Env) : string :=
  let p := environ_get env "OUTPUT_PREFIX" "eda/" in
  if endswith p "/" then p else (p ++ "/")%string.

(** The [__main__] block of [generate_eda.py] up to the call of the job; the
    fourth argument is the prefix. *)
Definition generate_eda_config (env : Env) : option job_args :=
  if negb (is_set env "INPUT_BUCKET") || negb (is_set env "OUTPUT_BUCKET")
  then None
  else Some {| input_bucket := environ_get env "INPUT_BUCKET" "";
               input_key :=
                 environ_get env "INPUT_KEY" "features_manila_weather.csv";
               output_bucket := environ_get env "OUTPUT_BUCKET" "";
               output_key := output_prefix env |}.

(** The keys of the five objects the report generator uploads, in the order
    of the uploads. *)
Definition report_keys (pre : string) : list string :=
  map (fun name => (pre ++ name)%string)
      ["summary_statistics.csv"; "correlation_heatmap.png";
       "timeseries_plots.png"; "distributions.png";
       "monthly_aggregations.png"].

(** The feature frame of the five messy days: no TMIN, no average
    temperature, no humidity. *)
Definition messy_features : DataFrame :=
  Eval vm_compute in
    match create_lag_features Qsqrt_newton ymd_isoweek ymd_quarter stable_order messy_clean
    with Some f => f | None => [] end.

(** An environment with the two bucket variables and nothing else. *)
Definition buckets_env (inb outb : string) : Env :=
  fun name =>
    if String.eqb name "INPUT_BUCKET" then Some inb
    else if String.eqb name "OUTPUT_BUCKET" then Some outb
    else None.






(** The frame with every column read through the indexer [idx]: row [i] of
    the result is row [nth i idx] of [df]. *)
Definition permute_rows (idx : list nat) (df : DataFrame) : DataFrame :=
  map (fun nc => (fst nc, take idx (snd nc))) df.

(** The cells of a datetime column: a timestamp or NaT. *)
Definition date_value (v : value) : Prop :=
  match v with NA | Date _ => True | _ => False end.

(** Two readings on one day, and the frame the cleaner makes of them when
    the sort puts the later of two rows of equal date first. *)
Definition tied_raw : DataFrame :=
  [("YEAR", int_col [2020; 2020]%Z);
   ("MONTH", int_col [1; 1]%Z);
   ("DAY", int_col [1; 1]%Z);
   ("TMAX", int_col [30; 31]%Z)].

Definition tied_clean : DataFrame :=
  Eval vm_compute in
    match clean_data ymd_assemble later_first tied_raw with
    | Some d => d
    | None => []
    end.

(** What the feature builder makes of [tied_clean] under the same sort. *)
Definition tied_features : DataFrame :=
  Eval vm_compute in
    match create_lag_features Qsqrt_newton ymd_isoweek ymd_quarter
            later_first tied_clean
    with Some f => f | None => [] end.

(** * Properties *)

(** ** Frames: reading after writing *)

Lemma Some_inj {A : Type} (x y : A) : Some x = Some y -> x = y.
Proof. intros H. injection H as H. exact H. Qed.

Lemma bind_Some {A B : Type} (m : option A) (k : A -> option B) (b : B) :
  bind m k = Some b -> exists a, m = Some a /\ k a = Some b.
Proof.
  destruct m as [a|]; simpl; [|discriminate]. intros H. exists a. auto.
Qed.

Lemma get_set_col (n m : string) (c : Column) (df : DataFrame) :
  get n (set_col m c df) = if String.eqb n m then Some c else get n df.
Proof.
  induction df as [|[k c0] rest IH]; simpl.
  - destruct (String.eqb n m); reflexivity.
  - destruct (String.eqb m k) eqn:Emk; simpl.
    + apply String.eqb_eq in Emk; subst k.
      destruct (String.eqb n m); reflexivity.
    + destruct (String.eqb n k) eqn:Enk.
      * apply String.eqb_eq in Enk; subst k.
        rewrite String.eqb_sym in Emk. rewrite Emk. reflexivity.
      * exact IH.
Qed.

Lemma set_col_same (n : string) (c : Column) (df : DataFrame) :
  get n df = Some c -> set_col n c df = df.
Proof.
  induction df as [|[k c0] rest IH]; simpl; [discriminate|].
  destruct (String.eqb n k) eqn:E; intros H.
  - apply String.eqb_eq in E. congruence.
  - rewrite IH by exact H. reflexivity.
Qed.

Lemma get_update_col (n m : string) (f : Column -> Column) (df : DataFrame) :
  get n (update_col m f df)
  = if String.eqb n m then option_map f (get n df) else get n df.
Proof.
  unfold update_col. destruct (get m df) as [c|] eqn:E.
  - rewrite get_set_col. destruct (String.eqb n m) eqn:Enm; [|reflexivity].
    apply String.eqb_eq in Enm; subst. rewrite E. reflexivity.
  - destruct (String.eqb n m) eqn:Enm; [|reflexivity].
    apply String.eqb_eq in Enm; subst. rewrite E. reflexivity.
Qed.


Lemma get_In (n : string) (c : Column) (df : DataFrame) :
  get n df = Some c -> In (n, c) df.
Proof.
  induction df as [|[k c0] rest IH]; simpl; [discriminate|].
  destruct (String.eqb n k) eqn:E; intros H.
  - apply String.eqb_eq in E. left. congruence.
  - right. auto.
Qed.

Lemma mem_In (n : string) (names : list string) :
  mem n names = true <-> In n names.
Proof.
  unfold mem. rewrite existsb_exists. split.
  - intros [x [Hx E]]. apply String.eqb_eq in E. subst. exact Hx.
  - intros H. exists n. split; [exact H|apply String.eqb_refl].
Qed.

Lemma get_drop_columns (n : string) (names : list string) (df : DataFrame) :
  get n (drop_columns names df) = if mem n names then None else get n df.
Proof.
  unfold drop_columns. induction df as [|[k c0] rest IH]; simpl.
  - destruct (mem n names); reflexivity.
  - destruct (mem k names) eqn:Ek; simpl.
    + rewrite IH. destruct (String.eqb n k) eqn:E; [|reflexivity].
      apply String.eqb_eq in E; subst. rewrite Ek. reflexivity.
    + destruct (String.eqb n k) eqn:E; [|exact IH].
      apply String.eqb_eq in E; subst. rewrite Ek. reflexivity.
Qed.

Lemma get_map_cols (f : Column -> Column) (n : string) (df : DataFrame) :
  get n (map (fun nc => (fst nc, f (snd nc))) df) = option_map f (get n df).
Proof.
  induction df as [|[k c0] rest IH]; simpl; [reflexivity|].
  destruct (String.eqb n k); [reflexivity|exact IH].
Qed.

Lemma get_reorder (n : string) (order : list string) (df : DataFrame) :
  get n (reorder order df) = if mem n order then get n df else None.
Proof.
  induction order as [|k rest IH]; simpl; [reflexivity|].
  destruct (get k df) as [c|] eqn:Ek; simpl.
  - destruct (String.eqb n k) eqn:E; simpl.
    + apply String.eqb_eq in E; subst. symmetry. exact Ek.
    + exact IH.
  - destruct (String.eqb n k) eqn:E; simpl; [|exact IH].
    apply String.eqb_eq in E; subst. rewrite IH, Ek.
    destruct (mem k rest); reflexivity.
Qed.

Lemma In_reorder (n : string) (c : Column) (order : list string) (df : DataFrame) :
  In (n, c) (reorder order df) -> In n order /\ get n df = Some c.
Proof.
  induction order as [|k rest IH]; simpl; [tauto|].
  destruct (get k df) as [c0|] eqn:Ek; simpl.
  - intros [H|H].
    + inversion H; subst. auto.
    + destruct (IH H). auto.
  - intros H. destruct (IH H). auto.
Qed.

Lemma all_len_rectangular (N : nat) (df : DataFrame) :
  df <> [] -> all_len N df -> rectangular df /\ nrows df = N.
Proof.
  intros Hne L. destruct df as [|[k c0] rest]; [congruence|].
  assert (E : nrows ((k, c0) :: rest) = N).
  { inversion L; subst. reflexivity. }
  split; [|exact E]. intros n c Hin. rewrite E.
  unfold all_len in L. rewrite Forall_forall in L. apply (L (n, c) Hin).
Qed.

Lemma all_len_get (N : nat) (n : string) (c : Column) (d : DataFrame) :
  all_len N d -> get n d = Some c -> length c = N.
Proof.
  intros L G. apply get_In in G. unfold all_len in L.
  rewrite Forall_forall in L. apply (L _ G).
Qed.

Lemma rectangular_all_len (df : DataFrame) :
  rectangular df -> all_len (nrows df) df.
Proof.
  intros R. apply Forall_forall. intros [n c] Hin. apply (R n c Hin).
Qed.

(** ** Columns: clamping *)

Lemma clamp_value_not_negative (v : value) : is_negative (clamp_value v) = false.
Proof.
  unfold clamp_value. destruct (is_negative v) eqn:E; [reflexivity|exact E].
Qed.

Lemma clamp_col_not_negative (c : Column) :
  Forall (fun v => is_negative v = false) (clamp_col c).
Proof.
  unfold clamp_col. apply Forall_map, Forall_forall. intros v _.
  apply clamp_value_not_negative.
Qed.

Lemma clamp_col_fixed (c : Column) :
  existsb is_negative c = false -> clamp_col c = c.
Proof.
  unfold clamp_col. induction c as [|v rest IH]; simpl; [reflexivity|].
  intros H. apply orb_false_iff in H. destruct H as [Hv Hr].
  rewrite Hv, IH by exact Hr. reflexivity.
Qed.

Lemma not_negative_existsb (c : Column) :
  Forall (fun v => is_negative v = false) c -> existsb is_negative c = false.
Proof.
  induction 1 as [|v rest Hv _ IH]; simpl; [reflexivity|].
  rewrite Hv, IH. reflexivity.
Qed.

Lemma clamp_col_length (c : Column) : length (clamp_col c) = length c.
Proof. apply length_map. Qed.

Lemma clamp_value_isna (v : value) : isna (clamp_value v) = isna v.
Proof.
  unfold clamp_value. destruct v as [|q| |]; simpl; try reflexivity.
  destruct (Qlt_le_dec q 0); reflexivity.
Qed.

(** ** Columns: filling *)

Lemma ffill_from_length (l : value) (c : Column) :
  length (ffill_from l c) = length c.
Proof.
  revert l. induction c as [|v rest IH]; intros l; simpl; [reflexivity|].
  destruct (isna v); simpl; rewrite IH; reflexivity.
Qed.

Lemma bfill_length (c : Column) : length (bfill c) = length c.
Proof.
  unfold bfill, ffill. rewrite length_rev, ffill_from_length, length_rev.
  reflexivity.
Qed.

Lemma fillna0_length (c : Column) : length (fillna0 c) = length c.
Proof. apply length_map. Qed.

Lemma ffill_from_notna (l : value) (c : Column) :
  isna l = false -> Forall (fun v => isna v = false) (ffill_from l c).
Proof.
  revert l. induction c as [|v rest IH]; intros l Hl; simpl; [constructor|].
  destruct (isna v) eqn:E; constructor; auto.
Qed.


(** So is a column with nothing but missing cells, by ffill and bfill. *)
Lemma ffill_from_empty (c : Column) :
  Forall (fun v => isna v = true) c -> ffill_from NA c = c.
Proof.
  induction 1 as [|v rest Hv _ IH]; simpl; [reflexivity|].
  rewrite Hv, IH. destruct v; try discriminate. reflexivity.
Qed.


Lemma fillna0_notna (c : Column) :
  Forall (fun v => isna v = false) (fillna0 c).
Proof.
  unfold fillna0. apply Forall_map, Forall_forall. intros v _.
  destruct (isna v) eqn:E; [reflexivity|exact E].
Qed.

Lemma ffill_from_cons (l v : value) (rest : Column) :
  ffill_from l (v :: rest)
  = (if isna v then l else v) :: ffill_from (if isna v then l else v) rest.
Proof. simpl. destruct (isna v); reflexivity. Qed.

Lemma last_cons_nonempty (a d : value) (l : Column) :
  l <> [] -> last (a :: l) d = last l d.
Proof. destruct l; [congruence|reflexivity]. Qed.

(** Once a value is being carried, or one is still to come, the forward
    fill ends on a value. *)
Lemma ffill_from_last (l : value) (c : Column) :
  c <> [] ->
  isna l = false \/ Exists (fun v => isna v = false) c ->
  isna (last (ffill_from l c) NA) = false.
Proof.
  revert l. induction c as [|v rest IH]; intros l Hne H; [congruence|].
  rewrite ffill_from_cons.
  destruct rest as [|w rest'].
  - simpl. destruct (isna v) eqn:E; [|exact E].
    destruct H as [H|H]; [exact H|].
    inversion H as [? ? Hv|? ? Hr]; subst; [congruence|inversion Hr].
  - rewrite last_cons_nonempty.
    2:{ intros C. apply (f_equal (@length value)) in C.
        rewrite ffill_from_length in C. discriminate. }
    apply IH; [discriminate|].
    destruct (isna v) eqn:E; [|left; exact E].
    destruct H as [H|H]; [left; exact H|].
    inversion H; subst; [congruence|right; assumption].
Qed.

Lemma empty_or_some (c : Column) :
  Forall (fun v => isna v = true) c \/ Exists (fun v => isna v = false) c.
Proof.
  induction c as [|v rest [IH|IH]].
  - left. constructor.
  - destruct (isna v) eqn:E.
    + left. constructor; assumption.
    + right. constructor. exact E.
  - right. apply Exists_cons_tl. exact IH.
Qed.

Lemma bfill_ffill_settled (c : Column) : settled (bfill (ffill c)).
Proof.
  destruct (empty_or_some c) as [Hall|Hex].
  - right. unfold bfill, ffill. rewrite (ffill_from_empty c Hall).
    rewrite ffill_from_empty by (apply Forall_rev; exact Hall).
    rewrite rev_involutive. exact Hall.
  - left. unfold bfill. apply Forall_rev.
    assert (Hne : c <> []) by (intros ->; inversion Hex).
    assert (Hy : ffill c <> []).
    { intros C. apply (f_equal (@length value)) in C. unfold ffill in C.
      rewrite ffill_from_length in C. destruct c; [congruence|discriminate]. }
    pose proof (ffill_from_last NA c Hne (or_intror Hex)) as Hlast.
    fold (ffill c) in Hlast.
    rewrite (app_removelast_last NA Hy), rev_app_distr. simpl.
    unfold ffill at 1. rewrite ffill_from_cons, Hlast.
    constructor; [exact Hlast|]. apply ffill_from_notna, Hlast.
Qed.


Lemma clamp_col_isna (b : bool) (c : Column) :
  Forall (fun v => isna v = b) c -> Forall (fun v => isna v = b) (clamp_col c).
Proof.
  intros H. unfold clamp_col. apply Forall_map.
  eapply Forall_impl; [|exact H]. intros v Hv. simpl.
  fold (clamp_value v). rewrite clamp_value_isna. exact Hv.
Qed.


(** Row by row, the forward fill keeps a value and replaces a missing cell
    by what it left one row earlier. *)
Lemma ffill_from_step (l : value) (xs : Column) (j : nat) :
  (S j < length xs)%nat ->
  nth (S j) (ffill_from l xs) NA
  = if isna (nth (S j) xs NA) then nth j (ffill_from l xs) NA
    else nth (S j) xs NA.
Proof.
  revert l j. induction xs as [|v rest IH]; intros l j H; simpl in H; [lia|].
  rewrite ffill_from_cons. cbn [nth].
  destruct j as [|k].
  - destruct rest as [|w r]; simpl in H; [lia|].
    rewrite ffill_from_cons. cbn [nth]. destruct (isna w); reflexivity.
  - rewrite IH by lia. reflexivity.
Qed.

Lemma ffill_nth (xs : Column) (i : nat) :
  (i < length xs)%nat -> nth i (ffill xs) NA = nearest_preceding xs i.
Proof.
  induction i as [|j IH]; intros H.
  - destruct xs as [|v rest]; simpl in H; [lia|].
    unfold ffill. rewrite ffill_from_cons. simpl.
    destruct v; reflexivity.
  - unfold ffill. rewrite ffill_from_step by exact H.
    fold (ffill xs). rewrite IH by lia. reflexivity.
Qed.

(** ** Columns: dtype *)

Lemma dt_accessor_inv (f : Column -> Column) (c c' : Column) :
  dt_accessor f c = Some c' -> is_datetime_dtype c = true /\ c' = f c.
Proof.
  unfold dt_accessor. destruct (is_datetime_dtype c); [|discriminate].
  intros H. apply Some_inj in H. auto.
Qed.

(** ** Sorting *)

Lemma key_le_total (a b : option Z) : key_le a b = false -> key_le b a = true.
Proof.
  destruct a as [x|], b as [y|]; simpl; try congruence.
  intros H. apply Z.leb_gt in H. apply Z.leb_le. lia.
Qed.

Lemma key_le_trans (a b c : option Z) :
  key_le a b = true -> key_le b c = true -> key_le a c = true.
Proof.
  destruct a as [x|], b as [y|], c as [z|]; simpl; try congruence.
  rewrite !Z.leb_le. lia.
Qed.

Lemma key_le_antisym (a b : option Z) :
  key_le a b = true -> key_le b a = true -> a = b.
Proof.
  destruct a as [x|], b as [y|]; simpl; try congruence.
  rewrite !Z.leb_le. intros H1 H2. f_equal. lia.
Qed.

Lemma goes_before_le (t : nat -> nat -> bool) (p q : option Z * nat) :
  goes_before t p q = true -> pair_le p q.
Proof.
  unfold goes_before, pair_le. intros H. apply andb_prop in H. tauto.
Qed.

Lemma goes_before_total (t : nat -> nat -> bool) (p q : option Z * nat) :
  goes_before t p q = false -> pair_le q p.
Proof.
  unfold goes_before, pair_le. intros H.
  destruct (key_le (fst p) (fst q)) eqn:E; [|apply key_le_total, E].
  simpl in H. destruct (key_le (fst q) (fst p)); [reflexivity|discriminate].
Qed.

Lemma insert_key_perm (t : nat -> nat -> bool) (p : option Z * nat)
  (l : list (option Z * nat)) :
  Permutation (p :: l) (insert_key t p l).
Proof.
  induction l as [|q rest IH]; simpl; [reflexivity|].
  destruct (goes_before t p q); [reflexivity|].
  rewrite perm_swap. constructor. exact IH.
Qed.

Lemma sort_keys_perm (t : nat -> nat -> bool) (l : list (option Z * nat)) :
  Permutation l (sort_keys t l).
Proof.
  induction l as [|p rest IH]; simpl; [constructor|].
  rewrite <- insert_key_perm. constructor. exact IH.
Qed.

(** Whatever the order among equal keys, insertion keeps the keys in
    ascending order. *)
Lemma insert_key_sorted (t : nat -> nat -> bool) (p : option Z * nat)
  (l : list (option Z * nat)) :
  Sorted pair_le l -> Sorted pair_le (insert_key t p l).
Proof.
  induction l as [|q rest IH]; intros H; simpl.
  - repeat constructor.
  - destruct (goes_before t p q) eqn:E.
    + constructor; [exact H|constructor; apply (goes_before_le t), E].
    + apply Sorted_inv in H. destruct H as [Hs Hh].
      constructor; [apply IH; exact Hs|].
      destruct rest as [|r rest']; simpl.
      * constructor. apply (goes_before_total t), E.
      * destruct (goes_before t p r).
        -- constructor. apply (goes_before_total t), E.
        -- inversion Hh; subst. constructor. assumption.
Qed.

Lemma sort_keys_sorted (t : nat -> nat -> bool) (l : list (option Z * nat)) :
  Sorted pair_le (sort_keys t l).
Proof.
  induction l as [|p rest IH]; simpl; [constructor|].
  apply insert_key_sorted, IH.
Qed.

Lemma argsort_length (tie : TieBreak) (keys : list (option Z)) :
  length (argsort tie keys) = length keys.
Proof.
  unfold argsort. rewrite length_map.
  rewrite <- (Permutation_length (sort_keys_perm _ _)).
  rewrite length_combine, length_seq. apply Nat.min_id.
Qed.

(** Every pair the sort handles still says which key sits at which row. *)
Lemma combine_seq_nth (keys : list (option Z)) (k : option Z) (i s : nat) :
  In (k, i) (combine keys (seq s (length keys))) ->
  (s <= i < s + length keys)%nat /\ nth (i - s) keys None = k.
Proof.
  revert s. induction keys as [|a rest IH]; intros s; simpl; [tauto|].
  intros [H|H].
  - inversion H; subst. rewrite Nat.sub_diag. split; [lia|reflexivity].
  - destruct (IH _ H) as [Hr Hn]. split; [lia|].
    replace (i - s)%nat with (S (i - S s)) by lia. exact Hn.
Qed.

Lemma sorted_pairs_nth (t : nat -> nat -> bool) (keys : list (option Z))
  (k : option Z) (i : nat) :
  In (k, i) (sort_keys t (combine keys (seq 0 (length keys)))) ->
  (i < length keys)%nat /\ nth i keys None = k.
Proof.
  intros H.
  apply (Permutation_in _ (Permutation_sym (sort_keys_perm _ _))) in H.
  apply combine_seq_nth in H. rewrite Nat.sub_0_r in H.
  destruct H as [Hr Hn]. split; [lia|exact Hn].
Qed.

Lemma argsort_bound (tie : TieBreak) (keys : list (option Z)) (i : nat) :
  In i (argsort tie keys) -> (i < length keys)%nat.
Proof.
  unfold argsort. rewrite in_map_iff. intros [[k j] [E H]]. simpl in E. subst j.
  apply sorted_pairs_nth in H. tauto.
Qed.

(** Reading the keys through the indexer gives them in sorted order. *)
Lemma argsort_keys (tie : TieBreak) (keys : list (option Z)) :
  map (fun i => nth i keys None) (argsort tie keys)
  = map fst (sort_keys (tie keys) (combine keys (seq 0 (length keys)))).
Proof.
  unfold argsort. rewrite map_map. apply map_ext_in.
  intros [k i] H. simpl. apply sorted_pairs_nth in H. tauto.
Qed.

Lemma Sorted_map_fst (l : list (option Z * nat)) :
  Sorted pair_le l -> Sorted (fun a b => key_le a b = true) (map fst l).
Proof.
  induction 1 as [|p rest Hs IH Hh]; simpl; constructor; [exact IH|].
  destruct Hh; simpl; constructor. assumption.
Qed.

Lemma argsort_sorted (tie : TieBreak) (keys : list (option Z)) :
  Sorted (fun a b => key_le a b = true)
         (map (fun i => nth i keys None) (argsort tie keys)).
Proof. rewrite argsort_keys. apply Sorted_map_fst, sort_keys_sorted. Qed.

Lemma map_snd_combine_seq (keys : list (option Z)) (s : nat) :
  map snd (combine keys (seq s (length keys))) = seq s (length keys).
Proof.
  revert s. induction keys as [|k rest IH]; intros s; simpl; [reflexivity|].
  rewrite IH. reflexivity.
Qed.

Lemma argsort_perm (tie : TieBreak) (keys : list (option Z)) :
  Permutation (argsort tie keys) (seq 0 (length keys)).
Proof.
  unfold argsort. rewrite <- (map_snd_combine_seq keys 0) at 2.
  apply Permutation_map, Permutation_sym, sort_keys_perm.
Qed.

Lemma take_length (idx : list nat) (c : Column) : length (take idx c) = length idx.
Proof. apply length_map. Qed.

Lemma take_seq (c : Column) : take (seq 0 (length c)) c = c.
Proof.
  unfold take. induction c as [|v rest IH]; simpl; [reflexivity|].
  rewrite <- seq_shift, map_map. simpl. rewrite IH. reflexivity.
Qed.

Lemma take_date_keys (idx : list nat) (dates : Column) :
  map date_key (take idx dates)
  = map (fun i => nth i (map date_key dates) None) idx.
Proof.
  unfold take. rewrite map_map. apply map_ext. intros i.
  symmetry. apply (map_nth date_key dates NA i).
Qed.

Lemma sort_values_inv (tie : TieBreak) (by_ : string) (df df' : DataFrame) :
  sort_values tie by_ df = Some df' ->
  exists dates,
    get by_ df = Some dates /\
    df' = map (fun nc => (fst nc,
                          take (argsort tie (map date_key dates)) (snd nc))) df.
Proof.
  unfold sort_values. destruct (get by_ df) as [dates|]; [|discriminate].
  intros H. inversion H. exists dates. split; reflexivity.
Qed.

Lemma Sorted_of_date_keys (dates : Column) :
  Sorted (fun a b => key_le a b = true) (map date_key dates) ->
  Sorted date_le dates.
Proof.
  induction dates as [|v rest IH]; intros S; [constructor|].
  simpl in S. apply Sorted_inv in S. destruct S as [Ss Sh].
  constructor; [apply IH; exact Ss|].
  destruct rest; simpl in Sh; constructor. inversion Sh; subst. assumption.
Qed.

(** After [sort_values] the key column is in ascending order. *)
Lemma sort_values_sorted (tie : TieBreak) (by_ : string) (df df' : DataFrame)
  (dates : Column) :
  sort_values tie by_ df = Some df' -> get by_ df' = Some dates ->
  Sorted date_le dates.
Proof.
  intros H G. apply sort_values_inv in H. destruct H as [d0 [G0 ->]].
  rewrite get_map_cols, G0 in G. simpl in G. inversion G; subst dates.
  apply Sorted_of_date_keys. rewrite take_date_keys. apply argsort_sorted.
Qed.

Lemma Sorted_date_keys (dates : Column) :
  Sorted date_le dates ->
  Sorted (fun a b => key_le a b = true) (map date_key dates).
Proof.
  induction 1 as [|v rest Hs IH Hh]; simpl; constructor; [exact IH|].
  destruct Hh; simpl; constructor. assumption.
Qed.

(** Two ascending lists of keys with the same elements are the same
    list. *)
Lemma sorted_keys_unique (l1 l2 : list (option Z)) :
  Sorted (fun a b => key_le a b = true) l1 ->
  Sorted (fun a b => key_le a b = true) l2 ->
  Permutation l1 l2 -> l1 = l2.
Proof.
  intros S1 S2.
  apply Sorted_StronglySorted in S1; [|intros a b c; apply key_le_trans].
  apply Sorted_StronglySorted in S2; [|intros a b c; apply key_le_trans].
  revert l2 S2. induction S1 as [|a l1 S1 IH F1]; intros l2 S2 P.
  - apply Permutation_nil in P. subst l2. reflexivity.
  - destruct S2 as [|b l2 S2 F2].
    + apply Permutation_sym, Permutation_nil in P. discriminate.
    + assert (E : a = b).
      { assert (Ha : In a (b :: l2))
          by (apply (Permutation_in _ P); left; reflexivity).
        assert (Hb : In b (a :: l1))
          by (apply (Permutation_in _ (Permutation_sym P)); left; reflexivity).
        destruct Ha as [->|Ha]; [reflexivity|].
        destruct Hb as [->|Hb]; [reflexivity|].
        rewrite Forall_forall in F1, F2.
        apply key_le_antisym; [apply F1, Hb|apply F2, Ha]. }
      subst b. f_equal. apply IH; [exact S2|].
      apply Permutation_cons_inv with a, P.
Qed.

Lemma map_nth_seq {A : Type} (l : list A) (d : A) :
  map (fun i => nth i l d) (seq 0 (length l)) = l.
Proof.
  induction l as [|v rest IH]; simpl; [reflexivity|].
  rewrite <- seq_shift, map_map. simpl. rewrite IH. reflexivity.
Qed.

(** Keys in ascending order come back as they are, whatever happens to the
    rows that share a key. *)
Lemma argsort_same_keys (tie : TieBreak) (keys : list (option Z)) :
  Sorted (fun a b => key_le a b = true) keys ->
  map (fun i => nth i keys None) (argsort tie keys) = keys.
Proof.
  intros S. apply sorted_keys_unique; [apply argsort_sorted|exact S|].
  rewrite <- (map_nth_seq keys None) at 2.
  apply Permutation_map, argsort_perm.
Qed.

(** Without equal keys there is one way to sort: a sorted list stays as it
    is. *)
Lemma argsort_fixed (tie : TieBreak) (keys : list (option Z)) :
  Sorted (fun a b => key_le a b = true) keys ->
  NoDup keys ->
  argsort tie keys = seq 0 (length keys).
Proof.
  intros S N. pose proof (argsort_same_keys tie keys S) as E.
  apply (nth_ext _ _ 0%nat 0%nat);
    [rewrite argsort_length, length_seq; reflexivity|].
  intros i Hi. rewrite argsort_length in Hi.
  rewrite seq_nth by exact Hi. simpl.
  assert (B : (nth i (argsort tie keys) 0 < length keys)%nat).
  { apply (argsort_bound tie), nth_In. rewrite argsort_length. exact Hi. }
  assert (K : nth (nth i (argsort tie keys) 0%nat) keys None
              = nth i keys None).
  { transitivity
      (nth i (map (fun j => nth j keys None) (argsort tie keys)) None);
      [|rewrite E; reflexivity].
    rewrite (nth_indep (map (fun j => nth j keys None) (argsort tie keys))
               None (nth 0%nat keys None))
      by (rewrite length_map, argsort_length; exact Hi).
    symmetry. apply (map_nth (fun j => nth j keys None)). }
  exact (proj1 (NoDup_nth keys None) N
           (nth i (argsort tie keys) 0%nat) i B Hi K).
Qed.

(** *** Every sorted order is the order of some tie-break *)

Lemma comes_first_total (idx : list nat) (i j : nat) :
  comes_first i j idx = false -> comes_first j i idx = true.
Proof.
  induction idx as [|k rest IH]; simpl; [discriminate|].
  destruct (Nat.eqb k i) eqn:Ei; [discriminate|].
  destruct (Nat.eqb k j) eqn:Ej; [reflexivity|]. exact IH.
Qed.

Lemma comes_first_trans (idx : list nat) (i j l : nat) :
  comes_first i j idx = true -> comes_first j l idx = true ->
  comes_first i l idx = true.
Proof.
  induction idx as [|k rest IH]; simpl; [reflexivity|].
  destruct (Nat.eqb k i) eqn:Ei; [reflexivity|].
  destruct (Nat.eqb k j) eqn:Ej; [discriminate|].
  destruct (Nat.eqb k l) eqn:El; [discriminate|]. exact IH.
Qed.

Lemma comes_first_antisym (idx : list nat) (i j : nat) :
  In i idx -> comes_first i j idx = true -> comes_first j i idx = true ->
  i = j.
Proof.
  induction idx as [|k rest IH]; simpl; [tauto|].
  intros Hi. destruct (Nat.eqb k i) eqn:Ei.
  - apply Nat.eqb_eq in Ei. subst k.
    destruct (Nat.eqb i j) eqn:Ej; [intros _ _; apply Nat.eqb_eq, Ej|].
    discriminate.
  - destruct (Nat.eqb k j) eqn:Ej; [discriminate|].
    destruct Hi as [Hi|Hi]; [subst k; rewrite Nat.eqb_refl in Ei; discriminate|].
    apply IH, Hi.
Qed.

Lemma comes_first_here (pre rest : list nat) (i j : nat) :
  ~ In j pre -> comes_first i j (pre ++ i :: rest) = true.
Proof.
  induction pre as [|k pre' IH]; simpl; intros H.
  - rewrite Nat.eqb_refl. reflexivity.
  - destruct (Nat.eqb k i); [reflexivity|].
    destruct (Nat.eqb k j) eqn:Ej;
      [apply Nat.eqb_eq in Ej; subst k; tauto|].
    apply IH. tauto.
Qed.

Lemma goes_before_linear (t : nat -> nat -> bool) (p q : option Z * nat) :
  linear_tie t ->
  goes_before t p q = false -> goes_before t q p = true.
Proof.
  intros [t_total _]. unfold goes_before. destruct (key_le (fst p) (fst q)) eqn:E; simpl.
  - destruct (key_le (fst q) (fst p)); simpl; [|discriminate].
    intros H. apply t_total, H.
  - intros _. rewrite (key_le_total _ _ E). reflexivity.
Qed.

Lemma goes_before_trans (t : nat -> nat -> bool) (p q r : option Z * nat) :
  linear_tie t ->
  goes_before t p q = true -> goes_before t q r = true ->
  goes_before t p r = true.
Proof.
  intros [_ t_trans]. unfold goes_before. intros H1 H2.
  apply andb_prop in H1. destruct H1 as [L1 T1].
  apply andb_prop in H2. destruct H2 as [L2 T2].
  rewrite (key_le_trans _ _ _ L1 L2). simpl.
  destruct (key_le (fst r) (fst p)) eqn:E; [simpl|reflexivity].
  rewrite (key_le_trans _ _ _ L2 E) in T1.
  rewrite (key_le_trans _ _ _ E L1) in T2. simpl in T1, T2.
  apply (t_trans _ _ _ T1 T2).
Qed.

Lemma insert_key_in_order (t : nat -> nat -> bool) (p : option Z * nat)
  (l : list (option Z * nat)) :
  linear_tie t ->
  StronglySorted (fun a b => goes_before t a b = true) l ->
  StronglySorted (fun a b => goes_before t a b = true) (insert_key t p l).
Proof.
  intros Lt. induction 1 as [|q rest S IH F]; simpl; [repeat constructor|].
  destruct (goes_before t p q) eqn:E.
  - constructor; [constructor; assumption|].
    constructor; [exact E|].
    eapply Forall_impl; [|exact F]. intros r Hr.
    apply (goes_before_trans t _ _ _ Lt E Hr).
  - constructor; [exact IH|].
    apply Forall_forall. intros r Hr.
    apply (Permutation_in _ (Permutation_sym (insert_key_perm t p rest))) in Hr.
    destruct Hr as [<-|Hr]; [apply (goes_before_linear t _ _ Lt E)|].
    rewrite Forall_forall in F. apply F, Hr.
Qed.

Lemma sort_keys_in_order (t : nat -> nat -> bool)
  (l : list (option Z * nat)) :
  linear_tie t ->
  StronglySorted (fun a b => goes_before t a b = true) (sort_keys t l).
Proof.
  intros Lt. induction l as [|p rest IH]; simpl; [constructor|].
  apply insert_key_in_order; [exact Lt|exact IH].
Qed.

(** Two lists in the same strict order with the same elements are the same
    list. *)
Lemma in_order_unique {A : Type} (R : A -> A -> Prop) (l1 l2 : list A) :
  (forall a b, In a l1 -> R a b -> R b a -> a = b) ->
  StronglySorted R l1 -> StronglySorted R l2 ->
  Permutation l1 l2 -> l1 = l2.
Proof.
  intros Anti S1. revert l2. induction S1 as [|a l1 S1 IH F1]; intros l2 S2 P.
  - apply Permutation_nil in P. subst l2. reflexivity.
  - destruct S2 as [|b l2 S2 F2].
    + apply Permutation_sym, Permutation_nil in P. discriminate.
    + assert (E : a = b).
      { assert (Ha : In a (b :: l2))
          by (apply (Permutation_in _ P); left; reflexivity).
        assert (Hb : In b (a :: l1))
          by (apply (Permutation_in _ (Permutation_sym P)); left; reflexivity).
        destruct Ha as [->|Ha]; [reflexivity|].
        destruct Hb as [->|Hb]; [reflexivity|].
        rewrite Forall_forall in F1, F2.
        apply Anti; [left; reflexivity|apply F1, Hb|apply F2, Ha]. }
      subst b. f_equal. apply IH; [|exact S2|].
      * intros x y Hx. apply Anti. right. exact Hx.
      * apply Permutation_cons_inv with a, P.
Qed.

Lemma combine_seq_map (keys : list (option Z)) (s : nat) :
  combine keys (seq s (length keys))
  = map (fun i => (nth (i - s) keys None, i)) (seq s (length keys)).
Proof.
  revert s. induction keys as [|a rest IH]; intros s; simpl; [reflexivity|].
  rewrite Nat.sub_diag. f_equal. rewrite IH. apply map_ext_in.
  intros i Hi. apply in_seq in Hi.
  replace (i - s)%nat with (S (i - S s)) by lia. reflexivity.
Qed.

Lemma NoDup_app_disjoint {A : Type} (l1 l2 : list A) (x : A) :
  NoDup (l1 ++ l2) -> In x l1 -> In x l2 -> False.
Proof.
  induction l1 as [|a l1' IH]; simpl; [tauto|].
  intros N H1 H2. apply NoDup_cons_iff in N. destruct N as [Na N].
  destruct H1 as [->|H1].
  - apply Na, in_or_app. right. exact H2.
  - apply IH; assumption.
Qed.

Lemma indexer_in_order (keys : list (option Z)) (idx pre suf : list nat) :
  idx = pre ++ suf -> NoDup idx ->
  StronglySorted (fun a b => key_le a b = true)
                 (map (fun i => nth i keys None) suf) ->
  StronglySorted
    (fun a b => goes_before (order_of idx keys) a b = true)
    (map (fun i => (nth i keys None, i)) suf).
Proof.
  revert pre. induction suf as [|a s IH]; intros pre E N S; simpl;
    [constructor|].
  simpl in S. apply StronglySorted_inv in S. destruct S as [Ss Sh].
  constructor.
  - apply (IH (pre ++ [a])); [rewrite <- app_assoc; exact E|exact N|exact Ss].
  - rewrite Forall_map in Sh. rewrite Forall_map.
    rewrite Forall_forall in Sh. apply Forall_forall. intros j Hj.
    unfold goes_before, order_of. simpl. rewrite (Sh j Hj). simpl.
    destruct (key_le (nth j keys None) (nth a keys None)); [simpl|reflexivity].
    rewrite E. apply comes_first_here. intros Hp.
    rewrite E in N.
    apply (NoDup_app_disjoint pre (a :: s) j N Hp). right. exact Hj.
Qed.

(** Whatever permutation of the rows puts the keys in ascending order, it
    is the indexer of the sort under the tie-break that repeats its order:
    the tie-break leaves out no order that a sort can produce. *)
Lemma argsort_complete (keys : list (option Z)) (idx : list nat) :
  Permutation idx (seq 0 (length keys)) ->
  Sorted (fun a b => key_le a b = true)
         (map (fun i => nth i keys None) idx) ->
  argsort (order_of idx) keys = idx.
Proof.
  intros P S.
  assert (N : NoDup idx).
  { apply (Permutation_NoDup (Permutation_sym P)), seq_NoDup. }
  apply Sorted_StronglySorted in S; [|intros a b c; apply key_le_trans].
  set (T := map (fun i => (nth i keys None, i)) idx).
  assert (E : sort_keys (order_of idx keys)
                (combine keys (seq 0 (length keys))) = T).
  { apply (in_order_unique
             (fun a b => goes_before (order_of idx keys) a b = true)).
    - intros a b Ha H1 H2.
      apply (Permutation_in _ (Permutation_sym (sort_keys_perm _ _))) in Ha.
      destruct a as [ka ia], b as [kb ib].
      apply combine_seq_nth in Ha. destruct Ha as [Ra _].
      unfold goes_before in H1, H2. simpl in H1, H2.
      apply andb_prop in H1. destruct H1 as [L1 T1].
      apply andb_prop in H2. destruct H2 as [L2 T2].
      rewrite L2 in T1. rewrite L1 in T2. simpl in T1, T2.
      unfold order_of in T1, T2.
      f_equal; [apply key_le_antisym; assumption|].
      apply (comes_first_antisym idx); [|exact T1|exact T2].
      apply (Permutation_in _ (Permutation_sym P)), in_seq. lia.
    - apply sort_keys_in_order. split.
      + intros i j. apply comes_first_total.
      + intros i j k. apply comes_first_trans.
    - apply (indexer_in_order keys idx [] idx eq_refl N S).
    - rewrite <- sort_keys_perm. rewrite combine_seq_map. unfold T.
      apply Permutation_sym.
      rewrite (map_ext (fun i => (nth (i - 0) keys None, i))
                 (fun i => (nth i keys None, i)))
        by (intros i; rewrite Nat.sub_0_r; reflexivity).
      apply Permutation_map, P. }
  unfold argsort. rewrite E. unfold T. rewrite map_map. simpl.
  apply map_id.
Qed.

(** *** Frames with their rows permuted *)

Lemma take_perm (idx : list nat) (c : Column) :
  Permutation idx (seq 0 (length c)) -> Permutation (take idx c) c.
Proof.
  intros P. rewrite <- (take_seq c) at 2. unfold take.
  apply Permutation_map, P.
Qed.



Lemma get_permute_rows (idx : list nat) (n : string) (df : DataFrame) :
  get n (permute_rows idx df) = option_map (take idx) (get n df).
Proof. apply get_map_cols. Qed.



Lemma sort_values_permutes (tie : TieBreak) (by_ : string) (df : DataFrame)
  (dates : Column) :
  get by_ df = Some dates ->
  sort_values tie by_ df
  = Some (permute_rows (argsort tie (map date_key dates)) df).
Proof. intros G. unfold sort_values. rewrite G. reflexivity. Qed.

(** A datetime cell is known by its sort key. *)
Lemma date_value_key (v w : value) :
  date_value v -> date_value w -> date_key v = date_key w -> v = w.
Proof.
  destruct v, w; simpl; try tauto; try discriminate; congruence.
Qed.

Lemma date_values_keys (a b : Column) :
  Forall date_value a -> Forall date_value b ->
  map date_key a = map date_key b -> a = b.
Proof.
  intros Fa. revert b. induction Fa as [|v a Hv _ IH]; intros b Fb E.
  - destruct b; [reflexivity|discriminate].
  - destruct Fb as [|w b Hw Fb]; [discriminate|].
    simpl in E. inversion E as [[E1 E2]].
    rewrite (date_value_key v w Hv Hw E1), (IH b Fb E2). reflexivity.
Qed.

Lemma take_date_values (idx : list nat) (c : Column) :
  Forall date_value c -> Forall date_value (take idx c).
Proof.
  intros F. unfold take. apply Forall_map, Forall_forall. intros i _.
  destruct (Nat.lt_ge_cases i (length c)) as [L|L].
  - rewrite Forall_forall in F. apply F, nth_In, L.
  - rewrite nth_overflow by exact L. exact I.
Qed.

(** Sorting dates that are in order already gives the same dates: rows may
    move, but only among rows of one date. *)
Lemma take_sorted_dates (tie : TieBreak) (dates : Column) :
  Forall date_value dates -> Sorted date_le dates ->
  take (argsort tie (map date_key dates)) dates = dates.
Proof.
  intros F S. apply date_values_keys;
    [apply take_date_values, F|exact F|].
  rewrite take_date_keys. apply argsort_same_keys, Sorted_date_keys, S.
Qed.

(** ** The cleaner, column by column *)

Lemma get_fill_missing (n : string) (df : DataFrame) :
  get n (fill_missing df) = option_map (fill_of n) (get n df).
Proof.
  unfold fill_missing, fill_of, temp_humidity_cols, mem. simpl.
  rewrite !get_update_col.
  repeat match goal with
         | |- context [String.eqb n ?s] =>
             let E := fresh "E" in
             destruct (String.eqb n s) eqn:E;
             [apply String.eqb_eq in E; subst n; simpl;
              destruct (get _ df); reflexivity|]
         end.
  simpl. destruct (get n df); reflexivity.
Qed.

Lemma clamp_col_idem (c : Column) : clamp_col (clamp_col c) = clamp_col c.
Proof.
  apply clamp_col_fixed, not_negative_existsb, clamp_col_not_negative.
Qed.

Lemma get_clamp_step (n col : string) (df : DataFrame) :
  get n (clamp_step df col)
  = if String.eqb n col && negb (mem n date_fields)
    then option_map clamp_col (get n df) else get n df.
Proof.
  unfold clamp_step. destruct (String.eqb n col) eqn:E; cbn [andb].
  - apply String.eqb_eq in E; subst col.
    destruct (mem n date_fields); cbn [negb]; [reflexivity|].
    destruct (get n df) as [c|] eqn:G; cbn [option_map]; [|exact G].
    destruct (existsb is_negative c) eqn:N.
    + rewrite get_set_col, String.eqb_refl. reflexivity.
    + rewrite clamp_col_fixed by exact N. exact G.
  - destruct (mem col date_fields); [reflexivity|].
    destruct (get col df) as [c|]; [|reflexivity].
    destruct (existsb is_negative c); [|reflexivity].
    rewrite get_set_col, E. reflexivity.
Qed.

Lemma get_fold_clamp (names : list string) (n : string) (df : DataFrame) :
  get n (fold_left clamp_step names df)
  = if mem n names && negb (mem n date_fields)
    then option_map clamp_col (get n df) else get n df.
Proof.
  remember (negb (mem n date_fields)) as keep eqn:Ek.
  revert df. induction names as [|col rest IH]; intros df; [reflexivity|].
  cbn [fold_left]. rewrite IH, get_clamp_step, <- Ek.
  change (mem n (col :: rest)) with (String.eqb n col || mem n rest).
  clear Ek IH. destruct keep; rewrite ?andb_false_r; [|reflexivity].
  rewrite !andb_true_r.
  destruct (String.eqb n col), (mem n rest); simpl; try reflexivity.
  destruct (get n df); simpl; [|reflexivity]. rewrite clamp_col_idem. reflexivity.
Qed.

Lemma numeric_cols_In (n : string) (df : DataFrame) :
  In n (numeric_cols df) <->
  exists c, In (n, c) df /\ is_numeric_dtype c = true.
Proof.
  unfold numeric_cols. rewrite in_map_iff. split.
  - intros [[k c] [E H]]. simpl in E; subst k. apply filter_In in H.
    exists c. exact H.
  - intros [c [H N]]. exists (n, c). split; [reflexivity|].
    apply filter_In. split; assumption.
Qed.

(** What step 4 does to the column called [n]. *)
Lemma get_remove_negatives (n : string) (df : DataFrame) :
  get n (remove_negatives df)
  = if mem n (numeric_cols df) && negb (mem n date_fields)
    then option_map clamp_col (get n df) else get n df.
Proof. apply get_fold_clamp. Qed.

Lemma is_negative_false (v : value) : is_negative v = false <-> nonneg_cell v.
Proof.
  destruct v as [|q| |]; simpl; try tauto.
  destruct (Qlt_le_dec q 0) as [L|L]; split; intros H; try congruence.
  exfalso. apply (Qlt_not_le _ _ L). exact H.
Qed.

(** Case analysis on membership in a literal list. *)
Ltac split_in :=
  repeat match goal with
         | H : In _ (_ :: _) |- _ => destruct H as [H|H]; [subst|]
         | H : In _ [] |- _ => destruct H
         end.

(** ** The cleaner *)

Section Cleaner.

Variable assemble : value -> value -> value -> option Z.
Variable tie : TieBreak.

Lemma clean_data_inv (raw d : DataFrame) :
  clean_data assemble tie raw = Some d ->
  exists s,
    date_and_sort assemble tie raw = Some s /\
    d = reorder col_order (remove_negatives (fill_missing s)).
Proof.
  unfold clean_data. intros H. apply bind_Some in H.
  destruct H as [s [Hs H]]. exists s. split; [exact Hs|].
  apply Some_inj in H. symmetry. exact H.
Qed.

(** C5. After cleaning, a numeric column other than YEAR, MONTH and DAY has
    no negative value in any row; and the frame with TMAX = [30, 28, -5, 32]
    on four consecutive days is cleaned to TMAX = [30, 28, 0, 32]. *)
Theorem clean_data_no_negative :
  (forall (raw d : DataFrame) (n : string) (c : Column),
      clean_data assemble tie raw = Some d ->
      In (n, c) d ->
      is_numeric_dtype c = true ->
      ~ In n date_fields ->
      Forall nonneg_cell c)
  /\ (d <- clean_data ymd_assemble tie tmax_raw ;; get "TMAX" d)
     = Some (int_col [30; 28; 0; 32]%Z).
Proof.
  split; [|vm_compute; reflexivity].
  intros raw d n c Hc Hin Hnum Hdate.
  apply clean_data_inv in Hc. destruct Hc as [s [_ ->]].
  apply In_reorder in Hin. destruct Hin as [_ G].
  rewrite get_remove_negatives in G.
  assert (Hd : mem n date_fields = false).
  { destruct (mem n date_fields) eqn:E; [|reflexivity].
    apply mem_In in E. contradiction. }
  rewrite Hd in G. cbn [negb] in G. rewrite andb_true_r in G.
  eapply Forall_impl; [intros v; apply is_negative_false|].
  destruct (mem n (numeric_cols (fill_missing s))) eqn:E.
  - destruct (get n (fill_missing s)) as [c0|]; [|discriminate].
    inversion G. apply clamp_col_not_negative.
  - exfalso. apply get_In in G.
    assert (In n (numeric_cols (fill_missing s))) as Hn.
    { apply numeric_cols_In. exists c. split; assumption. }
    apply mem_In in Hn. congruence.
Qed.

Lemma date_and_sort_inv (raw s : DataFrame) :
  date_and_sort assemble tie raw = Some s ->
  exists dates idx,
    let d1 := drop_columns ["WIND_SPEED"; "WIND_DIRECTION"] raw in
    to_datetime assemble d1 = Some dates /\
    idx = argsort tie (map date_key dates) /\
    s = map (fun nc => (fst nc, take idx (snd nc))) (set_col "DATE" dates d1).
Proof.
  unfold date_and_sort, bind.
  destruct (to_datetime assemble _) as [dates|] eqn:E; [|discriminate].
  intros H. apply sort_values_inv in H. destruct H as [d0 [G ->]].
  rewrite get_set_col in G. simpl in G. inversion G; subst d0.
  exists dates, (argsort tie (map date_key dates)). repeat split.
Qed.

(** Sorting keeps every column the raw frame has, wind apart. *)
Lemma date_and_sort_keeps (raw s : DataFrame) (n : string) :
  date_and_sort assemble tie raw = Some s ->
  has n raw = true ->
  mem n ["WIND_SPEED"; "WIND_DIRECTION"; "DATE"] = false ->
  exists xs, get n s = Some xs.
Proof.
  intros H Hn Hm. apply date_and_sort_inv in H.
  destruct H as [dates [idx [_ [_ ->]]]].
  rewrite get_map_cols, get_set_col, get_drop_columns.
  unfold mem in *. simpl in *.
  destruct (String.eqb n "WIND_SPEED"); [discriminate|].
  destruct (String.eqb n "WIND_DIRECTION"); [discriminate|].
  destruct (String.eqb n "DATE"); [discriminate|]. simpl.
  unfold has in Hn. destruct (get n raw) as [c|]; [|discriminate].
  eexists. reflexivity.
Qed.

(** A column of the cleaned frame is the filled column of the sorted frame,
    with or without its negative values zeroed. *)
Lemma cleaned_column (s : DataFrame) (n : string) (xs : Column) :
  mem n col_order = true ->
  get n s = Some xs ->
  let d := reorder col_order (remove_negatives (fill_missing s)) in
  get n d = Some (fill_of n xs) \/ get n d = Some (clamp_col (fill_of n xs)).
Proof.
  intros Hm G d. subst d.
  rewrite get_reorder, Hm, get_remove_negatives, get_fill_missing, G.
  destruct (_ && _); [right|left]; reflexivity.
Qed.

Lemma nth_clamp_col (c : Column) (i : nat) :
  nth i (clamp_col c) NA = clamp_value (nth i c NA).
Proof. unfold clamp_col. apply (map_nth clamp_value c NA i). Qed.

Lemma nth_fillna0 (c : Column) (i : nat) :
  (i < length c)%nat -> nth i (fillna0 c) NA = zero_if_missing (nth i c NA).
Proof.
  intros H. unfold fillna0. fold zero_if_missing.
  rewrite (nth_indep _ NA (zero_if_missing NA)) by (rewrite length_map; exact H).
  apply (map_nth zero_if_missing c NA i).
Qed.

(** C6. When the raw frame has a RAINFALL column and a case-count column,
    neither has a missing value after cleaning.  Row by row of the sorted
    frame, a missing RAINFALL value becomes 0, and a case count is the
    nearest preceding non-missing one, or 0 when there is none (step 4 then
    zeroes a negative value of a numeric column); case counts
    [NaN, NaN, 3, NaN, 5] on five consecutive days become [0, 0, 3, 3, 5]. *)
Theorem clean_data_fills :
  (forall (raw s d : DataFrame),
      date_and_sort assemble tie raw = Some s ->
      clean_data assemble tie raw = Some d ->
      (has "RAINFALL" raw = true ->
       exists xs c,
         get "RAINFALL" s = Some xs /\ get "RAINFALL" d = Some c /\
         length c = length xs /\
         Forall (fun v => isna v = false) c /\
         forall i, (i < length xs)%nat ->
           let f := zero_if_missing (nth i xs NA) in
           nth i c NA = f \/ nth i c NA = clamp_value f)
      /\
      (has "DENGUE CASES" raw = true ->
       exists xs c,
         get "DENGUE CASES" s = Some xs /\ get "DENGUE CASES" d = Some c /\
         length c = length xs /\
         Forall (fun v => isna v = false) c /\
         forall i, (i < length xs)%nat ->
           let f := zero_if_missing (nearest_preceding xs i) in
           nth i c NA = f \/ nth i c NA = clamp_value f))
  /\ (d <- clean_data ymd_assemble tie dengue_raw ;; get "DENGUE CASES" d)
     = Some (int_col [0; 0; 3; 3; 5]%Z)
  /\ (d <- clean_data ymd_assemble tie dengue_raw ;; get "RAINFALL" d)
     = Some (int_col [0; 2; 0; 1; 0]%Z).
Proof.
  split; [|split; vm_compute; reflexivity].
  intros raw s d Hs Hc.
  apply clean_data_inv in Hc. destruct Hc as [s' [Hs' ->]].
  rewrite Hs in Hs'. inversion Hs'; subst s'. clear Hs'.
  split; intros Hhas.
  - destruct (date_and_sort_keeps raw s "RAINFALL" Hs Hhas eq_refl) as [xs G].
    assert (Hfill : forall i, (i < length xs)%nat ->
              nth i (fill_of "RAINFALL" xs) NA = zero_if_missing (nth i xs NA)).
    { intros i Hi. apply nth_fillna0, Hi. }
    assert (Hfull : Forall (fun v => isna v = false) (fill_of "RAINFALL" xs)).
    { apply fillna0_notna. }
    assert (Hlen : length (fill_of "RAINFALL" xs) = length xs).
    { apply fillna0_length. }
    destruct (cleaned_column s "RAINFALL" xs eq_refl G) as [E|E];
      eexists; eexists; (split; [exact G|]); (split; [exact E|]).
    + split; [exact Hlen|]. split; [exact Hfull|].
      intros i Hi f. left. apply Hfill, Hi.
    + split; [rewrite clamp_col_length; exact Hlen|].
      split; [apply clamp_col_isna; exact Hfull|].
      intros i Hi f. right. rewrite nth_clamp_col. f_equal. apply Hfill, Hi.
  - destruct (date_and_sort_keeps raw s "DENGUE CASES" Hs Hhas eq_refl)
      as [xs G].
    assert (Hfill : forall i, (i < length xs)%nat ->
              nth i (fill_of "DENGUE CASES" xs) NA
              = zero_if_missing (nearest_preceding xs i)).
    { intros i Hi. change (fill_of "DENGUE CASES" xs) with (fillna0 (ffill xs)).
      rewrite nth_fillna0 by (unfold ffill; rewrite ffill_from_length; exact Hi).
      rewrite ffill_nth by exact Hi. reflexivity. }
    assert (Hfull : Forall (fun v => isna v = false)
                           (fill_of "DENGUE CASES" xs)).
    { apply fillna0_notna. }
    assert (Hlen : length (fill_of "DENGUE CASES" xs) = length xs).
    { change (fill_of "DENGUE CASES" xs) with (fillna0 (ffill xs)).
      rewrite fillna0_length. apply ffill_from_length. }
    destruct (cleaned_column s "DENGUE CASES" xs eq_refl G) as [E|E];
      eexists; eexists; (split; [exact G|]); (split; [exact E|]).
    + split; [exact Hlen|]. split; [exact Hfull|].
      intros i Hi f. left. apply Hfill, Hi.
    + split; [rewrite clamp_col_length; exact Hlen|].
      split; [apply clamp_col_isna; exact Hfull|].
      intros i Hi f. right. rewrite nth_clamp_col. f_equal. apply Hfill, Hi.
Qed.

Lemma date_key_clamp_col (c : Column) :
  map date_key (clamp_col c) = map date_key c.
Proof.
  unfold clamp_col. rewrite map_map. apply map_ext. intros v.
  destruct v as [|q| |]; simpl; try reflexivity.
  destruct (Qlt_le_dec q 0); reflexivity.
Qed.

Lemma date_le_trans (a b c : value) : date_le a b -> date_le b c -> date_le a c.
Proof. unfold date_le. apply key_le_trans. Qed.

Lemma date_and_sort_dates (raw s : DataFrame) :
  date_and_sort assemble tie raw = Some s ->
  exists xs, get "DATE" s = Some xs /\ Sorted date_le xs.
Proof.
  intros H. pose proof H as H'. apply date_and_sort_inv in H'.
  destruct H' as [dates [idx [_ [_ E]]]].
  assert (G : get "DATE" s = Some (take idx dates)).
  { rewrite E, get_map_cols, get_set_col. reflexivity. }
  exists (take idx dates). split; [exact G|].
  unfold date_and_sort, bind in H.
  destruct (to_datetime assemble _); [|discriminate].
  eapply sort_values_sorted; eassumption.
Qed.

(** C7. The rows of the cleaned frame are in non-decreasing order of DATE:
    the date of a row is at most the date of every later row, a missing
    date counting as later than every date. *)
Theorem clean_data_sorted (raw d : DataFrame) :
  clean_data assemble tie raw = Some d ->
  exists dates, get "DATE" d = Some dates /\ StronglySorted date_le dates.
Proof.
  intros Hc. apply clean_data_inv in Hc. destruct Hc as [s [Hs ->]].
  destruct (date_and_sort_dates raw s Hs) as [xs [G S]].
  assert (T : Relations_1.Transitive date_le).
  { intros a b c. apply date_le_trans. }
  destruct (cleaned_column s "DATE" xs eq_refl G) as [E|E];
    eexists; (split; [exact E|]); apply Sorted_StronglySorted; try exact T.
  - exact S.
  - apply Sorted_of_date_keys. rewrite date_key_clamp_col.
    apply Sorted_date_keys. exact S.
Qed.

(** *** Running the cleaner on its own output *)

Lemma drop_columns_fixed (names : list string) (df : DataFrame) :
  (forall n c, In (n, c) df -> mem n names = false) ->
  drop_columns names df = df.
Proof.
  unfold drop_columns. induction df as [|[k c0] rest IH]; intros H; simpl.
  - reflexivity.
  - rewrite (H k c0) by (left; reflexivity). simpl.
    rewrite IH; [reflexivity|]. intros n c Hin. apply (H n c). right. exact Hin.
Qed.

Lemma zip3_length {A : Type} (f : value -> value -> value -> A) (a b c : Column) :
  length (zip3 f a b c) = Nat.min (length a) (Nat.min (length b) (length c)).
Proof.
  revert b c. induction a as [|x a' IH]; intros b c; [reflexivity|].
  destruct b as [|y b']; [reflexivity|].
  destruct c as [|z c']; simpl; [lia|]. rewrite IH. reflexivity.
Qed.

Lemma nth_zip3 (a b c : Column) (i : nat) :
  (i < length (zip3 (date_cell assemble) a b c))%nat ->
  nth i (zip3 (date_cell assemble) a b c) NA
  = date_cell assemble (nth i a NA) (nth i b NA) (nth i c NA).
Proof.
  revert b c i. induction a as [|x a' IH]; intros b c i H; simpl in H; [lia|].
  destruct b as [|y b']; simpl in H; [lia|].
  destruct c as [|z c']; simpl in H; [lia|].
  destruct i as [|j]; simpl; [reflexivity|]. apply IH. lia.
Qed.

(** Assembling the dates of permuted rows gives the permuted dates. *)
Lemma zip3_take (idx : list nat) (a b c : Column) :
  (forall i, In i idx -> (i < length (zip3 (date_cell assemble) a b c))%nat) ->
  zip3 (date_cell assemble) (take idx a) (take idx b) (take idx c)
  = take idx (zip3 (date_cell assemble) a b c).
Proof.
  induction idx as [|i rest IH]; intros H; simpl; [reflexivity|].
  rewrite IH by (intros j Hj; apply H; right; exact Hj).
  rewrite nth_zip3 by (apply H; left; reflexivity). reflexivity.
Qed.

Lemma date_cell_not_negative (y m d : value) :
  is_negative (date_cell assemble y m d) = false.
Proof. unfold date_cell. destruct (assemble y m d); reflexivity. Qed.

Lemma take_dates_not_negative (idx : list nat) (a b c : Column) :
  existsb is_negative (take idx (zip3 (date_cell assemble) a b c)) = false.
Proof.
  apply not_negative_existsb. unfold take. apply Forall_map, Forall_forall.
  intros i _.
  destruct (Nat.lt_ge_cases i (length (zip3 (date_cell assemble) a b c)))
    as [L|L].
  - rewrite nth_zip3 by exact L. apply date_cell_not_negative.
  - rewrite nth_overflow by exact L. reflexivity.
Qed.

Lemma fill_of_length (n : string) (c : Column) :
  length (fill_of n c) = length c.
Proof.
  unfold fill_of.
  destruct (String.eqb n "DENGUE CASES");
    [rewrite fillna0_length; apply ffill_from_length|].
  destruct (String.eqb n "RAINFALL"); [apply fillna0_length|].
  destruct (mem n temp_humidity_cols); [|reflexivity].
  rewrite bfill_length. apply ffill_from_length.
Qed.



Lemma reorder_get_In (n : string) (c : Column) (order : list string)
  (df : DataFrame) :
  In (n, c) (reorder order df) -> get n (reorder order df) = Some c.
Proof.
  intros H. apply In_reorder in H. destruct H as [Hn G].
  rewrite get_reorder. apply mem_In in Hn. rewrite Hn. exact G.
Qed.

Lemma cleaned_get (s : DataFrame) (n : string) :
  get n (reorder col_order (remove_negatives (fill_missing s)))
  = if mem n col_order then
      if mem n (numeric_cols (fill_missing s)) && negb (mem n date_fields)
      then option_map clamp_col (option_map (fill_of n) (get n s))
      else option_map (fill_of n) (get n s)
    else None.
Proof.
  rewrite get_reorder, get_remove_negatives, get_fill_missing. reflexivity.
Qed.

Lemma cleaned_column_inv (s : DataFrame) (n : string) (c : Column) :
  get n (reorder col_order (remove_negatives (fill_missing s))) = Some c ->
  In n col_order /\
  exists xs, get n s = Some xs /\
             (c = fill_of n xs \/
              (mem n date_fields = false /\ c = clamp_col (fill_of n xs))).
Proof.
  rewrite cleaned_get. destruct (mem n col_order) eqn:Hm; [|discriminate].
  apply mem_In in Hm. intros G. split; [exact Hm|].
  destruct (get n s) as [xs|]; [|destruct (_ && _); discriminate].
  exists xs. split; [reflexivity|].
  destruct (mem n (numeric_cols (fill_missing s)));
    destruct (mem n date_fields) eqn:Ed;
    cbn [andb negb option_map] in G; inversion G; auto.
Qed.

Lemma zip3_date_values (a b c : Column) :
  Forall date_value (zip3 (date_cell assemble) a b c).
Proof.
  revert b c. induction a as [|x a' IH]; intros b c; [constructor|].
  destruct b as [|y b']; [constructor|].
  destruct c as [|z c']; simpl; constructor; [|apply IH].
  unfold date_cell. destruct (assemble x y z); exact I.
Qed.

(** Steps 1 and 2 on a cleaned frame: there is nothing to drop, the dates
    assembled anew are the dates it has, and what is left is the sort. *)
Lemma cleaned_dates (raw s : DataFrame) :
  date_and_sort assemble tie raw = Some s ->
  let d := reorder col_order (remove_negatives (fill_missing s)) in
  exists dates,
    get "DATE" d = Some dates /\
    Sorted date_le dates /\ Forall date_value dates /\
    date_and_sort assemble tie d = sort_values tie "DATE" d.
Proof.
  intros H d.
  destruct (date_and_sort_dates raw s H) as [xs [Gxs Sxs]].
  destruct (date_and_sort_inv raw s H) as [dates [idx [Hdt [Hidx Es]]]].
  cbv zeta in Hdt, Es.
  set (d1 := drop_columns ["WIND_SPEED"; "WIND_DIRECTION"] raw) in *.
  unfold to_datetime, bind in Hdt.
  destruct (get "YEAR" d1) as [Y|] eqn:GY; [|discriminate].
  destruct (get "MONTH" d1) as [M|] eqn:GM; [|discriminate].
  destruct (get "DAY" d1) as [D|] eqn:GD; [|discriminate].
  inversion Hdt as [Edates]. clear Hdt.
  assert (GsY : get "YEAR" s = Some (take idx Y)).
  { rewrite Es, get_map_cols, get_set_col. simpl. rewrite GY. reflexivity. }
  assert (GsM : get "MONTH" s = Some (take idx M)).
  { rewrite Es, get_map_cols, get_set_col. simpl. rewrite GM. reflexivity. }
  assert (GsD : get "DAY" s = Some (take idx D)).
  { rewrite Es, get_map_cols, get_set_col. simpl. rewrite GD. reflexivity. }
  assert (GsT : get "DATE" s = Some (take idx dates)).
  { rewrite Es, get_map_cols, get_set_col. reflexivity. }
  assert (GdY : get "YEAR" d = Some (take idx Y)).
  { unfold d. rewrite cleaned_get, GsY.
    change (mem "YEAR" date_fields) with true. cbn [negb].
    rewrite andb_false_r. reflexivity. }
  assert (GdM : get "MONTH" d = Some (take idx M)).
  { unfold d. rewrite cleaned_get, GsM.
    change (mem "MONTH" date_fields) with true. cbn [negb].
    rewrite andb_false_r. reflexivity. }
  assert (GdD : get "DAY" d = Some (take idx D)).
  { unfold d. rewrite cleaned_get, GsD.
    change (mem "DAY" date_fields) with true. cbn [negb].
    rewrite andb_false_r. reflexivity. }
  assert (GdT : get "DATE" d = Some (take idx dates)).
  { unfold d. rewrite cleaned_get, GsT.
    change (mem "DATE" col_order) with true. cbv iota.
    change (fill_of "DATE") with (fun c : Column => c). cbn [option_map].
    destruct (_ && _); [|reflexivity]. cbn [option_map].
    rewrite <- Edates, clamp_col_fixed by apply take_dates_not_negative.
    reflexivity. }
  assert (HA : drop_columns ["WIND_SPEED"; "WIND_DIRECTION"] d = d).
  { apply drop_columns_fixed. intros n c Hin. unfold d in Hin.
    apply In_reorder in Hin. destruct Hin as [Hn _].
    simpl in Hn.
    repeat (destruct Hn as [<-|Hn]; [reflexivity|]). contradiction. }
  assert (HB : to_datetime assemble d = Some (take idx dates)).
  { unfold to_datetime, bind. rewrite GdY, GdM, GdD.
    rewrite <- Edates. apply f_equal, zip3_take. intros i Hi.
    rewrite Hidx in Hi. apply argsort_bound in Hi.
    rewrite length_map, <- Edates in Hi. exact Hi. }
  exists (take idx dates). split; [exact GdT|]. split; [|split].
  - rewrite GsT in Gxs. apply Some_inj in Gxs. subst xs. exact Sxs.
  - apply take_date_values. rewrite <- Edates. apply zip3_date_values.
  - unfold date_and_sort, bind. rewrite HA, HB.
    rewrite (set_col_same _ _ _ GdT). reflexivity.
Qed.






(** *** Row count *)

Lemma cleaned_lengths (raw s : DataFrame) :
  date_and_sort assemble tie raw = Some s ->
  exists dates,
    to_datetime assemble (drop_columns ["WIND_SPEED"; "WIND_DIRECTION"] raw)
    = Some dates /\
    all_len (length dates)
      (reorder col_order (remove_negatives (fill_missing s))).
Proof.
  intros H.
  destruct (date_and_sort_inv raw s H) as [dates [idx [Hdt [Hidx Es]]]].
  cbv zeta in Hdt, Es. exists dates. split; [exact Hdt|].
  apply Forall_forall. intros [n c] Hin. simpl.
  apply reorder_get_In, cleaned_column_inv in Hin.
  destruct Hin as [_ [c0 [G0 Hc]]].
  rewrite Es, get_map_cols in G0.
  destruct (get n (set_col "DATE" dates _)) as [c1|]; [|discriminate].
  simpl in G0. inversion G0; subst c0.
  assert (L : length idx = length dates).
  { rewrite Hidx, argsort_length. apply length_map. }
  destruct Hc as [->|[_ ->]];
    rewrite ?clamp_col_length, fill_of_length, take_length; exact L.
Qed.

Lemma clean_data_rows (raw d : DataFrame) :
  rectangular raw ->
  clean_data assemble tie raw = Some d ->
  rectangular d /\ nrows d = nrows raw.
Proof.
  intros R Hc.
  apply clean_data_inv in Hc. destruct Hc as [s [Hs ->]].
  destruct (cleaned_lengths raw s Hs) as [dates [Hdt L]].
  destruct (date_and_sort_dates raw s Hs) as [xs [G _]].
  assert (Gd : exists ds, get "DATE" (reorder col_order
                 (remove_negatives (fill_missing s))) = Some ds).
  { destruct (cleaned_column s "DATE" xs eq_refl G) as [E|E];
      eexists; exact E. }
  destruct Gd as [ds Gd].
  assert (N : length dates = nrows raw).
  { unfold to_datetime, bind in Hdt.
    destruct (get "YEAR" _) as [Y|] eqn:GY; [|discriminate].
    destruct (get "MONTH" _) as [M|] eqn:GM; [|discriminate].
    destruct (get "DAY" _) as [D|] eqn:GD; [|discriminate].
    inversion Hdt. rewrite zip3_length.
    rewrite get_drop_columns in GY, GM, GD. simpl in GY, GM, GD.
    apply get_In, R in GY. apply get_In, R in GM. apply get_In, R in GD.
    lia. }
  rewrite N in L. apply all_len_rectangular; [|exact L].
  intros E. rewrite E in Gd. discriminate.
Qed.

(** *** Sorting and cleaning a cleaned frame again *)


(** Sorting a cleaned frame by DATE: every column is read through one
    permutation of the row positions, and the DATE column comes out as it
    is, so that rows change places only with rows of the same date. *)
Lemma cleaned_sort (raw d : DataFrame) :
  clean_data assemble tie raw = Some d ->
  exists dates idx,
    get "DATE" d = Some dates /\
    idx = argsort tie (map date_key dates) /\
    Permutation idx (seq 0 (length dates)) /\
    take idx dates = dates /\
    all_len (length dates) d /\
    Sorted date_le dates /\
    date_and_sort assemble tie d = Some (permute_rows idx d) /\
    sort_values tie "DATE" d = Some (permute_rows idx d).
Proof.
  intros Hc. apply clean_data_inv in Hc. destruct Hc as [s [Hs ->]].
  pose proof (cleaned_dates raw s Hs) as K. cbv zeta in K.
  destruct K as [dates [G [S [F E]]]].
  destruct (cleaned_lengths raw s Hs) as [dates0 [_ L]].
  assert (N : length dates = length dates0).
  { apply (all_len_get _ _ _ _ L G). }
  rewrite <- N in L.
  exists dates, (argsort tie (map date_key dates)).
  split; [exact G|]. split; [reflexivity|].
  split; [rewrite <- (length_map date_key dates); apply argsort_perm|].
  split; [apply take_sorted_dates; assumption|].
  split; [exact L|]. split; [exact S|].
  rewrite E. split; apply sort_values_permutes, G.
Qed.






(** *** What the feature builder finds in a cleaned frame *)

(** The feature builder sorts the cleaned frame once more: it reads every
    column through a permutation of the rows. *)
Lemma cleaned_sorted_column (raw d s : DataFrame) (n : string) (xs : Column) :
  clean_data assemble tie raw = Some d ->
  sort_values tie "DATE" d = Some s ->
  get n d = Some xs ->
  exists idx, get n s = Some (take idx xs) /\ Permutation (take idx xs) xs.
Proof.
  intros Hc Hs G.
  destruct (cleaned_sort raw d Hc)
    as [dates [idx [_ [_ [P [_ [L [_ [_ E]]]]]]]]].
  rewrite E in Hs. apply Some_inj in Hs. subst s.
  exists idx. split; [rewrite get_permute_rows, G; reflexivity|].
  apply take_perm. rewrite (all_len_get _ _ _ _ L G). exact P.
Qed.


End Cleaner.

(** ** Steps and loops *)

Lemma assign_from_inv (src tgt : string) (f : Column -> option Column)
  (d d' : DataFrame) :
  assign_from src tgt f d = Some d' ->
  exists c c', get src d = Some c /\ f c = Some c' /\ d' = set_col tgt c' d.
Proof.
  unfold assign_from. intros H.
  apply bind_Some in H. destruct H as [c [G H]].
  apply bind_Some in H. destruct H as [c' [F H]].
  inversion H. exists c, c'. auto.
Qed.

Lemma for_each_triple {A : Type} (xs : list A)
  (body : A -> step) (I : DataFrame -> Prop) :
  (forall x, In x xs -> triple I (body x) I) ->
  triple I (for_each xs body) I.
Proof.
  induction xs as [|x rest IH]; intros Hb d d' Hd H; simpl in H.
  - inversion H; subst. exact Hd.
  - apply bind_Some in H. destruct H as [d1 [H1 H2]].
    apply (IH (fun y Hy => Hb y (or_intror Hy)) d1 d'); [|exact H2].
    apply (Hb x (or_introl eq_refl) d d1 Hd H1).
Qed.

(** A loop establishes [Q] when one turn does and every turn keeps it. *)
Lemma for_each_establish {A : Type} (xs : list A) (x : A)
  (body : A -> step) (I Q : DataFrame -> Prop) :
  In x xs ->
  (forall y, In y xs -> triple I (body y) I) ->
  triple I (body x) Q ->
  (forall y, In y xs -> triple (fun d => I d /\ Q d) (body y) Q) ->
  triple I (for_each xs body) (fun d => I d /\ Q d).
Proof.
  induction xs as [|y rest IH]; intros Hin Hinv Hx Hkeep d d' Hd H; [inversion Hin|].
  simpl in H. apply bind_Some in H. destruct H as [d1 [H1 H2]].
  assert (I1 : I d1) by (apply (Hinv y (or_introl eq_refl) d d1 Hd H1)).
  destruct Hin as [->|Hin].
  - assert (Q1 : Q d1) by (apply (Hx d d1 Hd H1)).
    apply (for_each_triple rest body (fun d => I d /\ Q d)) with (d := d1);
      [|split; assumption|exact H2].
    intros z Hz e e' [Ie Qe] He. split.
    + apply (Hinv z (or_intror Hz) e e' Ie He).
    + apply (Hkeep z (or_intror Hz) e e' (conj Ie Qe) He).
  - apply (IH Hin) with (d := d1); auto.
    + intros z Hz. apply Hinv. right. exact Hz.
    + intros z Hz. apply Hkeep. right. exact Hz.
Qed.

Lemma preserves_assign (n src tgt : string) (f : Column -> option Column) :
  String.eqb n tgt = false -> preserves n (assign_from src tgt f).
Proof.
  intros E d d' H. apply assign_from_inv in H.
  destruct H as [c [c' [_ [_ ->]]]]. rewrite get_set_col, E. reflexivity.
Qed.

Lemma preserves_for_each {A : Type} (n : string) (xs : list A)
  (body : A -> step) :
  (forall x, In x xs -> preserves n (body x)) ->
  preserves n (for_each xs body).
Proof.
  intros Hb d d' H.
  apply (for_each_triple xs body (fun e => get n e = get n d)) with (d := d);
    [|reflexivity|exact H].
  intros x Hx e e' He Hs. rewrite (Hb x Hx e e' Hs). exact He.
Qed.

Lemma preserves_seq (n : string) (s1 s2 : step) :
  preserves n s1 -> preserves n s2 ->
  preserves n (fun d => bind (s1 d) s2).
Proof.
  intros H1 H2 d d' H. apply bind_Some in H. destruct H as [e [Ha Hb]].
  rewrite (H2 e d' Hb). apply (H1 d e Ha).
Qed.

Lemma preserves_guard (n : string) (b : DataFrame -> bool) (s : step) :
  preserves n s -> preserves n (fun d => if b d then s d else Some d).
Proof.
  intros Hs d d' H. destruct (b d); [apply (Hs d d' H)|].
  inversion H. reflexivity.
Qed.

Lemma mem_false (n : string) (names : list string) (m : string) :
  mem n names = false -> In m names -> String.eqb n m = false.
Proof.
  intros H Hin. destruct (String.eqb n m) eqn:E; [|reflexivity].
  apply String.eqb_eq in E. subst m. apply mem_In in Hin. congruence.
Qed.

(** ** Trailing windows *)





Lemma nth_rolling_values (w i : nat) (agg : list Q -> value) (xs : Column) :
  (i < length xs)%nat ->
  nth i (rolling_values w agg xs) NA = agg (observations (window_at w i xs)).
Proof.
  intros H. unfold rolling_values.
  rewrite (nth_indep _ NA (agg (observations (window_at w 0 xs))))
    by (rewrite length_map, length_seq; exact H).
  rewrite (map_nth (fun i => agg (observations (window_at w i xs)))).
  rewrite seq_nth by exact H. reflexivity.
Qed.

Lemma rolling_values_length (w : nat) (agg : list Q -> value) (xs : Column) :
  length (rolling_values w agg xs) = length xs.
Proof. unfold rolling_values. rewrite length_map. apply length_seq. Qed.



(** ** Column names of the feature builder *)

Lemma base_not_target (X : string) :
  In X lagged_vars -> mem X feature_targets = false.
Proof.
  unfold lagged_vars, weather_vars. simpl app. intros H.
  split_in; vm_compute; reflexivity.
Qed.

Lemma lag_name_inj (X y : string) (n l : nat) :
  In X weather_vars -> In y weather_vars ->
  In n lag_periods -> In l lag_periods ->
  String.eqb (lag_name X n) (lag_name y l) = true -> y = X /\ l = n.
Proof.
  intros HX Hy Hn Hl E.
  assert (C : forallb (fun X => forallb (fun n => forallb (fun y =>
                forallb (fun l =>
                  implb (String.eqb (lag_name X n) (lag_name y l))
                        (String.eqb y X && Nat.eqb l n))
                lag_periods) weather_vars) lag_periods) weather_vars = true)
    by (vm_compute; reflexivity).
  rewrite forallb_forall in C. specialize (C X HX).
  rewrite forallb_forall in C. specialize (C n Hn).
  rewrite forallb_forall in C. specialize (C y Hy).
  rewrite forallb_forall in C. specialize (C l Hl).
  rewrite E in C. simpl in C. apply andb_true_iff in C. destruct C as [C1 C2].
  apply String.eqb_eq in C1. apply Nat.eqb_eq in C2. auto.
Qed.

Lemma dengue_lag_name_inj (n l : nat) :
  In n lag_periods -> In l lag_periods ->
  String.eqb (lag_name "DENGUE_CASES" n) (lag_name "DENGUE_CASES" l) = true ->
  l = n.
Proof.
  unfold lag_periods. intros Hn Hl E.
  split_in; vm_compute in E; first [discriminate E | reflexivity].
Qed.

Lemma weather_lag_not_later (X : string) (n : nat) :
  In X weather_vars -> In n lag_periods ->
  mem (lag_name X n) targets_after_weather_lags = false.
Proof.
  unfold weather_vars, lag_periods. intros HX Hn.
  split_in; vm_compute; reflexivity.
Qed.

Lemma dengue_lag_not_later (n : nat) :
  In n lag_periods ->
  mem (lag_name "DENGUE_CASES" n) targets_after_dengue_lags = false.
Proof.
  unfold lag_periods. intros Hn. split_in; vm_compute; reflexivity.
Qed.

Lemma roll_names_apart (X y : string) (w w' : nat) :
  In X weather_vars -> In y weather_vars ->
  In w rolling_windows -> In w' rolling_windows ->
  (y = X /\ w' = w) \/
  (String.eqb (roll_mean_name X w) (roll_mean_name y w') = false /\
   String.eqb (roll_mean_name X w) (roll_std_name y w') = false /\
   String.eqb (roll_std_name X w) (roll_mean_name y w') = false /\
   String.eqb (roll_std_name X w) (roll_std_name y w') = false).
Proof.
  intros HX Hy Hw Hw'.
  assert (C : forallb (fun X => forallb (fun w => forallb (fun y =>
                forallb (fun w' =>
                  (String.eqb y X && Nat.eqb w' w)
                  || (negb (String.eqb (roll_mean_name X w) (roll_mean_name y w'))
                      && negb (String.eqb (roll_mean_name X w) (roll_std_name y w'))
                      && negb (String.eqb (roll_std_name X w) (roll_mean_name y w'))
                      && negb (String.eqb (roll_std_name X w) (roll_std_name y w'))))
                rolling_windows) weather_vars) rolling_windows) weather_vars
              = true)
    by (vm_compute; reflexivity).
  rewrite forallb_forall in C. specialize (C X HX).
  rewrite forallb_forall in C. specialize (C w Hw).
  rewrite forallb_forall in C. specialize (C y Hy).
  rewrite forallb_forall in C. specialize (C w' Hw').
  apply orb_true_iff in C. destruct C as [C|C].
  - left. apply andb_true_iff in C. destruct C as [C1 C2].
    apply String.eqb_eq in C1. apply Nat.eqb_eq in C2. auto.
  - right. rewrite !andb_true_iff, !negb_true_iff in C. tauto.
Qed.

Lemma roll_mean_std_apart (X : string) (w : nat) :
  In X weather_vars -> In w rolling_windows ->
  String.eqb (roll_mean_name X w) (roll_std_name X w) = false /\
  String.eqb (roll_std_name X w) (roll_mean_name X w) = false.
Proof.
  unfold weather_vars, rolling_windows. intros HX Hw.
  split_in; split; reflexivity.
Qed.

Lemma roll_not_later (X : string) (w : nat) :
  In X weather_vars -> In w rolling_windows ->
  mem (roll_mean_name X w) targets_after_weather_rolling = false /\
  mem (roll_std_name X w) targets_after_weather_rolling = false.
Proof.
  unfold weather_vars, rolling_windows. intros HX Hw.
  split_in; split; vm_compute; reflexivity.
Qed.

Lemma In_rolling_targets (y : string) (w : nat) :
  In y weather_vars -> In w rolling_windows ->
  In (roll_mean_name y w) rolling_targets /\
  In (roll_std_name y w) rolling_targets.
Proof.
  intros Hy Hw. unfold rolling_targets.
  split; apply in_flat_map; exists y; (split; [exact Hy|]);
    apply in_flat_map; exists w; (split; [exact Hw|]); simpl; auto.
Qed.

Lemma base_not_early_target (X : string) :
  In X lagged_vars ->
  mem X lag_targets = false /\ mem X dengue_lag_targets = false /\
  mem X rolling_targets = false.
Proof.
  intros H. apply base_not_target in H. unfold feature_targets, mem in H.
  rewrite !existsb_app in H. rewrite !orb_false_iff in H. tauto.
Qed.

(** ** The feature builder *)

Section Features.

Variable assemble : value -> value -> value -> option Z.
Variable Qsqrt : Q -> Q.
Variables isoweek quarter : Z -> Z.
Variable tie : TieBreak.

Lemma lag_loop_preserves (n var : string) (name : nat -> string) :
  (forall l, In l lag_periods -> String.eqb n (name l) = false) ->
  preserves n (lag_loop var name).
Proof.
  intros H. unfold lag_loop. apply preserves_for_each.
  intros l Hl. apply preserves_assign, H, Hl.
Qed.

Lemma weather_lags_preserves (n : string) :
  mem n lag_targets = false -> preserves n weather_lags.
Proof.
  intros H. unfold weather_lags. apply preserves_for_each. intros v Hv.
  apply (preserves_guard n (has v) (lag_loop v (lag_name v))).
  apply lag_loop_preserves. intros l Hl.
  apply (mem_false n lag_targets); [exact H|].
  unfold lag_targets. apply in_flat_map. exists v. split; [exact Hv|].
  apply in_map, Hl.
Qed.

Lemma dengue_lags_preserves (n : string) :
  mem n dengue_lag_targets = false -> preserves n dengue_lags.
Proof.
  intros H. unfold dengue_lags.
  apply (preserves_guard n (has "DENGUE CASES")
           (lag_loop "DENGUE CASES" (lag_name "DENGUE_CASES"))).
  apply lag_loop_preserves. intros l Hl.
  apply (mem_false n dengue_lag_targets); [exact H|]. apply in_map, Hl.
Qed.

Lemma rolling_pair_preserves (n var : string) (w : nat) :
  String.eqb n (roll_mean_name var w) = false ->
  String.eqb n (roll_std_name var w) = false ->
  preserves n (rolling_pair Qsqrt var w).
Proof.
  intros H1 H2. unfold rolling_pair.
  apply (preserves_seq n
           (assign_from var (roll_mean_name var w) (rolling w mean_of))
           (assign_from var (roll_std_name var w) (rolling w (std_of Qsqrt))));
    apply preserves_assign; assumption.
Qed.

Lemma weather_rolling_preserves (n : string) :
  mem n rolling_targets = false -> preserves n (weather_rolling Qsqrt).
Proof.
  intros H. unfold weather_rolling. apply preserves_for_each. intros v Hv.
  apply (preserves_guard n (has v)
           (for_each rolling_windows (rolling_pair Qsqrt v))).
  apply preserves_for_each. intros w Hw.
  apply rolling_pair_preserves;
    (apply (mem_false n rolling_targets); [exact H|]);
    unfold rolling_targets; apply in_flat_map; exists v;
    (split; [exact Hv|]); apply in_flat_map; exists w;
    (split; [exact Hw|]); simpl; auto.
Qed.

Lemma dengue_rolling_preserves (n : string) :
  mem n dengue_rolling_targets = false -> preserves n dengue_rolling.
Proof.
  intros H. unfold dengue_rolling.
  apply (preserves_guard n (has "DENGUE CASES")
           (for_each rolling_windows
              (fun w => assign_from "DENGUE CASES"
                          (roll_mean_name "DENGUE_CASES" w)
                          (rolling w mean_of)))).
  apply preserves_for_each. intros w Hw. apply preserves_assign.
  apply (mem_false n dengue_rolling_targets); [exact H|]. apply in_map, Hw.
Qed.

Lemma interaction_preserves (n a b tgt : string) (op : Q -> Q -> Q) :
  String.eqb n tgt = false -> preserves n (interaction a b tgt op).
Proof.
  intros E d d' H. unfold interaction in H.
  destruct (has a d && has b d); [|inversion H; reflexivity].
  apply bind_Some in H. destruct H as [x [_ H]].
  apply bind_Some in H. destruct H as [y [_ H]].
  apply bind_Some in H. destruct H as [c [_ H]].
  inversion H. rewrite get_set_col, E. reflexivity.
Qed.

Lemma interactions_preserves (n : string) :
  mem n interaction_targets = false -> preserves n interactions.
Proof.
  intros H d d' Hd. unfold interactions in Hd.
  apply bind_Some in Hd. destruct Hd as [d1 [H1 Hd]].
  apply bind_Some in Hd. destruct Hd as [d2 [H2 H3]].
  rewrite (interaction_preserves n _ _ _ _
             (mem_false n interaction_targets _ H
                (or_intror (or_intror (or_introl eq_refl)))) d2 d' H3).
  rewrite (interaction_preserves n _ _ _ _
             (mem_false n interaction_targets _ H
                (or_intror (or_introl eq_refl))) d1 d2 H2).
  apply (interaction_preserves n _ _ _ _
           (mem_false n interaction_targets _ H (or_introl eq_refl)) d d1 H1).
Qed.

Lemma time_features_preserves (n : string) :
  mem n time_targets = false -> preserves n (time_features isoweek quarter).
Proof.
  intros H d d' Hd. unfold time_features in Hd.
  apply bind_Some in Hd. destruct Hd as [d1 [H1 Hd]].
  apply bind_Some in Hd. destruct Hd as [d2 [H2 H3]].
  rewrite (preserves_assign n _ _ _
             (mem_false n time_targets _ H
                (or_intror (or_intror (or_introl eq_refl)))) d2 d' H3).
  rewrite (preserves_assign n _ _ _
             (mem_false n time_targets _ H
                (or_intror (or_introl eq_refl))) d1 d2 H2).
  apply (preserves_assign n _ _ _
           (mem_false n time_targets _ H (or_introl eq_refl)) d d1 H1).
Qed.

Lemma add_features_inv (d f : DataFrame) :
  add_features Qsqrt isoweek quarter d = Some f ->
  exists d1 d2 d3 d4 d5,
    weather_lags d = Some d1 /\ dengue_lags d1 = Some d2 /\
    weather_rolling Qsqrt d2 = Some d3 /\ dengue_rolling d3 = Some d4 /\
    interactions d4 = Some d5 /\ time_features isoweek quarter d5 = Some f.
Proof.
  unfold add_features. intros H.
  apply bind_Some in H. destruct H as [d1 [H1 H]].
  apply bind_Some in H. destruct H as [d2 [H2 H]].
  apply bind_Some in H. destruct H as [d3 [H3 H]].
  apply bind_Some in H. destruct H as [d4 [H4 H]].
  apply bind_Some in H. destruct H as [d5 [H5 H6]].
  exists d1, d2, d3, d4, d5. auto 10.
Qed.

(** A column no stage assigns comes out of the feature builder as the sort
    left it. *)
Lemma add_features_preserves (n : string) :
  mem n feature_targets = false ->
  preserves n (add_features Qsqrt isoweek quarter).
Proof.
  intros H d f Hf. apply add_features_inv in Hf.
  destruct Hf as [d1 [d2 [d3 [d4 [d5 [H1 [H2 [H3 [H4 [H5 H6]]]]]]]]]].
  unfold feature_targets, mem in H. rewrite !existsb_app in H.
  apply orb_false_iff in H. destruct H as [T1 H].
  apply orb_false_iff in H. destruct H as [T2 H].
  apply orb_false_iff in H. destruct H as [T3 H].
  apply orb_false_iff in H. destruct H as [T4 H].
  apply orb_false_iff in H. destruct H as [T5 T6].
  rewrite (time_features_preserves n T6 d5 f H6).
  rewrite (interactions_preserves n T5 d4 d5 H5).
  rewrite (dengue_rolling_preserves n T4 d3 d4 H4).
  rewrite (weather_rolling_preserves n T3 d2 d3 H3).
  rewrite (dengue_lags_preserves n T2 d1 d2 H2).
  apply (weather_lags_preserves n T1 d d1 H1).
Qed.

Lemma get_has (n : string) (c : Column) (d : DataFrame) :
  get n d = Some c -> has n d = true.
Proof. unfold has. intros ->. reflexivity. Qed.

(** *** Lag columns *)

Lemma lag_loop_establish (var : string) (name : nat -> string) (n : nat)
  (xs : Column) :
  In n lag_periods ->
  (forall l, In l lag_periods -> String.eqb var (name l) = false) ->
  (forall l, In l lag_periods -> String.eqb (name n) (name l) = true -> l = n) ->
  triple (fun d => get var d = Some xs) (lag_loop var name)
         (fun d => get var d = Some xs /\ get (name n) d = Some (shift n xs)).
Proof.
  intros Hn Hsrc Hinj. unfold lag_loop.
  apply for_each_establish with (x := n); [exact Hn| | |].
  - intros l Hl d d' Hd H.
    rewrite (preserves_assign var _ _ _ (Hsrc l Hl) d d' H). exact Hd.
  - intros d d' Hd H. apply assign_from_inv in H.
    destruct H as [c [c' [G [F ->]]]]. rewrite Hd in G.
    inversion G; subst c. inversion F; subst c'.
    rewrite get_set_col, String.eqb_refl. reflexivity.
  - intros l Hl d d' [Hd Qd] H. apply assign_from_inv in H.
    destruct H as [c [c' [G [F ->]]]]. rewrite Hd in G.
    inversion G; subst c. inversion F; subst c'.
    rewrite get_set_col. destruct (String.eqb (name n) (name l)) eqn:E.
    + rewrite (Hinj l Hl E). reflexivity.
    + exact Qd.
Qed.

Lemma In_lag_targets (y : string) (l : nat) :
  In y weather_vars -> In l lag_periods -> In (lag_name y l) lag_targets.
Proof.
  intros Hy Hl. unfold lag_targets. apply in_flat_map. exists y.
  split; [exact Hy|]. apply in_map, Hl.
Qed.

Lemma base_not_lag_target (X : string) :
  In X lagged_vars -> mem X lag_targets = false.
Proof.
  intros H. apply base_not_target in H. unfold feature_targets, mem in H.
  rewrite existsb_app in H. apply orb_false_iff in H. tauto.
Qed.

Lemma weather_is_lagged (X : string) : In X weather_vars -> In X lagged_vars.
Proof. intros H. unfold lagged_vars. apply in_or_app. left. exact H. Qed.

Lemma weather_lags_establish (X : string) (n : nat) (xs : Column) :
  In X weather_vars -> In n lag_periods ->
  triple (fun d => get X d = Some xs) weather_lags
         (fun d => get X d = Some xs /\
                   get (lag_name X n) d = Some (shift n xs)).
Proof.
  intros HX Hn. unfold weather_lags.
  pose proof (base_not_lag_target X (weather_is_lagged X HX)) as Hbase.
  assert (Hsrc : forall y l, In y weather_vars -> In l lag_periods ->
                   String.eqb X (lag_name y l) = false).
  { intros y l Hy Hl. apply (mem_false X lag_targets); [exact Hbase|].
    apply In_lag_targets; assumption. }
  assert (Hhit : triple (fun d => get X d = Some xs)
                   (lag_loop X (lag_name X))
                   (fun d => get X d = Some xs /\
                             get (lag_name X n) d = Some (shift n xs))).
  { apply lag_loop_establish; [exact Hn| |].
    - intros l Hl. apply Hsrc; assumption.
    - intros l Hl E. apply (lag_name_inj X X n l HX HX Hn Hl E). }
  apply for_each_establish with (x := X); [exact HX| | |].
  - intros y Hy d d' Hd H.
    rewrite (preserves_guard X (has y) (lag_loop y (lag_name y))
               (lag_loop_preserves X y (lag_name y)
                  (fun l Hl => Hsrc y l Hy Hl)) d d' H).
    exact Hd.
  - intros d d' Hd H. rewrite (get_has _ _ _ Hd) in H.
    apply (Hhit d d' Hd H).
  - intros y Hy d d' [Hd Qd] H.
    destruct (has y d) eqn:Eh; [|apply Some_inj in H; subst; exact Qd].
    destruct (String.eqb y X) eqn:Eyx.
    + apply String.eqb_eq in Eyx. subst y. apply (Hhit d d' Hd H).
    + rewrite (lag_loop_preserves (lag_name X n) y (lag_name y)) with (d := d)
        by (first [exact H | intros l Hl;
            destruct (String.eqb (lag_name X n) (lag_name y l)) eqn:E;
            [|reflexivity];
            destruct (lag_name_inj X y n l HX Hy Hn Hl E) as [-> _];
            rewrite String.eqb_refl in Eyx; discriminate]).
      exact Qd.
Qed.

Lemma dengue_lags_establish (n : nat) (xs : Column) :
  In n lag_periods ->
  triple (fun d => get "DENGUE CASES" d = Some xs) dengue_lags
         (fun d => get "DENGUE CASES" d = Some xs /\
                   get (lag_name "DENGUE_CASES" n) d = Some (shift n xs)).
Proof.
  intros Hn d d' Hd H. unfold dengue_lags in H.
  rewrite (get_has _ _ _ Hd) in H. revert d d' Hd H.
  apply lag_loop_establish; [exact Hn| |].
  - unfold lag_periods. intros l Hl. split_in; reflexivity.
  - intros l Hl E. apply (dengue_lag_name_inj n l Hn Hl E).
Qed.

Lemma shift_length (n : nat) (c : Column) : length (shift n c) = length c.
Proof.
  unfold shift. rewrite length_firstn, length_app, repeat_length. lia.
Qed.

Lemma nth_shift (n i : nat) (c : Column) :
  (i < length c)%nat ->
  nth i (shift n c) NA = if (i <? n)%nat then NA else nth (i - n) c NA.
Proof.
  intros H. unfold shift. rewrite nth_firstn.
  destruct (i <? length c)%nat eqn:E; [|apply Nat.ltb_ge in E; lia].
  destruct (i <? n)%nat eqn:En.
  - apply Nat.ltb_lt in En. rewrite app_nth1 by (rewrite repeat_length; exact En).
    apply nth_repeat.
  - apply Nat.ltb_ge in En. rewrite app_nth2 by (rewrite repeat_length; exact En).
    rewrite repeat_length. reflexivity.
Qed.

Lemma after_weather_rolling (n : string) (d3 d4 d5 f : DataFrame) :
  dengue_rolling d3 = Some d4 -> interactions d4 = Some d5 ->
  time_features isoweek quarter d5 = Some f ->
  mem n targets_after_weather_rolling = false ->
  get n f = get n d3.
Proof.
  intros H4 H5 H6 H. unfold targets_after_weather_rolling, mem in H.
  rewrite !existsb_app in H.
  apply orb_false_iff in H. destruct H as [T4 H].
  apply orb_false_iff in H. destruct H as [T5 T6].
  rewrite (time_features_preserves n T6 d5 f H6).
  rewrite (interactions_preserves n T5 d4 d5 H5).
  apply (dengue_rolling_preserves n T4 d3 d4 H4).
Qed.

Lemma after_dengue_lags (n : string) (d2 d3 d4 d5 f : DataFrame) :
  weather_rolling Qsqrt d2 = Some d3 ->
  dengue_rolling d3 = Some d4 -> interactions d4 = Some d5 ->
  time_features isoweek quarter d5 = Some f ->
  mem n targets_after_dengue_lags = false ->
  get n f = get n d2.
Proof.
  intros H3 H4 H5 H6 H. unfold targets_after_dengue_lags, mem in H.
  rewrite existsb_app in H. apply orb_false_iff in H. destruct H as [T3 H].
  rewrite (after_weather_rolling n d3 d4 d5 f H4 H5 H6 H).
  apply (weather_rolling_preserves n T3 d2 d3 H3).
Qed.

Lemma after_weather_lags (n : string) (d1 d2 d3 d4 d5 f : DataFrame) :
  dengue_lags d1 = Some d2 ->
  weather_rolling Qsqrt d2 = Some d3 ->
  dengue_rolling d3 = Some d4 -> interactions d4 = Some d5 ->
  time_features isoweek quarter d5 = Some f ->
  mem n targets_after_weather_lags = false ->
  get n f = get n d1.
Proof.
  intros H2 H3 H4 H5 H6 H. unfold targets_after_weather_lags, mem in H.
  rewrite existsb_app in H. apply orb_false_iff in H. destruct H as [T2 H].
  rewrite (after_dengue_lags n d2 d3 d4 d5 f H3 H4 H5 H6 H).
  apply (dengue_lags_preserves n T2 d1 d2 H2).
Qed.

Lemma create_lag_features_inv (d f : DataFrame) :
  create_lag_features Qsqrt isoweek quarter tie d = Some f ->
  exists s, sort_values tie "DATE" d = Some s /\
            add_features Qsqrt isoweek quarter s = Some f.
Proof. unfold create_lag_features. apply bind_Some. Qed.

(** C4. In DATE-sorted order, the lag column of a variable for lag [n]
    holds at row [i] the value of the variable at row [i - n] when
    [i >= n], and is missing when [i < n]. *)
Theorem lag_column_spec (d s f : DataFrame) (X : string) (n : nat)
  (xs : Column) :
  In X lagged_vars -> In n lag_periods ->
  sort_values tie "DATE" d = Some s ->
  get X s = Some xs ->
  create_lag_features Qsqrt isoweek quarter tie d = Some f ->
  exists ys,
    get (lag_column X n) f = Some ys /\
    length ys = length xs /\
    forall i, (i < length xs)%nat ->
      nth i ys NA = if (i <? n)%nat then NA else nth (i - n) xs NA.
Proof.
  intros HX Hn Hs G Hf.
  apply create_lag_features_inv in Hf. destruct Hf as [s' [Hs' Hf]].
  rewrite Hs in Hs'. apply Some_inj in Hs'. subst s'.
  apply add_features_inv in Hf.
  destruct Hf as [d1 [d2 [d3 [d4 [d5 [H1 [H2 [H3 [H4 [H5 H6]]]]]]]]]].
  exists (shift n xs). split; [|split; [apply shift_length|]].
  2:{ intros i Hi. apply nth_shift, Hi. }
  unfold lagged_vars in HX. apply in_app_or in HX. destruct HX as [HX|HX].
  - assert (E : lag_column X n = lag_name X n).
    { unfold lag_column, weather_vars in *. split_in; reflexivity. }
    rewrite E.
    rewrite (after_weather_lags _ d1 d2 d3 d4 d5 f H2 H3 H4 H5 H6
               (weather_lag_not_later X n HX Hn)).
    apply (weather_lags_establish X n xs HX Hn s d1 G H1).
  - destruct HX as [<-|[]]. change (lag_column "DENGUE CASES" n)
      with (lag_name "DENGUE_CASES" n).
    rewrite (after_dengue_lags _ d2 d3 d4 d5 f H3 H4 H5 H6
               (dengue_lag_not_later n Hn)).
    apply (dengue_lags_establish n xs Hn d1 d2); [|exact H2].
    rewrite (weather_lags_preserves "DENGUE CASES" eq_refl s d1 H1). exact G.
Qed.

(** *** Rolling statistics *)

Lemma rolling_inv (w : nat) (agg : list Q -> value) (c c' : Column) :
  rolling w agg c = Some c' ->
  is_numeric_dtype c = true /\ c' = rolling_values w agg c.
Proof.
  unfold rolling. destruct (is_numeric_dtype c); [|discriminate].
  intros H. apply Some_inj in H. auto.
Qed.

(** What the loop over the weather variables leaves for variable [X] and
    window [w]. *)
Lemma weather_rolling_establish (X : string) (w : nat) (xs : Column) :
  In X weather_vars -> In w rolling_windows ->
  triple (fun d => get X d = Some xs) (weather_rolling Qsqrt)
         (fun d => get X d = Some xs /\ rolled Qsqrt X w xs d).
Proof.
  intros HX Hw. unfold weather_rolling.
  destruct (base_not_early_target X (weather_is_lagged X HX)) as [_ [_ Hbase]].
  assert (Hsrc : forall y w', In y weather_vars -> In w' rolling_windows ->
            String.eqb X (roll_mean_name y w') = false /\
            String.eqb X (roll_std_name y w') = false).
  { intros y w' Hy Hw'. destruct (In_rolling_targets y w' Hy Hw') as [A B].
    split; apply (mem_false X rolling_targets); assumption. }
  assert (Hinv : forall y w', In y weather_vars -> In w' rolling_windows ->
            triple (fun d => get X d = Some xs) (rolling_pair Qsqrt y w')
                   (fun d => get X d = Some xs)).
  { intros y w' Hy Hw' d d' Hd H. destruct (Hsrc y w' Hy Hw') as [A B].
    rewrite (rolling_pair_preserves X y w' A B d d' H). exact Hd. }
  assert (Hhit : triple (fun d => get X d = Some xs) (rolling_pair Qsqrt X w)
                        (rolled Qsqrt X w xs)).
  { intros d d' Hd H. unfold rolling_pair in H.
    apply bind_Some in H. destruct H as [e [Ha Hb]].
    destruct (Hsrc X w HX Hw) as [A B].
    destruct (roll_mean_std_apart X w HX Hw) as [C _].
    pose proof (preserves_assign X _ _ _ A d e Ha) as Ge. rewrite Hd in Ge.
    apply assign_from_inv in Ha. destruct Ha as [c [m [G [F ->]]]].
    rewrite Hd in G. apply Some_inj in G. subst c.
    apply rolling_inv in F. destruct F as [N ->].
    apply assign_from_inv in Hb. destruct Hb as [c [sd [G [F ->]]]].
    rewrite Ge in G. apply Some_inj in G. subst c.
    apply rolling_inv in F. destruct F as [_ ->].
    unfold rolled. rewrite !get_set_col, C, !String.eqb_refl. auto. }
  assert (Hkeep : forall y w', In y weather_vars -> In w' rolling_windows ->
            triple (fun d => get X d = Some xs /\ rolled Qsqrt X w xs d)
                   (rolling_pair Qsqrt y w') (rolled Qsqrt X w xs)).
  { intros y w' Hy Hw' d d' [Hd [N [Qm Qs]]] H.
    destruct (roll_names_apart X y w w' HX Hy Hw Hw')
      as [[-> ->]|[A [B [C D]]]].
    - apply (Hhit d d' Hd H).
    - unfold rolled. rewrite (rolling_pair_preserves _ y w' A B d d' H).
      rewrite (rolling_pair_preserves _ y w' C D d d' H). auto. }
  apply for_each_establish with (x := X); [exact HX| | |].
  - intros y Hy d d' Hd H.
    destruct (has y d); [|apply Some_inj in H; subst; exact Hd].
    revert d d' Hd H. apply for_each_triple. intros w' Hw'.
    apply Hinv; assumption.
  - intros d d' Hd H. rewrite (get_has _ _ _ Hd) in H.
    apply (for_each_establish rolling_windows w (rolling_pair Qsqrt X)
             (fun d => get X d = Some xs) _ Hw
             (fun w' Hw' => Hinv X w' HX Hw') Hhit
             (fun w' Hw' => Hkeep X w' HX Hw') d d' Hd H).
  - intros y Hy d d' HQ H.
    destruct (has y d); [|apply Some_inj in H; subst; apply HQ].
    assert (T : triple
              (fun d => get X d = Some xs /\ rolled Qsqrt X w xs d)
              (for_each rolling_windows (rolling_pair Qsqrt y))
              (fun d => get X d = Some xs /\ rolled Qsqrt X w xs d)).
    { apply for_each_triple. intros w' Hw' e e' He Hs. split.
      - apply (Hinv y w' Hy Hw' e e' (proj1 He) Hs).
      - apply (Hkeep y w' Hy Hw' e e' He Hs). }
    apply (T d d' HQ H).
Qed.

(** The rolling columns of a weather variable, as the job writes them. *)
Lemma rolling_columns (d s f : DataFrame) (X : string) (w : nat)
  (xs : Column) :
  In X weather_vars -> In w rolling_windows ->
  sort_values tie "DATE" d = Some s ->
  get X s = Some xs ->
  create_lag_features Qsqrt isoweek quarter tie d = Some f ->
  rolled Qsqrt X w xs f.
Proof.
  intros HX Hw Hs G Hf.
  apply create_lag_features_inv in Hf. destruct Hf as [s' [Hs' Hf]].
  rewrite Hs in Hs'. apply Some_inj in Hs'. subst s'.
  apply add_features_inv in Hf.
  destruct Hf as [d1 [d2 [d3 [d4 [d5 [H1 [H2 [H3 [H4 [H5 H6]]]]]]]]]].
  destruct (base_not_early_target X (weather_is_lagged X HX)) as [B1 [B2 _]].
  assert (G2 : get X d2 = Some xs).
  { rewrite (dengue_lags_preserves X B2 d1 d2 H2).
    rewrite (weather_lags_preserves X B1 s d1 H1). exact G. }
  destruct (weather_rolling_establish X w xs HX Hw d2 d3 G2 H3)
    as [_ [N [Qm Qs]]].
  destruct (roll_not_later X w HX Hw) as [L1 L2].
  unfold rolled.
  rewrite (after_weather_rolling _ d3 d4 d5 f H4 H5 H6 L1).
  rewrite (after_weather_rolling _ d3 d4 d5 f H4 H5 H6 L2). auto.
Qed.

Lemma std_of_single (c : Column) :
  (length c <= 1)%nat -> std_of Qsqrt (observations c) = NA.
Proof.
  destruct c as [|v [|u rest]]; simpl; intros H; [reflexivity| |lia].
  destruct v; reflexivity.
Qed.

(** C10. For a cleaned frame with at least one row and a weather variable
    [X] in it, the columns [X_ROLL_STD_7D] and [X_ROLL_STD_14D] are missing
    at row 0: the window holds a single observation, and the sample
    standard deviation of one observation is undefined. *)
Theorem rolling_std_first_row (raw d f : DataFrame) (X : string) (w : nat)
  (xs : Column) :
  clean_data assemble tie raw = Some d ->
  create_lag_features Qsqrt isoweek quarter tie d = Some f ->
  In X weather_vars -> In w rolling_windows ->
  get X d = Some xs ->
  (0 < length xs)%nat ->
  exists ys,
    get (roll_std_name X w) f = Some ys /\
    length ys = length xs /\
    nth 0 ys NA = NA.
Proof.
  intros Hc Hf HX Hw G Hlen.
  pose proof Hf as Hf'. apply create_lag_features_inv in Hf'.
  destruct Hf' as [s [Hs _]].
  destruct (cleaned_sorted_column assemble tie raw d s X xs Hc Hs G)
    as [idx [Gs P]].
  destruct (rolling_columns d s f X w (take idx xs) HX Hw Hs Gs Hf)
    as [_ [_ Qs]].
  assert (Len : length (take idx xs) = length xs)
    by apply (Permutation_length P).
  exists (rolling_values w (std_of Qsqrt) (take idx xs)).
  split; [exact Qs|]. split; [rewrite rolling_values_length; exact Len|].
  rewrite nth_rolling_values by (rewrite Len; exact Hlen).
  apply std_of_single. unfold window_at.
  rewrite length_skipn, length_firstn. lia.
Qed.

(** *** Row count *)

Lemma all_len_set_col (N : nat) (n : string) (c : Column) (d : DataFrame) :
  all_len N d -> length c = N -> all_len N (set_col n c d).
Proof.
  intros L Hc. induction L as [|[k c0] rest Hk Hr IH]; simpl.
  - repeat constructor. exact Hc.
  - destruct (String.eqb n k); constructor; auto.
Qed.

Lemma assign_all_len (N : nat) (src tgt : string)
  (f : Column -> option Column) :
  (forall c c', f c = Some c' -> length c' = length c) ->
  triple (all_len N) (assign_from src tgt f) (all_len N).
Proof.
  intros Hf d d' L H. apply assign_from_inv in H.
  destruct H as [c [c' [G [F ->]]]]. apply all_len_set_col; [exact L|].
  rewrite (Hf c c' F). apply (all_len_get N src c d L G).
Qed.

Lemma sort_values_all_len (N : nat) (by_ : string) (d d' : DataFrame) :
  all_len N d -> sort_values tie by_ d = Some d' -> all_len N d'.
Proof.
  intros L H. apply sort_values_inv in H. destruct H as [dates [G ->]].
  pose proof (all_len_get N by_ dates d L G) as Hd.
  unfold all_len in *. apply Forall_map. eapply Forall_impl; [|exact L].
  intros [n c] _. simpl. rewrite take_length, argsort_length, length_map.
  exact Hd.
Qed.

Lemma set_col_nonempty (n : string) (c : Column) (d : DataFrame) :
  set_col n c d <> [].
Proof.
  destruct d as [|[k c0] rest]; simpl; [discriminate|].
  destruct (String.eqb n k); discriminate.
Qed.

Lemma arith_length (op : Q -> Q -> Q) (a b c : Column) :
  arith op a b = Some c -> length c = Nat.min (length a) (length b).
Proof.
  revert b c. induction a as [|x a' IH]; intros b c H; simpl in H.
  - apply Some_inj in H. subst. reflexivity.
  - destruct b as [|y b']; [apply Some_inj in H; subst; reflexivity|].
    apply bind_Some in H. destruct H as [r [Hr H]].
    apply IH in Hr. simpl. rewrite <- Hr.
    destruct x, y; try discriminate; apply Some_inj in H; subst; reflexivity.
Qed.

Lemma lag_loop_all_len (N : nat) (var : string) (name : nat -> string) :
  triple (all_len N) (lag_loop var name) (all_len N).
Proof.
  unfold lag_loop. apply for_each_triple. intros l _.
  apply assign_all_len. intros c c' H. apply Some_inj in H. subst.
  apply shift_length.
Qed.

Lemma rolling_length (w : nat) (agg : list Q -> value) (c c' : Column) :
  rolling w agg c = Some c' -> length c' = length c.
Proof.
  intros H. apply rolling_inv in H. destruct H as [_ ->].
  apply rolling_values_length.
Qed.

Lemma interaction_all_len (N : nat) (a b tgt : string) (op : Q -> Q -> Q) :
  triple (all_len N) (interaction a b tgt op) (all_len N).
Proof.
  intros d d' L H. unfold interaction in H.
  destruct (has a d && has b d); [|apply Some_inj in H; subst; exact L].
  apply bind_Some in H. destruct H as [x [Gx H]].
  apply bind_Some in H. destruct H as [y [Gy H]].
  apply bind_Some in H. destruct H as [c [Hc H]].
  apply Some_inj in H. subst d'. apply all_len_set_col; [exact L|].
  rewrite (arith_length _ _ _ _ Hc).
  rewrite (all_len_get N a x d L Gx), (all_len_get N b y d L Gy).
  apply Nat.min_id.
Qed.

Lemma weather_lags_all_len (N : nat) :
  triple (all_len N) weather_lags (all_len N).
Proof.
  unfold weather_lags. apply for_each_triple. intros v _ e e' Le He.
  destruct (has v e); [|apply Some_inj in He; subst; exact Le].
  apply (lag_loop_all_len N _ _ e e' Le He).
Qed.

Lemma dengue_lags_all_len (N : nat) :
  triple (all_len N) dengue_lags (all_len N).
Proof.
  intros d d' L H. unfold dengue_lags in H.
  destruct (has _ d); [|apply Some_inj in H; subst; exact L].
  apply (lag_loop_all_len N _ _ d d' L H).
Qed.

Lemma weather_rolling_all_len (N : nat) :
  triple (all_len N) (weather_rolling Qsqrt) (all_len N).
Proof.
  unfold weather_rolling. apply for_each_triple. intros v _ e e' Le He.
  destruct (has v e); [|apply Some_inj in He; subst; exact Le].
  revert e e' Le He. apply for_each_triple. intros w _ e e' Le He.
  unfold rolling_pair in He. apply bind_Some in He.
  destruct He as [e1 [Ha Hb]].
  pose proof (assign_all_len N _ _ _ (rolling_length w mean_of) e e1 Le Ha)
    as L1.
  apply (assign_all_len N _ _ _ (rolling_length w (std_of Qsqrt)) e1 e' L1 Hb).
Qed.

Lemma dengue_rolling_all_len (N : nat) :
  triple (all_len N) dengue_rolling (all_len N).
Proof.
  intros d d' L H. unfold dengue_rolling in H.
  destruct (has _ d); [|apply Some_inj in H; subst; exact L].
  revert d d' L H. apply for_each_triple. intros w _.
  apply assign_all_len, rolling_length.
Qed.

Lemma interactions_all_len (N : nat) :
  triple (all_len N) interactions (all_len N).
Proof.
  intros d d' L H. unfold interactions in H.
  apply bind_Some in H. destruct H as [e1 [Ha H]].
  apply bind_Some in H. destruct H as [e2 [Hb Hc]].
  pose proof (interaction_all_len N _ _ _ _ d e1 L Ha) as L1.
  pose proof (interaction_all_len N _ _ _ _ e1 e2 L1 Hb) as L2.
  apply (interaction_all_len N _ _ _ _ e2 d' L2 Hc).
Qed.

Lemma time_features_all_len (N : nat) :
  triple (all_len N) (time_features isoweek quarter) (all_len N).
Proof.
  intros d d' L H. unfold time_features in H.
  apply bind_Some in H. destruct H as [e1 [Ha H]].
  apply bind_Some in H. destruct H as [e2 [Hb Hc]].
  assert (M : forall (g : value -> value) (c c' : Column),
                Some (map g c) = Some c' -> length c' = length c).
  { intros g c c' E. apply Some_inj in E. subst. apply length_map. }
  assert (T : forall (g : Z -> Z) (c c' : Column),
                dt_accessor (dt_map g) c = Some c' -> length c' = length c).
  { intros g c c' E. apply dt_accessor_inv in E. destruct E as [_ ->].
    apply length_map. }
  pose proof (assign_all_len N _ _ _ (T _) d e1 L Ha) as L1.
  pose proof (assign_all_len N _ _ _ (T _) e1 e2 L1 Hb) as L2.
  apply (assign_all_len N _ _ _ (M _) e2 d' L2 Hc).
Qed.

Lemma add_features_all_len (N : nat) :
  triple (all_len N) (add_features Qsqrt isoweek quarter) (all_len N).
Proof.
  intros d f L Hf. apply add_features_inv in Hf.
  destruct Hf as [d1 [d2 [d3 [d4 [d5 [H1 [H2 [H3 [H4 [H5 H6]]]]]]]]]].
  pose proof (weather_lags_all_len N d d1 L H1) as L1.
  pose proof (dengue_lags_all_len N d1 d2 L1 H2) as L2.
  pose proof (weather_rolling_all_len N d2 d3 L2 H3) as L3.
  pose proof (dengue_rolling_all_len N d3 d4 L3 H4) as L4.
  pose proof (interactions_all_len N d4 d5 L4 H5) as L5.
  apply (time_features_all_len N d5 f L5 H6).
Qed.

Lemma create_lag_features_rows (d f : DataFrame) :
  rectangular d ->
  create_lag_features Qsqrt isoweek quarter tie d = Some f ->
  rectangular f /\ nrows f = nrows d.
Proof.
  intros R Hf. pose proof Hf as Hf'.
  apply create_lag_features_inv in Hf. destruct Hf as [s [Hs Ha]].
  apply rectangular_all_len in R.
  pose proof (sort_values_all_len _ _ _ _ R Hs) as Ls.
  pose proof (add_features_all_len _ s f Ls Ha) as Lf.
  apply all_len_rectangular; [|exact Lf].
  apply add_features_inv in Ha.
  destruct Ha as [d1 [d2 [d3 [d4 [d5 [_ [_ [_ [_ [_ H6]]]]]]]]]].
  unfold time_features in H6.
  apply bind_Some in H6. destruct H6 as [e1 [_ H6]].
  apply bind_Some in H6. destruct H6 as [e2 [_ Hc]].
  apply assign_from_inv in Hc. destruct Hc as [c [c' [_ [_ ->]]]].
  apply set_col_nonempty.
Qed.

(** C8. Neither transformation stage deletes a row: the frame the cleaner
    writes and the frame the feature builder writes have exactly as many
    rows as the frame each of them read, in every column. *)
Theorem no_row_deleted :
  (forall raw d : DataFrame,
      rectangular raw ->
      clean_data assemble tie raw = Some d ->
      rectangular d /\ nrows d = nrows raw)
  /\
  (forall d f : DataFrame,
      rectangular d ->
      create_lag_features Qsqrt isoweek quarter tie d = Some f ->
      rectangular f /\ nrows f = nrows d).
Proof.
  split.
  - intros raw d R H. apply (clean_data_rows assemble tie raw d R H).
  - intros d f R H. apply (create_lag_features_rows d f R H).
Qed.

End Features.

(** ** The report generator *)

Lemma columns_set_col (n : string) (c : Column) (df : DataFrame) :
  columns (set_col n c df)
  = if has n df then columns df else columns df ++ [n].
Proof.
  unfold columns, has. induction df as [|[k c0] rest IH]; simpl; [reflexivity|].
  destruct (String.eqb n k) eqn:E; simpl; [reflexivity|].
  rewrite IH. destruct (get n rest); reflexivity.
Qed.

(** C1. The selection does not hold the limit its own comment announces
    ([# Limit to top 20 features for readability]): the priority columns
    are all kept and only the others are cut.  On the frame the feature
    builder writes for a three-day sample with all six variables, 50
    numeric columns are eligible, 35 of them have priority, and the
    correlation matrix is computed over 35 columns. *)
Lemma corr_columns_exceed_20 :
  length (eligible_cols sample_features) = 50%nat /\
  length (priority_cols sample_features) = 35%nat /\
  length (corr_columns sample_features) = 35%nat.
Proof. vm_compute. repeat split. Qed.

Section Report.

Variable month_period : Z -> Z.

Lemma generate_eda_inv (df : DataFrame) (r : eda_run) :
  generate_eda month_period df = Some r ->
  exists dates,
    get "DATE" df = Some dates /\
    final_df r = set_col "YEAR_MONTH" (to_period month_period dates) df /\
    corr_cols r = corr_columns df.
Proof.
  unfold generate_eda. intros H.
  apply bind_Some in H. destruct H as [_ [_ H]].
  apply bind_Some in H. destruct H as [d' [Ha H]].
  apply Some_inj in H. subst r. simpl.
  apply assign_from_inv in Ha. destruct Ha as [c [c' [G [F ->]]]].
  apply dt_accessor_inv in F. destruct F as [_ ->]. exists c. auto.
Qed.

(** C9, as the code has it. A run of the report generator leaves every
    column of the frame it read, other than YEAR_MONTH, with its name,
    position and values; it adds a column YEAR_MONTH, the month period of
    DATE, at the end of the frame (or overwrites the column of that name). *)
Theorem generate_eda_frame (df : DataFrame) (r : eda_run) :
  generate_eda month_period df = Some r ->
  (forall n, n <> "YEAR_MONTH" -> get n (final_df r) = get n df) /\
  columns (final_df r)
  = (if has "YEAR_MONTH" df then columns df
     else columns df ++ ["YEAR_MONTH"]) /\
  exists dates,
    get "DATE" df = Some dates /\
    get "YEAR_MONTH" (final_df r) = Some (to_period month_period dates).
Proof.
  intros H. apply generate_eda_inv in H.
  destruct H as [dates [G [-> _]]]. split; [|split].
  - intros n Hn. rewrite get_set_col.
    destruct (String.eqb n "YEAR_MONTH") eqn:E; [|reflexivity].
    apply String.eqb_eq in E. contradiction.
  - apply columns_set_col.
  - exists dates. split; [exact G|]. rewrite get_set_col. reflexivity.
Qed.

End Report.

(** C9 as stated fails: run on the frame the feature builder writes for a
    three-day sample, the report generator ends with one column more than
    it read. *)
Lemma generate_eda_adds_column :
  exists r,
    generate_eda ymd_month sample_features = Some r /\
    columns (final_df r) = columns sample_features ++ ["YEAR_MONTH"] /\
    columns (final_df r) <> columns sample_features.
Proof.
  eexists. split; [reflexivity|]. split; [reflexivity|].
  intros H. apply (f_equal (@length string)) in H. vm_compute in H.
  discriminate H.
Qed.

(** ** The theorems at work on the sample frames *)



Lemma clean_data_no_negative_witness :
  clean_data ymd_assemble stable_order tmax_raw = Some tmax_clean /\
  In ("TMAX", int_col [30; 28; 0; 32]%Z) tmax_clean /\
  Forall nonneg_cell (int_col [30; 28; 0; 32]%Z).
Proof.
  assert (Hin : In ("TMAX", int_col [30; 28; 0; 32]%Z) tmax_clean).
  { do 4 right. left. reflexivity. }
  split; [reflexivity|]. split; [exact Hin|].
  apply (proj1 (clean_data_no_negative ymd_assemble stable_order)
           tmax_raw tmax_clean "TMAX" _ eq_refl Hin eq_refl).
  simpl. intros [H|[H|[H|H]]]; try discriminate H. exact H.
Defined.

Lemma clean_data_fills_witness :
  date_and_sort ymd_assemble stable_order dengue_raw = Some dengue_sorted /\
  clean_data ymd_assemble stable_order dengue_raw = Some dengue_clean /\
  has "DENGUE CASES" dengue_raw = true /\
  exists xs c,
    get "DENGUE CASES" dengue_sorted = Some xs /\
    get "DENGUE CASES" dengue_clean = Some c /\
    length c = length xs /\
    Forall (fun v => isna v = false) c /\
    forall i, (i < length xs)%nat ->
      let f := zero_if_missing (nearest_preceding xs i) in
      nth i c NA = f \/ nth i c NA = clamp_value f.
Proof.
  split; [reflexivity|]. split; [reflexivity|]. split; [reflexivity|].
  apply (proj2 (proj1 (clean_data_fills ymd_assemble stable_order)
                  dengue_raw dengue_sorted dengue_clean eq_refl eq_refl)
           eq_refl).
Defined.

Lemma clean_data_sorted_witness :
  clean_data ymd_assemble stable_order messy_raw = Some messy_clean /\
  exists dates,
    get "DATE" messy_clean = Some dates /\ StronglySorted date_le dates.
Proof.
  split; [reflexivity|].
  apply (clean_data_sorted ymd_assemble stable_order messy_raw messy_clean eq_refl).
Defined.

Lemma sample_raw_rectangular : rectangular sample_raw.
Proof.
  intros n c H. simpl in H.
  repeat (destruct H as [H|H]; [inversion H; reflexivity|]). destruct H.
Defined.

Lemma sample_clean_rectangular : rectangular sample_clean.
Proof.
  intros n c H. simpl in H.
  repeat (destruct H as [H|H]; [inversion H; reflexivity|]). destruct H.
Defined.

Lemma no_row_deleted_witness :
  (rectangular sample_raw /\
   clean_data ymd_assemble stable_order sample_raw = Some sample_clean /\
   rectangular sample_clean /\ nrows sample_clean = nrows sample_raw)
  /\
  (rectangular sample_clean /\
   create_lag_features Qsqrt_newton ymd_isoweek ymd_quarter stable_order sample_clean
   = Some sample_features /\
   rectangular sample_features /\ nrows sample_features = nrows sample_clean).
Proof.
  split.
  - split; [exact sample_raw_rectangular|]. split; [reflexivity|].
    apply (proj1 (no_row_deleted ymd_assemble Qsqrt_newton ymd_isoweek
                    ymd_quarter stable_order)
             sample_raw sample_clean sample_raw_rectangular eq_refl).
  - split; [exact sample_clean_rectangular|]. split; [reflexivity|].
    apply (proj2 (no_row_deleted ymd_assemble Qsqrt_newton ymd_isoweek
                    ymd_quarter stable_order)
             sample_clean sample_features sample_clean_rectangular eq_refl).
Defined.

Lemma lag_column_spec_witness :
  In "RAINFALL" lagged_vars /\ In 7%nat lag_periods /\
  sort_values stable_order "DATE" rain_clean = Some rain_clean /\
  get "RAINFALL" rain_clean = Some (int_col [0; 5; 0; 0; 10; 0; 0; 0; 0; 20]%Z) /\
  create_lag_features Qsqrt_newton ymd_isoweek ymd_quarter stable_order rain_clean
  = Some rain_features /\
  exists ys,
    get (lag_column "RAINFALL" 7) rain_features = Some ys /\
    length ys = 10%nat /\
    forall i, (i < 10)%nat ->
      nth i ys NA
      = if (i <? 7)%nat then NA
        else nth (i - 7) (int_col [0; 5; 0; 0; 10; 0; 0; 0; 0; 20]%Z) NA.
Proof.
  assert (HX : In "RAINFALL" lagged_vars) by (left; reflexivity).
  assert (Hn : In 7%nat lag_periods) by (left; reflexivity).
  split; [exact HX|]. split; [exact Hn|].
  split; [reflexivity|]. split; [reflexivity|]. split; [reflexivity|].
  apply (lag_column_spec Qsqrt_newton ymd_isoweek ymd_quarter stable_order
           rain_clean rain_clean rain_features "RAINFALL" 7 _
           HX Hn eq_refl eq_refl eq_refl).
Defined.

Lemma rolling_std_first_row_witness :
  clean_data ymd_assemble stable_order sample_raw = Some sample_clean /\
  create_lag_features Qsqrt_newton ymd_isoweek ymd_quarter stable_order sample_clean
  = Some sample_features /\
  In "TMAX" weather_vars /\ In 14%nat rolling_windows /\
  get "TMAX" sample_clean = Some (int_col [33; 34; 32]%Z) /\
  (0 < 3)%nat /\
  exists ys,
    get (roll_std_name "TMAX" 14) sample_features = Some ys /\
    length ys = 3%nat /\
    nth 0 ys NA = NA.
Proof.
  assert (HX : In "TMAX" weather_vars) by (right; left; reflexivity).
  assert (Hw : In 14%nat rolling_windows) by (right; left; reflexivity).
  assert (Hl : (0 < 3)%nat) by (repeat constructor).
  split; [reflexivity|]. split; [reflexivity|].
  split; [exact HX|]. split; [exact Hw|]. split; [reflexivity|].
  split; [exact Hl|].
  apply (rolling_std_first_row ymd_assemble Qsqrt_newton ymd_isoweek
           ymd_quarter stable_order sample_raw sample_clean sample_features "TMAX" 14%nat _
           eq_refl eq_refl HX Hw eq_refl Hl).
Defined.

Lemma generate_eda_frame_witness :
  generate_eda ymd_month sample_features = Some sample_report /\
  (forall n, n <> "YEAR_MONTH" ->
             get n (final_df sample_report) = get n sample_features) /\
  columns (final_df sample_report)
  = (if has "YEAR_MONTH" sample_features then columns sample_features
     else columns sample_features ++ ["YEAR_MONTH"]) /\
  exists dates,
    get "DATE" sample_features = Some dates /\
    get "YEAR_MONTH" (final_df sample_report)
    = Some (to_period ymd_month dates).
Proof.
  split; [reflexivity|].
  apply (generate_eda_frame ymd_month sample_features sample_report eq_refl).
Defined.

(** * Further properties of the three jobs *)

(** ** The cleaner: layout, failure, rows *)

Lemma columns_reorder (order : list string) (df : DataFrame) :
  columns (reorder order df) = filter (fun c => has c df) order.
Proof.
  unfold columns, has. induction order as [|k rest IH]; simpl; [reflexivity|].
  destruct (get k df); simpl; rewrite IH; reflexivity.
Qed.

Lemma has_option_map (f : Column -> Column) (o : option Column) :
  match option_map f o with Some _ => true | None => false end
  = match o with Some _ => true | None => false end.
Proof. destruct o; reflexivity. Qed.

Lemma has_fill_missing (n : string) (df : DataFrame) :
  has n (fill_missing df) = has n df.
Proof. unfold has. rewrite get_fill_missing. apply has_option_map. Qed.

Lemma has_remove_negatives (n : string) (df : DataFrame) :
  has n (remove_negatives df) = has n df.
Proof.
  unfold has. rewrite get_remove_negatives.
  destruct (_ && _); [apply has_option_map|reflexivity].
Qed.

Section CleanerLayout.

Variable assemble : value -> value -> value -> option Z.
Variable tie : TieBreak.

Lemma has_date_and_sort (raw s : DataFrame) (n : string) :
  date_and_sort assemble tie raw = Some s ->
  has n s
  = String.eqb n "DATE"
    || negb (mem n ["WIND_SPEED"; "WIND_DIRECTION"]) && has n raw.
Proof.
  intros H. apply date_and_sort_inv in H.
  destruct H as [dates [idx [_ [_ ->]]]].
  unfold has. rewrite get_map_cols, get_set_col, get_drop_columns.
  destruct (String.eqb n "DATE"); [reflexivity|].
  destruct (mem n ["WIND_SPEED"; "WIND_DIRECTION"]); [reflexivity|].
  destruct (get n raw); reflexivity.
Qed.

(** X1. The cleaned frame has exactly the columns of the canonical layout
    DATE, YEAR, MONTH, DAY, RAINFALL, TMAX, TMIN, Ave. Temp, RH,
    DENGUE CASES that the raw frame has, DATE in any case, in that order;
    the wind columns and every other column are gone. *)
Theorem clean_data_layout (raw d : DataFrame) :
  clean_data assemble tie raw = Some d ->
  columns d = filter (fun c => String.eqb c "DATE" || has c raw) col_order.
Proof.
  intros Hc. apply clean_data_inv in Hc. destruct Hc as [s [Hs ->]].
  rewrite columns_reorder. apply filter_ext_in. intros c Hc.
  rewrite has_remove_negatives, has_fill_missing.
  rewrite (has_date_and_sort raw s c Hs).
  unfold col_order in Hc. split_in; reflexivity.
Qed.

(** What steps 1 and 2 leave in the frame, column by column. *)
Lemma sorted_columns (raw s : DataFrame) :
  date_and_sort assemble tie raw = Some s ->
  exists y m d idx,
    get "YEAR" raw = Some y /\ get "MONTH" raw = Some m /\
    get "DAY" raw = Some d /\
    idx = argsort tie (map date_key (zip3 (date_cell assemble) y m d)) /\
    get "DATE" s = Some (take idx (zip3 (date_cell assemble) y m d)) /\
    forall n, String.eqb n "DATE" = false ->
              mem n ["WIND_SPEED"; "WIND_DIRECTION"] = false ->
              get n s = option_map (take idx) (get n raw).
Proof.
  intros H. apply date_and_sort_inv in H.
  destruct H as [dates [idx [Hdt [Hidx Es]]]]. cbv zeta in Hdt, Es.
  unfold to_datetime in Hdt. rewrite !get_drop_columns in Hdt.
  simpl mem in Hdt. cbv iota in Hdt.
  destruct (get "YEAR" raw) as [y|]; [|discriminate].
  destruct (get "MONTH" raw) as [m|]; [|discriminate].
  destruct (get "DAY" raw) as [d|]; [|discriminate].
  simpl in Hdt. apply Some_inj in Hdt. subst dates.
  exists y, m, d, idx. repeat split; try reflexivity; try exact Hidx.
  - rewrite Es, get_map_cols, get_set_col. reflexivity.
  - intros n Hn Hw. rewrite Es, get_map_cols, get_set_col, Hn.
    rewrite get_drop_columns, Hw. reflexivity.
Qed.

(** The date fields pass through steps 3 to 5 as the sort left them. *)
Lemma cleaned_date_field (s : DataFrame) (n : string) :
  In n date_fields ->
  get n (reorder col_order (remove_negatives (fill_missing s))) = get n s.
Proof.
  intros Hn. rewrite cleaned_get.
  unfold date_fields in Hn. split_in;
    (match goal with
     | |- context [mem ?x date_fields] => change (mem x date_fields) with true
     end; cbn [negb]; rewrite andb_false_r;
     destruct (get _ s); reflexivity).
Qed.

Lemma cleaned_date_column (s : DataFrame) (y m d : Column) (idx : list nat) :
  get "DATE" s = Some (take idx (zip3 (date_cell assemble) y m d)) ->
  get "DATE" (reorder col_order (remove_negatives (fill_missing s)))
  = Some (take idx (zip3 (date_cell assemble) y m d)).
Proof.
  intros G. rewrite cleaned_get, G.
  change (mem "DATE" col_order) with true. cbv iota.
  change (fill_of "DATE") with (fun c : Column => c). cbn [option_map].
  destruct (_ && _); [|reflexivity]. cbn [option_map].
  rewrite clamp_col_fixed by apply take_dates_not_negative. reflexivity.
Qed.

(** X3. In the cleaned frame the DATE of every row is the date assembled
    from the YEAR, MONTH and DAY of that same row: sorting moves whole
    rows, and no later step touches these four columns. *)
Theorem clean_data_dates_consistent (raw d : DataFrame) :
  clean_data assemble tie raw = Some d ->
  exists dates,
    get "DATE" d = Some dates /\ to_datetime assemble d = Some dates.
Proof.
  intros Hc. apply clean_data_inv in Hc. destruct Hc as [s [Hs ->]].
  destruct (sorted_columns raw s Hs)
    as [y [m [d [idx [Gy [Gm [Gd [Hidx [Gt Hrest]]]]]]]]].
  exists (take idx (zip3 (date_cell assemble) y m d)).
  split; [apply cleaned_date_column, Gt|].
  unfold to_datetime.
  rewrite !cleaned_date_field by (unfold date_fields; simpl; auto).
  rewrite !Hrest by reflexivity. rewrite Gy, Gm, Gd. cbn [option_map bind].
  apply f_equal, zip3_take. intros i Hi.
  rewrite Hidx in Hi. apply argsort_bound in Hi.
  rewrite length_map in Hi. exact Hi.
Qed.

(** X4. Cleaning reorders the rows and loses none: the YEAR, MONTH and DAY
    columns of the cleaned frame are the raw columns read through one and
    the same permutation of the row positions, so each is a permutation of
    the raw column. *)
Theorem clean_data_permutes_rows (raw d : DataFrame) :
  rectangular raw ->
  clean_data assemble tie raw = Some d ->
  exists idx,
    Permutation idx (seq 0 (nrows raw)) /\
    forall n c, In n date_fields -> get n raw = Some c ->
      get n d = Some (take idx c) /\ Permutation (take idx c) c.
Proof.
  intros R Hc. apply clean_data_inv in Hc. destruct Hc as [s [Hs ->]].
  destruct (sorted_columns raw s Hs)
    as [y [m [d [idx [Gy [Gm [Gd [Hidx [Gt Hrest]]]]]]]]].
  assert (L : length (zip3 (date_cell assemble) y m d) = nrows raw).
  { rewrite zip3_length.
    apply get_In, R in Gy. apply get_In, R in Gm. apply get_In, R in Gd.
    lia. }
  assert (P : Permutation idx (seq 0 (nrows raw))).
  { rewrite Hidx, <- L, <- (length_map date_key). apply argsort_perm. }
  exists idx. split; [exact P|]. intros n c Hn G. split.
  - rewrite (cleaned_date_field s n Hn).
    rewrite Hrest, G; [reflexivity| |];
      unfold date_fields in Hn; split_in; reflexivity.
  - apply take_perm. apply get_In, R in G. rewrite G. exact P.
Qed.

(** *** Filling forward, then backward *)

Lemma last_cons_default (x d : value) (l : Column) :
  last (x :: l) d = last l x.
Proof.
  revert x d. induction l as [|y l IH]; intros x d; [reflexivity|].
  change (last (x :: y :: l) d) with (last (y :: l) d).
  rewrite IH. symmetry. apply IH.
Qed.

Lemma ffill_from_app (l : value) (a b : Column) :
  ffill_from l (a ++ b)
  = ffill_from l a ++ ffill_from (last (ffill_from l a) l) b.
Proof.
  revert l. induction a as [|v a IH]; intros l; [reflexivity|].
  rewrite <- app_comm_cons, !ffill_from_cons, IH, last_cons_default.
  reflexivity.
Qed.

Lemma hd_rev (l : Column) : hd NA (rev l) = last l NA.
Proof.
  destruct l as [|x l] using rev_ind; [reflexivity|].
  rewrite rev_app_distr, last_last. reflexivity.
Qed.

Lemma bfill_cons (v : value) (rest : Column) :
  bfill (v :: rest)
  = (if isna v then hd NA (bfill rest) else v) :: bfill rest.
Proof.
  unfold bfill, ffill. simpl rev. rewrite ffill_from_app, rev_app_distr.
  rewrite ffill_from_cons. simpl. rewrite hd_rev. reflexivity.
Qed.

Lemma bfill_nth (c : Column) (i : nat) :
  nth i (bfill c) NA = first_valid (skipn i c).
Proof.
  revert i. induction c as [|v rest IH]; intros i.
  - destruct i; reflexivity.
  - rewrite bfill_cons. destruct i as [|j]; [|apply IH].
    simpl. destruct (isna v); [|reflexivity].
    specialize (IH 0%nat). simpl in IH. rewrite <- IH.
    destruct (bfill rest); reflexivity.
Qed.

Lemma first_valid_ffill (c : Column) : first_valid (ffill_from NA c) = first_valid c.
Proof.
  induction c as [|v rest IH]; [reflexivity|].
  rewrite ffill_from_cons. simpl. destruct (isna v) eqn:E.
  - exact IH.
  - rewrite E. reflexivity.
Qed.

Lemma first_valid_after_gap (c : Column) (i : nat) :
  (i < length c)%nat ->
  isna (nth i (ffill_from NA c) NA) = true ->
  first_valid (skipn i (ffill_from NA c)) = first_valid c.
Proof.
  revert i. induction c as [|v rest IH]; intros i Hi H; simpl in Hi; [lia|].
  rewrite ffill_from_cons in *. destruct (isna v) eqn:E.
  - destruct i as [|j].
    + simpl. rewrite E. apply first_valid_ffill.
    + simpl. rewrite E. apply IH; [lia|exact H].
  - exfalso.
    assert (F : Forall (fun u => isna u = false) (v :: ffill_from v rest)).
    { constructor; [exact E|apply ffill_from_notna, E]. }
    rewrite Forall_forall in F.
    rewrite (F (nth i (v :: ffill_from v rest) NA)) in H; [discriminate|].
    apply nth_In. simpl. rewrite ffill_from_length. exact Hi.
Qed.

(** Row by row: a value stays, a gap takes the nearest value before it, and
    a gap before every value takes the first value of the column. *)
Lemma bfill_ffill_nth (xs : Column) (i : nat) :
  (i < length xs)%nat ->
  nth i (bfill (ffill xs)) NA
  = if isna (nearest_preceding xs i) then first_valid xs
    else nearest_preceding xs i.
Proof.
  intros Hi. rewrite bfill_nth.
  pose proof (ffill_nth xs i Hi) as P.
  destruct (isna (nearest_preceding xs i)) eqn:E.
  - apply first_valid_after_gap; [exact Hi|].
    fold (ffill xs). rewrite P. exact E.
  - assert (L : (i < length (ffill xs))%nat).
    { unfold ffill. rewrite ffill_from_length. exact Hi. }
    rewrite <- (firstn_skipn i (ffill xs)) in P.
    rewrite app_nth2 in P by (rewrite length_firstn; lia).
    rewrite length_firstn, Nat.min_l, Nat.sub_diag in P by lia.
    destruct (skipn i (ffill xs)) as [|u rest] eqn:S.
    + simpl in P. rewrite <- P in E. discriminate.
    + simpl in P. subst u. simpl. rewrite E. reflexivity.
Qed.

(** X5. Temperature and humidity columns: row by row of the sorted frame,
    a cleaned cell is the value itself, or for a gap the nearest value
    before it, or before every value the first value of the column (step 4
    then zeroes a negative value of a numeric column); the cleaned column
    has no missing cell, unless the column has no value at all. *)
Theorem clean_data_fills_weather (raw s d : DataFrame) (n : string)
  (xs : Column) :
  date_and_sort assemble tie raw = Some s ->
  clean_data assemble tie raw = Some d ->
  In n temp_humidity_cols ->
  get n s = Some xs ->
  exists c,
    get n d = Some c /\ length c = length xs /\
    (Exists (fun v => isna v = false) xs ->
     Forall (fun v => isna v = false) c) /\
    forall i, (i < length xs)%nat ->
      let p := nearest_preceding xs i in
      let f := if isna p then first_valid xs else p in
      nth i c NA = f \/ nth i c NA = clamp_value f.
Proof.
  intros Hs Hc Hn G. apply clean_data_inv in Hc.
  destruct Hc as [s' [Hs' ->]]. rewrite Hs in Hs'. apply Some_inj in Hs'.
  subst s'.
  assert (Ef : fill_of n xs = bfill (ffill xs)).
  { unfold temp_humidity_cols in Hn. split_in; reflexivity. }
  assert (Hm : mem n col_order = true).
  { unfold temp_humidity_cols in Hn. split_in; reflexivity. }
  assert (Hlen : length (bfill (ffill xs)) = length xs).
  { rewrite bfill_length. apply ffill_from_length. }
  assert (Hfull : Exists (fun v => isna v = false) xs ->
                  Forall (fun v => isna v = false) (bfill (ffill xs))).
  { intros Hex. destruct (bfill_ffill_settled xs) as [F|F]; [exact F|].
    exfalso. destruct (empty_or_some xs) as [A|_].
    - rewrite Exists_exists in Hex. destruct Hex as [v [Hv Nv]].
      rewrite Forall_forall in A. rewrite (A v Hv) in Nv. discriminate.
    - apply Exists_exists in Hex. destruct Hex as [v [Hv Nv]].
      destruct (In_nth xs v NA Hv) as [i [Hi Ei]].
      pose proof (bfill_ffill_nth xs i Hi) as B.
      rewrite Forall_forall in F.
      assert (Hb : isna (nth i (bfill (ffill xs)) NA) = true).
      { apply F, nth_In. rewrite Hlen. exact Hi. }
      rewrite B in Hb.
      assert (Np : isna (nearest_preceding xs i) = false).
      { destruct i as [|j]; simpl; rewrite Ei.
        - exact Nv.
        - rewrite Nv. exact Nv. }
      rewrite Np in Hb. congruence. }
  destruct (cleaned_column s n xs Hm G) as [E|E]; rewrite Ef in E;
    eexists; (split; [exact E|]).
  - split; [exact Hlen|]. split; [exact Hfull|].
    intros i Hi p f. left. apply bfill_ffill_nth, Hi.
  - split; [rewrite clamp_col_length; exact Hlen|].
    split; [intros Hex; apply clamp_col_isna, Hfull, Hex|].
    intros i Hi p f. right. rewrite nth_clamp_col. f_equal.
    apply bfill_ffill_nth, Hi.
Qed.

End CleanerLayout.

(** ** The feature builder: what it keeps, what it adds *)

Lemma In_feature_targets (x : string) :
  In x lag_targets \/ In x dengue_lag_targets \/ In x rolling_targets \/
  In x dengue_rolling_targets \/ In x interaction_targets \/
  In x time_targets ->
  In x feature_targets.
Proof.
  unfold feature_targets. rewrite !in_app_iff. tauto.
Qed.

Lemma set_col_extends (T base : list string) (n : string) (c : Column)
  (d : DataFrame) :
  In n T -> extends_with T base d -> extends_with T base (set_col n c d).
Proof.
  intros Hn [extra [E H]]. unfold extends_with. rewrite columns_set_col.
  destruct (has n d).
  - exists extra. auto.
  - exists (extra ++ [n]). split; [rewrite E, app_assoc; reflexivity|].
    intros x Hx. apply in_app_or in Hx. destruct Hx as [Hx|[<-|[]]]; auto.
Qed.

Lemma assign_extends (T base : list string) (src tgt : string)
  (f : Column -> option Column) :
  In tgt T ->
  triple (extends_with T base) (assign_from src tgt f) (extends_with T base).
Proof.
  intros Ht d d' E H. apply assign_from_inv in H.
  destruct H as [c [c' [_ [_ ->]]]]. apply set_col_extends; assumption.
Qed.

Lemma interaction_extends (T base : list string) (a b tgt : string)
  (op : Q -> Q -> Q) :
  In tgt T ->
  triple (extends_with T base) (interaction a b tgt op) (extends_with T base).
Proof.
  intros Ht d d' E H. unfold interaction in H.
  destruct (has a d && has b d); [|apply Some_inj in H; subst; exact E].
  apply bind_Some in H. destruct H as [x [_ H]].
  apply bind_Some in H. destruct H as [y [_ H]].
  apply bind_Some in H. destruct H as [c [_ H]].
  apply Some_inj in H. subst d'. apply set_col_extends; assumption.
Qed.

Section FeaturesKept.

Variable assemble : value -> value -> value -> option Z.
Variable Qsqrt : Q -> Q.
Variables isoweek quarter : Z -> Z.
Variable tie : TieBreak.

Lemma add_features_extends (base : list string) :
  triple (extends_with feature_targets base)
         (add_features Qsqrt isoweek quarter)
         (extends_with feature_targets base).
Proof.
  intros d f E Hf. apply add_features_inv in Hf.
  destruct Hf as [d1 [d2 [d3 [d4 [d5 [H1 [H2 [H3 [H4 [H5 H6]]]]]]]]]].
  assert (E1 : extends_with feature_targets base d1).
  { refine (for_each_triple weather_vars _ _ _ d d1 E H1).
    intros v Hv e e' Ee He.
    destruct (has v e); [|apply Some_inj in He; subst; exact Ee].
    refine (for_each_triple lag_periods _ _ _ e e' Ee He).
    intros l Hl. apply assign_extends, In_feature_targets. left.
    apply In_lag_targets; assumption. }
  assert (E2 : extends_with feature_targets base d2).
  { unfold dengue_lags in H2.
    destruct (has _ d1); [|apply Some_inj in H2; subst; exact E1].
    refine (for_each_triple lag_periods _ _ _ d1 d2 E1 H2).
    intros l Hl. apply assign_extends, In_feature_targets. right. left.
    apply in_map, Hl. }
  assert (E3 : extends_with feature_targets base d3).
  { refine (for_each_triple weather_vars _ _ _ d2 d3 E2 H3).
    intros v Hv e e' Ee He.
    destruct (has v e); [|apply Some_inj in He; subst; exact Ee].
    refine (for_each_triple rolling_windows _ _ _ e e' Ee He).
    intros w Hw g g' Eg Hg. unfold rolling_pair in Hg.
    apply bind_Some in Hg. destruct Hg as [g1 [Ha Hb]].
    destruct (In_rolling_targets v w Hv Hw) as [Tm Ts].
    assert (Eg1 : extends_with feature_targets base g1).
    { refine (assign_extends _ _ _ _ _ _ g g1 Eg Ha).
      apply In_feature_targets. auto. }
    refine (assign_extends _ _ _ _ _ _ g1 g' Eg1 Hb).
    apply In_feature_targets. auto. }
  assert (E4 : extends_with feature_targets base d4).
  { unfold dengue_rolling in H4.
    destruct (has _ d3); [|apply Some_inj in H4; subst; exact E3].
    refine (for_each_triple rolling_windows _ _ _ d3 d4 E3 H4).
    intros w Hw. apply assign_extends, In_feature_targets.
    right. right. right. left. apply in_map, Hw. }
  assert (E5 : extends_with feature_targets base d5).
  { unfold interactions in H5.
    apply bind_Some in H5. destruct H5 as [e1 [Ha H5]].
    apply bind_Some in H5. destruct H5 as [e2 [Hb Hc]].
    assert (Ti : forall x, In x interaction_targets -> In x feature_targets).
    { intros x Hx. apply In_feature_targets. auto 10. }
    pose proof (interaction_extends _ base _ _ _ _
                  (Ti _ (or_introl eq_refl)) d4 e1 E4 Ha) as X1.
    pose proof (interaction_extends _ base _ _ _ _
                  (Ti _ (or_intror (or_introl eq_refl))) e1 e2 X1 Hb) as X2.
    apply (interaction_extends _ base _ _ _ _
             (Ti _ (or_intror (or_intror (or_introl eq_refl)))) e2 d5 X2 Hc). }
  unfold time_features in H6.
  apply bind_Some in H6. destruct H6 as [e1 [Ha H6]].
  apply bind_Some in H6. destruct H6 as [e2 [Hb Hc]].
  assert (Tt : forall x, In x time_targets -> In x feature_targets).
  { intros x Hx. apply In_feature_targets. auto 10. }
  pose proof (assign_extends _ base _ _ _
                (Tt _ (or_introl eq_refl)) d5 e1 E5 Ha) as X1.
  pose proof (assign_extends _ base _ _ _
                (Tt _ (or_intror (or_introl eq_refl))) e1 e2 X1 Hb) as X2.
  apply (assign_extends _ base _ _ _
           (Tt _ (or_intror (or_intror (or_introl eq_refl)))) e2 f X2 Hc).
Qed.

Lemma columns_sort_values (by_ : string) (d s : DataFrame) :
  sort_values tie by_ d = Some s -> columns s = columns d.
Proof.
  intros H. apply sort_values_inv in H. destruct H as [dates [_ ->]].
  unfold columns. rewrite map_map. reflexivity.
Qed.

(** X6. The feature builder only appends: the columns of its input come
    first in its output, in their order, followed by derived columns only;
    and every input column that does not bear the name of a derived column
    comes out as the sort by DATE left it. *)
Theorem create_lag_features_appends (d s f : DataFrame) :
  sort_values tie "DATE" d = Some s ->
  create_lag_features Qsqrt isoweek quarter tie d = Some f ->
  (exists extra, columns f = columns d ++ extra /\
                 forall x, In x extra -> In x feature_targets) /\
  forall n, mem n feature_targets = false -> get n f = get n s.
Proof.
  intros Hs Hf. apply create_lag_features_inv in Hf.
  destruct Hf as [s' [Hs' Ha]]. rewrite Hs in Hs'. apply Some_inj in Hs'.
  subst s'. split.
  - apply (add_features_extends (columns d) s f); [|exact Ha].
    exists []. rewrite app_nil_r. split.
    + apply (columns_sort_values _ _ _ Hs).
    + intros x [].
  - intros n Hn. apply (add_features_preserves Qsqrt isoweek quarter n Hn s f Ha).
Qed.

Lemma cleaned_name_not_target (n : string) :
  In n col_order -> mem n feature_targets = false.
Proof. unfold col_order. intros H. split_in; vm_compute; reflexivity. Qed.

(** X7. What the feature builder keeps of a cleaned frame: its sort reads
    every cleaned column through one permutation of the rows that leaves
    the DATE column as it is, and no derived column bears the name of a
    cleaned one; so rows can change places only with rows of the same date,
    and when no two rows have the same date every cleaned column comes out
    exactly as it went in. *)
Theorem create_lag_features_keeps_cleaned (raw d f : DataFrame)
  (dates : Column) :
  clean_data assemble tie raw = Some d ->
  create_lag_features Qsqrt isoweek quarter tie d = Some f ->
  get "DATE" d = Some dates ->
  exists idx,
    Permutation idx (seq 0 (length dates)) /\
    take idx dates = dates /\
    (forall n c, get n d = Some c -> get n f = Some (take idx c)) /\
    (NoDup (map date_key dates) ->
     forall n c, get n d = Some c -> get n f = Some c).
Proof.
  intros Hc Hf Gd.
  destruct (cleaned_sort assemble tie raw d Hc)
    as [dates' [idx [G' [Hidx [P [T [L [S [_ E]]]]]]]]].
  rewrite Gd in G'. apply Some_inj in G'. subst dates'.
  apply create_lag_features_inv in Hf.
  destruct Hf as [s' [Hs' Ha]]. rewrite E in Hs'. apply Some_inj in Hs'.
  subst s'.
  assert (K : forall n c, get n d = Some c -> get n f = Some (take idx c)).
  { intros n c G.
    rewrite (add_features_preserves Qsqrt isoweek quarter n)
      with (d := permute_rows idx d);
      [rewrite get_permute_rows, G; reflexivity| |exact Ha].
    apply cleaned_name_not_target.
    apply clean_data_inv in Hc. destruct Hc as [s [_ Hd]]. subst d.
    apply cleaned_column_inv in G. tauto. }
  exists idx. split; [exact P|]. split; [exact T|]. split; [exact K|].
  intros N n c G. rewrite (K n c G). f_equal.
  rewrite Hidx, argsort_fixed; [|apply Sorted_date_keys, S|exact N].
  rewrite length_map, <- (all_len_get _ _ _ _ L G). apply take_seq.
Qed.

(** *** Lag columns *)

(** The lag column of variable [X] for lag [n], as the job writes it. *)
Lemma lag_column_value (d s f : DataFrame) (X : string) (n : nat)
  (xs : Column) :
  In X lagged_vars -> In n lag_periods ->
  sort_values tie "DATE" d = Some s ->
  get X s = Some xs ->
  create_lag_features Qsqrt isoweek quarter tie d = Some f ->
  get (lag_column X n) f = Some (shift n xs).
Proof.
  intros HX Hn Hs G Hf.
  apply create_lag_features_inv in Hf. destruct Hf as [s' [Hs' Hf]].
  rewrite Hs in Hs'. apply Some_inj in Hs'. subst s'.
  apply add_features_inv in Hf.
  destruct Hf as [d1 [d2 [d3 [d4 [d5 [H1 [H2 [H3 [H4 [H5 H6]]]]]]]]]].
  unfold lagged_vars in HX. apply in_app_or in HX. destruct HX as [HX|HX].
  - assert (E : lag_column X n = lag_name X n).
    { unfold lag_column, weather_vars in *. split_in; reflexivity. }
    rewrite E.
    rewrite (after_weather_lags Qsqrt isoweek quarter _ d1 d2 d3 d4 d5 f
               H2 H3 H4 H5 H6 (weather_lag_not_later X n HX Hn)).
    apply (weather_lags_establish X n xs HX Hn s d1 G H1).
  - destruct HX as [<-|[]]. change (lag_column "DENGUE CASES" n)
      with (lag_name "DENGUE_CASES" n).
    rewrite (after_dengue_lags Qsqrt isoweek quarter _ d2 d3 d4 d5 f
               H3 H4 H5 H6 (dengue_lag_not_later n Hn)).
    apply (dengue_lags_establish n xs Hn d1 d2); [|exact H2].
    rewrite (weather_lags_preserves "DENGUE CASES" eq_refl s d1 H1). exact G.
Qed.

Lemma shift_shift (a b : nat) (c : Column) :
  shift a (shift b c) = shift (a + b) c.
Proof.
  apply (nth_ext _ _ NA NA).
  - rewrite !shift_length. reflexivity.
  - intros i Hi. rewrite !shift_length in Hi.
    rewrite nth_shift by (rewrite shift_length; exact Hi).
    rewrite (nth_shift (a + b)) by exact Hi.
    destruct (i <? a)%nat eqn:Ea.
    + apply Nat.ltb_lt in Ea.
      destruct (i <? a + b)%nat eqn:Eab; [reflexivity|].
      apply Nat.ltb_ge in Eab. lia.
    + apply Nat.ltb_ge in Ea. rewrite nth_shift by lia.
      destruct (i - a <? b)%nat eqn:Eb.
      * apply Nat.ltb_lt in Eb.
        destruct (i <? a + b)%nat eqn:Eab; [reflexivity|].
        apply Nat.ltb_ge in Eab. lia.
      * apply Nat.ltb_ge in Eb.
        destruct (i <? a + b)%nat eqn:Eab.
        -- apply Nat.ltb_lt in Eab. lia.
        -- f_equal. lia.
Qed.

(** X8. The lags compose: the 14-row lag column of a variable is its 7-row
    lag column lagged by 7 more rows, and the 21-row lag column is the
    14-row one lagged by 7 more. *)
Theorem lag_columns_compose (d s f : DataFrame) (X : string) (xs : Column) :
  In X lagged_vars ->
  sort_values tie "DATE" d = Some s ->
  get X s = Some xs ->
  create_lag_features Qsqrt isoweek quarter tie d = Some f ->
  exists l7 l14 l21,
    get (lag_column X 7) f = Some l7 /\
    get (lag_column X 14) f = Some l14 /\
    get (lag_column X 21) f = Some l21 /\
    l14 = shift 7 l7 /\ l21 = shift 7 l14.
Proof.
  intros HX Hs G Hf.
  exists (shift 7 xs), (shift 14 xs), (shift 21 xs).
  split; [apply (lag_column_value d s f X 7 xs HX); auto;
          unfold lag_periods; simpl; auto|].
  split; [apply (lag_column_value d s f X 14 xs HX); auto;
          unfold lag_periods; simpl; auto|].
  split; [apply (lag_column_value d s f X 21 xs HX); auto;
          unfold lag_periods; simpl; auto|].
  rewrite !shift_shift. split; reflexivity.
Qed.

Lemma count_na_app (a b : Column) :
  count_na (a ++ b) = (count_na a + count_na b)%nat.
Proof. unfold count_na. rewrite filter_app. apply length_app. Qed.

Lemma count_na_repeat (k : nat) : count_na (repeat NA k) = k.
Proof.
  unfold count_na. induction k as [|k IH]; simpl; [reflexivity|].
  rewrite IH. reflexivity.
Qed.

Lemma firstn_repeat_NA (m k : nat) :
  firstn m (repeat NA k) = repeat NA (Nat.min m k).
Proof.
  revert k. induction m as [|m IH]; intros k; [reflexivity|].
  destruct k as [|k]; simpl; [reflexivity|]. rewrite IH. reflexivity.
Qed.

Lemma count_na_shift (n : nat) (c : Column) :
  count_na (shift n c)
  = (Nat.min n (length c) + count_na (firstn (length c - n) c))%nat.
Proof.
  unfold shift. rewrite firstn_app, count_na_app, repeat_length.
  rewrite firstn_repeat_NA, count_na_repeat. lia.
Qed.

(** X9. A lag column for lag [n] has [min(n, rows)] missing cells for the
    rows it cannot reach, plus one for each missing cell among the values
    it brings down; so exactly [min(n, rows)] when the variable has no
    missing cell. *)
Theorem lag_column_missing (d s f : DataFrame) (X : string) (n : nat)
  (xs : Column) :
  In X lagged_vars -> In n lag_periods ->
  sort_values tie "DATE" d = Some s ->
  get X s = Some xs ->
  create_lag_features Qsqrt isoweek quarter tie d = Some f ->
  exists ys,
    get (lag_column X n) f = Some ys /\
    count_na ys
    = (Nat.min n (length xs) + count_na (firstn (length xs - n) xs))%nat /\
    (count_na xs = 0%nat -> count_na ys = Nat.min n (length xs)).
Proof.
  intros HX Hn Hs G Hf. exists (shift n xs).
  split; [apply (lag_column_value d s f X n xs HX Hn Hs G Hf)|].
  split; [apply count_na_shift|].
  intros Z. rewrite count_na_shift.
  assert (E : count_na (firstn (length xs - n) xs) = 0%nat).
  { rewrite <- (firstn_skipn (length xs - n) xs) in Z.
    rewrite count_na_app in Z. lia. }
  rewrite E. lia.
Qed.

(** *** Interaction and calendar features *)

Lemma arith_nth (op : Q -> Q -> Q) (a b c : Column) (i : nat) :
  arith op a b = Some c -> (i < length c)%nat ->
  nth i c NA = cell_op op (nth i a NA) (nth i b NA).
Proof.
  revert b c i. induction a as [|x a' IH]; intros b c i H Hi; simpl in H.
  - apply Some_inj in H. subst c. simpl in Hi. lia.
  - destruct b as [|y b']; [apply Some_inj in H; subst c; simpl in Hi; lia|].
    apply bind_Some in H. destruct H as [r [Hr H]].
    assert (E : c = cell_op op x y :: r).
    { destruct x, y; try discriminate; apply Some_inj in H; subst c;
        reflexivity. }
    subst c. destruct i as [|j]; [reflexivity|].
    simpl. apply (IH b' r j Hr). simpl in Hi. lia.
Qed.

Lemma interaction_inv (a b tgt : string) (op : Q -> Q -> Q)
  (d d' : DataFrame) :
  interaction a b tgt op d = Some d' ->
  (exists xa xb c,
      get a d = Some xa /\ get b d = Some xb /\
      arith op xa xb = Some c /\ d' = set_col tgt c d)
  \/ ((has a d = false \/ has b d = false) /\ d' = d).
Proof.
  unfold interaction. destruct (has a d) eqn:Ha; simpl.
  - destruct (has b d) eqn:Hb; simpl.
    + intros H. left.
      apply bind_Some in H. destruct H as [xa [Ga H]].
      apply bind_Some in H. destruct H as [xb [Gb H]].
      apply bind_Some in H. destruct H as [c [Hc H]].
      apply Some_inj in H. exists xa, xb, c. auto.
    + intros H. apply Some_inj in H. right. auto.
  - intros H. apply Some_inj in H. right. auto.
Qed.

Lemma interaction_value (a b tgt : string) (op : Q -> Q -> Q)
  (d d' : DataFrame) (xa xb : Column) :
  get a d = Some xa -> get b d = Some xb ->
  interaction a b tgt op d = Some d' ->
  exists c, arith op xa xb = Some c /\ get tgt d' = Some c.
Proof.
  intros Ga Gb H. apply interaction_inv in H.
  destruct H as [[ya [yb [c [Ga' [Gb' [Hc ->]]]]]]|[[H|H] _]].
  - rewrite Ga in Ga'. rewrite Gb in Gb'.
    apply Some_inj in Ga'. apply Some_inj in Gb'. subst ya yb.
    exists c. split; [exact Hc|]. rewrite get_set_col, String.eqb_refl.
    reflexivity.
  - rewrite (get_has _ _ _ Ga) in H. discriminate.
  - rewrite (get_has _ _ _ Gb) in H. discriminate.
Qed.

Lemma interaction_skipped (a b tgt : string) (op : Q -> Q -> Q)
  (d d' : DataFrame) :
  has a d = false \/ has b d = false ->
  interaction a b tgt op d = Some d' -> d' = d.
Proof.
  intros Hm H. apply interaction_inv in H.
  destruct H as [[ya [yb [c [Ga [Gb _]]]]]|[_ E]]; [|exact E].
  rewrite (get_has _ _ _ Ga), (get_has _ _ _ Gb) in Hm.
  destruct Hm; discriminate.
Qed.

Lemma not_target_split (n : string) :
  mem n feature_targets = false ->
  mem n lag_targets = false /\ mem n dengue_lag_targets = false /\
  mem n rolling_targets = false /\ mem n dengue_rolling_targets = false /\
  mem n interaction_targets = false /\ mem n time_targets = false.
Proof.
  unfold feature_targets, mem. rewrite !existsb_app, !orb_false_iff. tauto.
Qed.

(** A column no stage assigns is, when the interactions start, as the sort
    left it. *)
Lemma before_interactions (n : string) (s d1 d2 d3 d4 : DataFrame) :
  mem n feature_targets = false ->
  weather_lags s = Some d1 -> dengue_lags d1 = Some d2 ->
  weather_rolling Qsqrt d2 = Some d3 -> dengue_rolling d3 = Some d4 ->
  get n d4 = get n s.
Proof.
  intros Hn H1 H2 H3 H4.
  destruct (not_target_split n Hn) as [T1 [T2 [T3 [T4 _]]]].
  rewrite (dengue_rolling_preserves n T4 d3 d4 H4).
  rewrite (weather_rolling_preserves Qsqrt n T3 d2 d3 H3).
  rewrite (dengue_lags_preserves n T2 d1 d2 H2).
  apply (weather_lags_preserves n T1 s d1 H1).
Qed.

(** X10. Interaction features: TEMP_RANGE from TMAX and TMIN,
    RAIN_TEMP_INTERACTION from RAINFALL and Ave. Temp,
    HUMIDITY_TEMP_INTERACTION from RH and Ave. Temp.  Each is written only
    when both its operands are columns of the frame, and is otherwise left
    as it was (absent, if it was absent); when written it has a cell for
    every row, missing wherever either operand is missing. *)
Theorem interaction_features_spec (d s f : DataFrame)
  (a b tgt : string) (op : Q -> Q -> Q) :
  In (a, b, tgt, op) interaction_specs ->
  sort_values tie "DATE" d = Some s ->
  create_lag_features Qsqrt isoweek quarter tie d = Some f ->
  (forall xa xb, get a s = Some xa -> get b s = Some xb ->
     exists c,
       get tgt f = Some c /\
       length c = Nat.min (length xa) (length xb) /\
       forall i, (i < length c)%nat ->
         isna (nth i xa NA) = true \/ isna (nth i xb NA) = true ->
         nth i c NA = NA) /\
  (has a s = false \/ has b s = false -> get tgt f = get tgt s).
Proof.
  intros Hin Hs Hf.
  apply create_lag_features_inv in Hf. destruct Hf as [s' [Hs' Hf]].
  rewrite Hs in Hs'. apply Some_inj in Hs'. subst s'.
  apply add_features_inv in Hf.
  destruct Hf as [d1 [d2 [d3 [d4 [d5 [H1 [H2 [H3 [H4 [H5 H6]]]]]]]]]].
  assert (B : forall n, mem n feature_targets = false -> get n d4 = get n s).
  { intros n Hn. apply (before_interactions n s d1 d2 d3 d4 Hn H1 H2 H3 H4). }
  assert (Bt : forall n, mem n (lag_targets ++ dengue_lag_targets
                                  ++ rolling_targets ++ dengue_rolling_targets)
                         = false -> get n d4 = get n s).
  { intros n Hn. unfold mem in Hn. rewrite !existsb_app, !orb_false_iff in Hn.
    destruct Hn as [T1 [T2 [T3 T4]]].
    rewrite (dengue_rolling_preserves n T4 d3 d4 H4).
    rewrite (weather_rolling_preserves Qsqrt n T3 d2 d3 H3).
    rewrite (dengue_lags_preserves n T2 d1 d2 H2).
    apply (weather_lags_preserves n T1 s d1 H1). }
  unfold interactions in H5.
  apply bind_Some in H5. destruct H5 as [e1 [Ha H5]].
  apply bind_Some in H5. destruct H5 as [e2 [Hb Hc]].
  assert (Hval : forall xa xb c, arith op xa xb = Some c ->
            length c = Nat.min (length xa) (length xb) /\
            forall i, (i < length c)%nat ->
              isna (nth i xa NA) = true \/ isna (nth i xb NA) = true ->
              nth i c NA = NA).
  { intros xa xb c Hc'. split; [apply (arith_length _ _ _ _ Hc')|].
    intros i Hi Hna. rewrite (arith_nth _ _ _ _ _ Hc' Hi).
    destruct (nth i xa NA), (nth i xb NA); simpl in *;
      try reflexivity; destruct Hna; discriminate. }
  assert (K1 : forall n, String.eqb n "TEMP_RANGE" = false ->
                         get n e1 = get n d4).
  { intros n Hn. apply (interaction_preserves n _ _ _ _ Hn d4 e1 Ha). }
  assert (K2 : forall n, String.eqb n "RAIN_TEMP_INTERACTION" = false ->
                         get n e2 = get n e1).
  { intros n Hn. apply (interaction_preserves n _ _ _ _ Hn e1 e2 Hb). }
  assert (K3 : forall n, String.eqb n "HUMIDITY_TEMP_INTERACTION" = false ->
                         get n d5 = get n e2).
  { intros n Hn. apply (interaction_preserves n _ _ _ _ Hn e2 d5 Hc). }
  assert (K4 : forall n, mem n time_targets = false -> get n f = get n d5).
  { intros n Hn. apply (time_features_preserves isoweek quarter n Hn d5 f H6). }
  unfold interaction_specs in Hin.
  destruct Hin as [E|[E|[E|[]]]]; inversion E; subst a b tgt op; clear E.
  - split.
    + intros xa xb Ga Gb.
      rewrite <- (B "TMAX" eq_refl) in Ga. rewrite <- (B "TMIN" eq_refl) in Gb.
      destruct (interaction_value _ _ _ _ d4 e1 xa xb Ga Gb Ha) as [c [Hc' G]].
      exists c. split; [|apply (Hval xa xb c Hc')].
      rewrite (K4 "TEMP_RANGE" eq_refl), (K3 "TEMP_RANGE" eq_refl).
      rewrite (K2 "TEMP_RANGE" eq_refl). exact G.
    + intros Hm.
      rewrite (K4 "TEMP_RANGE" eq_refl), (K3 "TEMP_RANGE" eq_refl).
      rewrite (K2 "TEMP_RANGE" eq_refl).
      assert (Hm' : has "TMAX" d4 = false \/ has "TMIN" d4 = false).
      { unfold has in *. rewrite (B "TMAX" eq_refl), (B "TMIN" eq_refl).
        exact Hm. }
      rewrite (interaction_skipped _ _ _ _ d4 e1 Hm' Ha).
      apply (Bt "TEMP_RANGE" eq_refl).
  - split.
    + intros xa xb Ga Gb.
      rewrite <- (B "RAINFALL" eq_refl), <- (K1 "RAINFALL" eq_refl) in Ga.
      rewrite <- (B "Ave. Temp" eq_refl), <- (K1 "Ave. Temp" eq_refl) in Gb.
      destruct (interaction_value _ _ _ _ e1 e2 xa xb Ga Gb Hb) as [c [Hc' G]].
      exists c. split; [|apply (Hval xa xb c Hc')].
      rewrite (K4 "RAIN_TEMP_INTERACTION" eq_refl).
      rewrite (K3 "RAIN_TEMP_INTERACTION" eq_refl). exact G.
    + intros Hm.
      rewrite (K4 "RAIN_TEMP_INTERACTION" eq_refl).
      rewrite (K3 "RAIN_TEMP_INTERACTION" eq_refl).
      assert (Hm' : has "RAINFALL" e1 = false \/ has "Ave. Temp" e1 = false).
      { unfold has in *.
        rewrite (K1 "RAINFALL" eq_refl), (K1 "Ave. Temp" eq_refl).
        rewrite (B "RAINFALL" eq_refl), (B "Ave. Temp" eq_refl). exact Hm. }
      rewrite (interaction_skipped _ _ _ _ e1 e2 Hm' Hb).
      rewrite (K1 "RAIN_TEMP_INTERACTION" eq_refl).
      apply (Bt "RAIN_TEMP_INTERACTION" eq_refl).
  - split.
    + intros xa xb Ga Gb.
      rewrite <- (B "RH" eq_refl), <- (K1 "RH" eq_refl),
        <- (K2 "RH" eq_refl) in Ga.
      rewrite <- (B "Ave. Temp" eq_refl), <- (K1 "Ave. Temp" eq_refl),
        <- (K2 "Ave. Temp" eq_refl) in Gb.
      destruct (interaction_value _ _ _ _ e2 d5 xa xb Ga Gb Hc) as [c [Hc' G]].
      exists c. split; [|apply (Hval xa xb c Hc')].
      rewrite (K4 "HUMIDITY_TEMP_INTERACTION" eq_refl). exact G.
    + intros Hm.
      rewrite (K4 "HUMIDITY_TEMP_INTERACTION" eq_refl).
      assert (Hm' : has "RH" e2 = false \/ has "Ave. Temp" e2 = false).
      { unfold has in *.
        rewrite (K2 "RH" eq_refl), (K2 "Ave. Temp" eq_refl).
        rewrite (K1 "RH" eq_refl), (K1 "Ave. Temp" eq_refl).
        rewrite (B "RH" eq_refl), (B "Ave. Temp" eq_refl). exact Hm. }
      rewrite (interaction_skipped _ _ _ _ e2 d5 Hm' Hc).
      rewrite (K2 "HUMIDITY_TEMP_INTERACTION" eq_refl).
      rewrite (K1 "HUMIDITY_TEMP_INTERACTION" eq_refl).
      apply (Bt "HUMIDITY_TEMP_INTERACTION" eq_refl).
Qed.

Lemma rainy_cell_spec (v : value) :
  let cell :=
    match v with
    | Num q =>
        if existsb (fun k => Qeq_bool q (inject_Z k)) [6; 7; 8; 9; 10]%Z
        then Num 1 else Num 0
    | _ => Num 0
    end in
  (rainy_month v /\ cell = Num 1) \/ (~ rainy_month v /\ cell = Num 0).
Proof.
  destruct v as [|q| |]; simpl; try (right; split; [tauto|reflexivity]).
  destruct (Qeq_bool q (inject_Z 6)) eqn:E6;
    [left; split; [apply Qeq_bool_iff in E6; auto|reflexivity]|].
  destruct (Qeq_bool q (inject_Z 7)) eqn:E7;
    [left; split; [apply Qeq_bool_iff in E7; auto|reflexivity]|].
  destruct (Qeq_bool q (inject_Z 8)) eqn:E8;
    [left; split; [apply Qeq_bool_iff in E8; auto|reflexivity]|].
  destruct (Qeq_bool q (inject_Z 9)) eqn:E9;
    [left; split; [apply Qeq_bool_iff in E9; auto 6|reflexivity]|].
  destruct (Qeq_bool q (inject_Z 10)) eqn:E10;
    [left; split; [apply Qeq_bool_iff in E10; auto 6|reflexivity]|].
  right. split; [|reflexivity].
  intros [H|[H|[H|[H|H]]]]; apply Qeq_bool_iff in H;
    unfold Qeq_bool, inject_Z in *; simpl in *; congruence.
Qed.

(** X11. IS_RAINY_SEASON is never missing: row by row it is 1 when MONTH
    is a number from 6 to 10 and 0 otherwise, a missing MONTH included. *)
Theorem rainy_season_spec (d s f : DataFrame) (m : Column) :
  sort_values tie "DATE" d = Some s ->
  get "MONTH" s = Some m ->
  create_lag_features Qsqrt isoweek quarter tie d = Some f ->
  exists c,
    get "IS_RAINY_SEASON" f = Some c /\ length c = length m /\
    forall i, (i < length m)%nat ->
      (rainy_month (nth i m NA) /\ nth i c NA = Num 1) \/
      (~ rainy_month (nth i m NA) /\ nth i c NA = Num 0).
Proof.
  intros Hs G Hf.
  apply create_lag_features_inv in Hf. destruct Hf as [s' [Hs' Hf]].
  rewrite Hs in Hs'. apply Some_inj in Hs'. subst s'.
  pose proof (add_features_preserves Qsqrt isoweek quarter "MONTH" eq_refl
                s f Hf) as Gf.
  apply add_features_inv in Hf.
  destruct Hf as [d1 [d2 [d3 [d4 [d5 [_ [_ [_ [_ [_ H6]]]]]]]]]].
  unfold time_features in H6.
  apply bind_Some in H6. destruct H6 as [e1 [_ H6]].
  apply bind_Some in H6. destruct H6 as [e2 [_ Hc]].
  apply assign_from_inv in Hc. destruct Hc as [c [c' [Gc [F ->]]]].
  apply Some_inj in F. subst c'.
  rewrite get_set_col in Gf. simpl in Gf. rewrite Gc, G in Gf.
  apply Some_inj in Gf. subst c.
  exists (isin_rainy m). split; [rewrite get_set_col; reflexivity|].
  split; [apply length_map|]. intros i Hi.
  assert (E : nth i (isin_rainy m) NA = nth i (isin_rainy m) (Num 0)).
  { apply nth_indep. unfold isin_rainy. rewrite length_map. exact Hi. }
  rewrite E. unfold isin_rainy.
  match goal with |- context [map ?g m] => set (F := g) end.
  pose proof (map_nth F m NA i) as M. change (F NA) with (Num 0) in M.
  rewrite M. apply rainy_cell_spec.
Qed.

(** *** Rolling statistics *)

Lemma window_at_early (w w' i : nat) (c : Column) :
  (i < w)%nat -> (i < w')%nat -> window_at w i c = window_at w' i c.
Proof.
  intros H H'. unfold window_at.
  replace (i + 1 - w)%nat with 0%nat by lia.
  replace (i + 1 - w')%nat with 0%nat by lia. reflexivity.
Qed.

Lemma rolling_values_early (w w' i : nat) (agg : list Q -> value)
  (c : Column) :
  (i < w)%nat -> (i < w')%nat ->
  nth i (rolling_values w agg c) NA = nth i (rolling_values w' agg c) NA.
Proof.
  intros H H'. destruct (Nat.lt_ge_cases i (length c)) as [L|L].
  - rewrite !nth_rolling_values by exact L.
    rewrite (window_at_early w w' i c H H'). reflexivity.
  - rewrite !nth_overflow by (rewrite rolling_values_length; exact L).
    reflexivity.
Qed.

(** X12. While fewer than seven rows have been seen, the two windows hold
    the same rows: the 7-row and the 14-row rolling mean of a weather
    variable agree on rows 0 to 6, and so do the two standard deviations. *)
Theorem rolling_windows_agree_early (d s f : DataFrame) (X : string)
  (xs : Column) :
  In X weather_vars ->
  sort_values tie "DATE" d = Some s ->
  get X s = Some xs ->
  create_lag_features Qsqrt isoweek quarter tie d = Some f ->
  exists m7 m14 s7 s14,
    get (roll_mean_name X 7) f = Some m7 /\
    get (roll_mean_name X 14) f = Some m14 /\
    get (roll_std_name X 7) f = Some s7 /\
    get (roll_std_name X 14) f = Some s14 /\
    forall i, (i < 7)%nat ->
      nth i m7 NA = nth i m14 NA /\ nth i s7 NA = nth i s14 NA.
Proof.
  intros HX Hs G Hf.
  assert (H7 : In 7%nat rolling_windows) by (left; reflexivity).
  assert (H14 : In 14%nat rolling_windows) by (right; left; reflexivity).
  destruct (rolling_columns Qsqrt isoweek quarter tie d s f X 7 xs HX H7 Hs G Hf)
    as [_ [M7 S7]].
  destruct (rolling_columns Qsqrt isoweek quarter tie d s f X 14 xs HX H14 Hs G Hf)
    as [_ [M14 S14]].
  eexists; eexists; eexists; eexists.
  split; [exact M7|]. split; [exact M14|]. split; [exact S7|].
  split; [exact S14|].
  intros i Hi. split; apply rolling_values_early; lia.
Qed.
















(** *** When the feature builder raises *)








End FeaturesKept.

(** ** The cleaner and the feature builder in sequence *)









Section Sequence.

Variable assemble : value -> value -> value -> option Z.
Variable Qsqrt : Q -> Q.
Variables isoweek quarter : Z -> Z.
Variable tie : TieBreak.



End Sequence.

(** ** The report generator, further *)

Lemma other_cols_filter (el : list string) :
  filter (fun col => negb (mem col (filter is_priority el))) el
  = filter (fun col => negb (is_priority col)) el.
Proof.
  apply filter_ext_in. intros c Hc. f_equal.
  destruct (is_priority c) eqn:E.
  - apply mem_In, filter_In. auto.
  - destruct (mem c (filter is_priority el)) eqn:M; [|reflexivity].
    apply mem_In, filter_In in M. destruct M as [_ M]. congruence.
Qed.

(** X17. When more than 20 columns are eligible for the correlation
    matrix, the number of columns selected is 20 or the number of priority
    columns, whichever is larger; every priority column is selected, and a
    column left out has LAG and not DENGUE in its name. *)
Theorem corr_columns_count (df : DataFrame) :
  (20 < length (eligible_cols df))%nat ->
  length (corr_columns df) = Nat.max 20 (length (priority_cols df)) /\
  (forall c, In c (priority_cols df) -> In c (corr_columns df)) /\
  (forall c, In c (eligible_cols df) -> ~ In c (corr_columns df) ->
             contains "LAG" c = true /\ contains "DENGUE" c = false).
Proof.
  intros H20.
  unfold corr_columns, select_corr_cols, priority_cols.
  fold (eligible_cols df). set (el := eligible_cols df) in *.
  apply Nat.ltb_lt in H20. rewrite H20. apply Nat.ltb_lt in H20.
  rewrite other_cols_filter.
  set (pr := filter is_priority el).
  set (ot := filter (fun col => negb (is_priority col)) el).
  assert (L : (length pr + length ot = length el)%nat)
    by apply filter_length.
  assert (P : forall c, In c pr ->
     In c (pr ++ firstn (Z.to_nat (Z.max 0 (20 - Z.of_nat (length pr)))) ot)).
  { intros c Hc. apply in_or_app. left. exact Hc. }
  split; [|split].
  - rewrite length_app, length_firstn. lia.
  - exact P.
  - intros c Hc Hn.
    assert (E : is_priority c = false).
    { destruct (is_priority c) eqn:E; [|reflexivity].
      exfalso. apply Hn, P. apply filter_In. auto. }
    unfold is_priority in E. apply orb_false_iff in E. destruct E as [E1 E2].
    split; [|exact E1]. destruct (contains "LAG" c); [reflexivity|discriminate].
Qed.

Lemma require_missing (n : string) (names : list string) (df : DataFrame) :
  In n names -> get n df = None -> require names df = None.
Proof.
  intros Hn G. induction names as [|k rest IH]; [destruct Hn|].
  simpl. destruct Hn as [->|Hn].
  - rewrite G. reflexivity.
  - destruct (get k df); [simpl; apply IH, Hn|reflexivity].
Qed.

Section ReportInSequence.

Variable assemble : value -> value -> value -> option Z.
Variable Qsqrt : Q -> Q.
Variables isoweek quarter month_period : Z -> Z.
Variable tie : TieBreak.

(** X18. The three jobs in sequence: when the raw frame lacks one of
    DENGUE CASES, RAINFALL, TMAX, TMIN, Ave. Temp and RH, the cleaner and
    the feature builder may well go through, but the report generator
    raises on the frame they produce, since neither job creates the column
    and the plots read it without a guard. *)
Theorem report_needs_raw_columns (raw c f : DataFrame) (n : string) :
  In n ["DENGUE CASES"; "RAINFALL"; "TMAX"; "TMIN"; "Ave. Temp"; "RH"] ->
  has n raw = false ->
  clean_data assemble tie raw = Some c ->
  create_lag_features Qsqrt isoweek quarter tie c = Some f ->
  generate_eda month_period f = None.
Proof.
  intros Hn Hr Hc Hf.
  assert (K : String.eqb n "DATE" = false /\
              mem n feature_targets = false /\ In n plotted_cols).
  { split_in; (split; [reflexivity|split; [vm_compute; reflexivity|]]);
      unfold plotted_cols; simpl; auto 10. }
  destruct K as [K1 [K2 K3]].
  apply clean_data_inv in Hc. destruct Hc as [s [Hs ->]].
  pose proof (has_date_and_sort assemble tie raw s n Hs) as Hsn.
  rewrite K1, Hr, andb_false_r in Hsn. simpl in Hsn.
  apply create_lag_features_inv in Hf. destruct Hf as [s2 [Hs2 Ha]].
  pose proof (add_features_preserves Qsqrt isoweek quarter n K2 s2 f Ha) as Gf.
  apply sort_values_inv in Hs2. destruct Hs2 as [dates [_ E2]].
  rewrite E2, get_map_cols, cleaned_get in Gf.
  unfold has in Hsn. destruct (get n s); [discriminate|].
  assert (G : get n f = None).
  { rewrite Gf. destruct (mem n col_order); [|reflexivity].
    destruct (_ && _); reflexivity. }
  unfold generate_eda. rewrite (require_missing n plotted_cols f K3 G).
  reflexivity.
Qed.

End ReportInSequence.

(** ** Where the rolling standard deviation is defined *)




Section RollingStd.

Variable assemble : value -> value -> value -> option Z.
Variable Qsqrt : Q -> Q.
Variables isoweek quarter : Z -> Z.
Variable tie : TieBreak.


End RollingStd.

(** ** The entry points *)

Lemma endswith_refl (s : string) : endswith s s = true.
Proof.
  destruct s; [reflexivity|]. cbn [endswith]. rewrite String.eqb_refl.
  reflexivity.
Qed.

Lemma endswith_app (s suffix : string) : endswith (s ++ suffix) suffix = true.
Proof.
  induction s as [|a s IH]; [apply endswith_refl|].
  change (String a s ++ suffix)%string with (String a (s ++ suffix)).
  cbn [endswith]. rewrite IH. apply orb_true_r.
Qed.

Lemma prefix_app (p s : string) : prefix p (p ++ s) = true.
Proof.
  induction p as [|a p IH]; simpl; [destruct s; reflexivity|].
  destruct (Ascii.ascii_dec a a); [exact IH|congruence].
Qed.

Lemma append_inj (p a b : string) : (p ++ a = p ++ b)%string -> a = b.
Proof.
  induction p as [|c p IH]; simpl; [auto|].
  intros H. apply IH. congruence.
Qed.

Lemma NoDup_map_injective {A B : Type} (f : A -> B) (l : list A) :
  (forall a b, f a = f b -> a = b) -> NoDup l -> NoDup (map f l).
Proof.
  intros Hf. induction 1 as [|x l Hx _ IH]; simpl; constructor; [|exact IH].
  intros C. apply in_map_iff in C. destruct C as [y [E Hy]].
  apply Hf in E. subst y. exact (Hx Hy).
Qed.

(** X20. The prefix the report is written under always ends with a slash:
    it is OUTPUT_PREFIX as given when that ends with a slash, OUTPUT_PREFIX
    with a slash appended when it does not (an empty OUTPUT_PREFIX gives a
    single slash), and eda/ when the variable is unset; the five objects of
    a report have five different keys, all beginning with the prefix. *)
Theorem output_prefix_spec (env : Env) :
  let p := output_prefix env in
  endswith p "/" = true /\
  (env "OUTPUT_PREFIX" = None -> p = "eda/") /\
  (forall q, env "OUTPUT_PREFIX" = Some q ->
             (endswith q "/" = true -> p = q) /\
             (endswith q "/" = false -> p = (q ++ "/")%string)) /\
  NoDup (report_keys p) /\
  (forall k, In k (report_keys p) -> prefix p k = true).
Proof.
  intros p. subst p. split; [|split; [|split; [|split]]].
  - unfold output_prefix. cbv zeta.
    destruct (endswith (environ_get env "OUTPUT_PREFIX" "eda/") "/") eqn:E;
      [exact E|apply endswith_app].
  - intros H. unfold output_prefix, environ_get. rewrite H. reflexivity.
  - intros q H. unfold output_prefix, environ_get. rewrite H. cbv zeta.
    split; intros E; rewrite E; reflexivity.
  - unfold report_keys. apply NoDup_map_injective.
    + intros a b. apply append_inj.
    + repeat constructor; simpl; intuition discriminate.
  - intros k Hk. unfold report_keys in Hk. apply in_map_iff in Hk.
    destruct Hk as [n [<- _]]. apply prefix_app.
Qed.

(** X21. Run with no key variable set, the three jobs line up: the cleaner
    writes the key the feature builder reads, and the feature builder writes
    the key the report generator reads; so with each job's INPUT_BUCKET the
    OUTPUT_BUCKET of the job before it, each job reads the very object the
    job before it has written. *)
Theorem default_keys_chain (e1 e2 e3 : Env) (a1 a2 a3 : job_args) :
  clean_data_config e1 = Some a1 ->
  create_features_config e2 = Some a2 ->
  generate_eda_config e3 = Some a3 ->
  e1 "OUTPUT_KEY" = None ->
  e2 "INPUT_KEY" = None -> e2 "OUTPUT_KEY" = None ->
  e3 "INPUT_KEY" = None ->
  e2 "INPUT_BUCKET" = e1 "OUTPUT_BUCKET" ->
  e3 "INPUT_BUCKET" = e2 "OUTPUT_BUCKET" ->
  (input_bucket a2 = output_bucket a1 /\ input_key a2 = output_key a1) /\
  (input_bucket a3 = output_bucket a2 /\ input_key a3 = output_key a2).
Proof.
  unfold clean_data_config, create_features_config, generate_eda_config,
    job_config.
  intros H1 H2 H3 O1 I2 O2 I3 B12 B23.
  destruct (negb (is_set e1 "INPUT_BUCKET") || _); [discriminate|].
  destruct (negb (is_set e2 "INPUT_BUCKET") || _); [discriminate|].
  destruct (negb (is_set e3 "INPUT_BUCKET") || _); [discriminate|].
  apply Some_inj in H1. apply Some_inj in H2. apply Some_inj in H3.
  subst a1 a2 a3. unfold environ_get. simpl.
  rewrite O1, I2, O2, I3, B12, B23. repeat split; reflexivity.
Qed.

(** ** The further properties at work on the sample frames *)

Lemma messy_raw_rectangular : rectangular messy_raw.
Proof.
  intros n c H. simpl in H.
  repeat (destruct H as [H|H]; [inversion H; reflexivity|]). destruct H.
Defined.

Lemma clean_data_layout_witness :
  clean_data ymd_assemble stable_order messy_raw = Some messy_clean /\
  columns messy_clean
  = filter (fun c => String.eqb c "DATE" || has c messy_raw) col_order.
Proof.
  split; [reflexivity|].
  apply (clean_data_layout ymd_assemble stable_order messy_raw messy_clean eq_refl).
Defined.

Lemma clean_data_dates_consistent_witness :
  clean_data ymd_assemble stable_order messy_raw = Some messy_clean /\
  exists dates,
    get "DATE" messy_clean = Some dates /\
    to_datetime ymd_assemble messy_clean = Some dates.
Proof.
  split; [reflexivity|].
  apply (clean_data_dates_consistent ymd_assemble stable_order messy_raw messy_clean
           eq_refl).
Defined.

Lemma clean_data_permutes_rows_witness :
  rectangular messy_raw /\
  clean_data ymd_assemble stable_order messy_raw = Some messy_clean /\
  exists idx,
    Permutation idx (seq 0 (nrows messy_raw)) /\
    forall n c, In n date_fields -> get n messy_raw = Some c ->
      get n messy_clean = Some (take idx c) /\ Permutation (take idx c) c.
Proof.
  split; [exact messy_raw_rectangular|]. split; [reflexivity|].
  apply (clean_data_permutes_rows ymd_assemble stable_order messy_raw messy_clean
           messy_raw_rectangular eq_refl).
Defined.

Lemma clean_data_fills_weather_witness :
  date_and_sort ymd_assemble stable_order messy_raw = Some messy_sorted /\
  clean_data ymd_assemble stable_order messy_raw = Some messy_clean /\
  In "TMAX" temp_humidity_cols /\
  exists xs,
    get "TMAX" messy_sorted = Some xs /\
    exists c,
      get "TMAX" messy_clean = Some c /\ length c = length xs /\
      (Exists (fun v => isna v = false) xs ->
       Forall (fun v => isna v = false) c) /\
      forall i, (i < length xs)%nat ->
        let p := nearest_preceding xs i in
        let f := if isna p then first_valid xs else p in
        nth i c NA = f \/ nth i c NA = clamp_value f.
Proof.
  assert (Hn : In "TMAX" temp_humidity_cols) by (apply mem_In; reflexivity).
  split; [reflexivity|]. split; [reflexivity|]. split; [exact Hn|].
  eexists. split; [reflexivity|].
  apply (clean_data_fills_weather ymd_assemble stable_order messy_raw messy_sorted
           messy_clean "TMAX" _ eq_refl eq_refl Hn eq_refl).
Defined.

Lemma create_lag_features_appends_witness :
  sort_values stable_order "DATE" sample_clean = Some sample_clean /\
  create_lag_features Qsqrt_newton ymd_isoweek ymd_quarter stable_order sample_clean
  = Some sample_features /\
  (exists extra, columns sample_features = columns sample_clean ++ extra /\
                 forall x, In x extra -> In x feature_targets) /\
  forall n, mem n feature_targets = false ->
            get n sample_features = get n sample_clean.
Proof.
  split; [reflexivity|]. split; [reflexivity|].
  apply (create_lag_features_appends Qsqrt_newton ymd_isoweek ymd_quarter stable_order
           sample_clean sample_clean sample_features eq_refl eq_refl).
Defined.

Lemma create_lag_features_keeps_cleaned_witness :
  clean_data ymd_assemble later_first tied_raw = Some tied_clean /\
  create_lag_features Qsqrt_newton ymd_isoweek ymd_quarter later_first
    tied_clean = Some tied_features /\
  get "DATE" tied_clean = Some [Date 20200101; Date 20200101] /\
  exists idx,
    Permutation idx (seq 0 2) /\
    take idx [Date 20200101; Date 20200101]
    = [Date 20200101; Date 20200101] /\
    (forall n c, get n tied_clean = Some c ->
                 get n tied_features = Some (take idx c)) /\
    (NoDup (map date_key [Date 20200101; Date 20200101]) ->
     forall n c, get n tied_clean = Some c -> get n tied_features = Some c).
Proof.
  split; [reflexivity|]. split; [reflexivity|]. split; [reflexivity|].
  apply (create_lag_features_keeps_cleaned ymd_assemble Qsqrt_newton
           ymd_isoweek ymd_quarter later_first tied_raw tied_clean
           tied_features [Date 20200101; Date 20200101]
           eq_refl eq_refl eq_refl).
Defined.

Lemma lag_columns_compose_witness :
  In "RAINFALL" lagged_vars /\
  sort_values stable_order "DATE" rain_clean = Some rain_clean /\
  create_lag_features Qsqrt_newton ymd_isoweek ymd_quarter stable_order rain_clean
  = Some rain_features /\
  exists xs,
    get "RAINFALL" rain_clean = Some xs /\
    exists l7 l14 l21,
      get (lag_column "RAINFALL" 7) rain_features = Some l7 /\
      get (lag_column "RAINFALL" 14) rain_features = Some l14 /\
      get (lag_column "RAINFALL" 21) rain_features = Some l21 /\
      l14 = shift 7 l7 /\ l21 = shift 7 l14.
Proof.
  assert (HX : In "RAINFALL" lagged_vars) by (left; reflexivity).
  split; [exact HX|]. split; [reflexivity|]. split; [reflexivity|].
  eexists. split; [reflexivity|].
  apply (lag_columns_compose Qsqrt_newton ymd_isoweek ymd_quarter stable_order
           rain_clean rain_clean rain_features "RAINFALL" _
           HX eq_refl eq_refl eq_refl).
Defined.

Lemma lag_column_missing_witness :
  In "RAINFALL" lagged_vars /\ In 7%nat lag_periods /\
  sort_values stable_order "DATE" rain_clean = Some rain_clean /\
  create_lag_features Qsqrt_newton ymd_isoweek ymd_quarter stable_order rain_clean
  = Some rain_features /\
  exists xs,
    get "RAINFALL" rain_clean = Some xs /\
    exists ys,
      get (lag_column "RAINFALL" 7) rain_features = Some ys /\
      count_na ys
      = (Nat.min 7 (length xs) + count_na (firstn (length xs - 7) xs))%nat /\
      (count_na xs = 0%nat -> count_na ys = Nat.min 7 (length xs)).
Proof.
  assert (HX : In "RAINFALL" lagged_vars) by (left; reflexivity).
  assert (Hn : In 7%nat lag_periods) by (left; reflexivity).
  split; [exact HX|]. split; [exact Hn|].
  split; [reflexivity|]. split; [reflexivity|].
  eexists. split; [reflexivity|].
  apply (lag_column_missing Qsqrt_newton ymd_isoweek ymd_quarter stable_order
           rain_clean rain_clean rain_features "RAINFALL" 7%nat _
           HX Hn eq_refl eq_refl eq_refl).
Defined.

Lemma interaction_features_spec_witness :
  In ("TMAX", "TMIN", "TEMP_RANGE", Qminus) interaction_specs /\
  sort_values stable_order "DATE" sample_clean = Some sample_clean /\
  create_lag_features Qsqrt_newton ymd_isoweek ymd_quarter stable_order sample_clean
  = Some sample_features /\
  (forall xa xb, get "TMAX" sample_clean = Some xa ->
                 get "TMIN" sample_clean = Some xb ->
     exists c,
       get "TEMP_RANGE" sample_features = Some c /\
       length c = Nat.min (length xa) (length xb) /\
       forall i, (i < length c)%nat ->
         isna (nth i xa NA) = true \/ isna (nth i xb NA) = true ->
         nth i c NA = NA) /\
  (has "TMAX" sample_clean = false \/ has "TMIN" sample_clean = false ->
   get "TEMP_RANGE" sample_features = get "TEMP_RANGE" sample_clean).
Proof.
  assert (H : In ("TMAX", "TMIN", "TEMP_RANGE", Qminus) interaction_specs)
    by (left; reflexivity).
  split; [exact H|]. split; [reflexivity|]. split; [reflexivity|].
  apply (interaction_features_spec Qsqrt_newton ymd_isoweek ymd_quarter stable_order
           sample_clean sample_clean sample_features
           "TMAX" "TMIN" "TEMP_RANGE" Qminus H eq_refl eq_refl).
Defined.

Lemma rainy_season_spec_witness :
  sort_values stable_order "DATE" sample_clean = Some sample_clean /\
  create_lag_features Qsqrt_newton ymd_isoweek ymd_quarter stable_order sample_clean
  = Some sample_features /\
  exists m,
    get "MONTH" sample_clean = Some m /\
    exists c,
      get "IS_RAINY_SEASON" sample_features = Some c /\
      length c = length m /\
      forall i, (i < length m)%nat ->
        (rainy_month (nth i m NA) /\ nth i c NA = Num 1) \/
        (~ rainy_month (nth i m NA) /\ nth i c NA = Num 0).
Proof.
  split; [reflexivity|]. split; [reflexivity|].
  eexists. split; [reflexivity|].
  apply (rainy_season_spec Qsqrt_newton ymd_isoweek ymd_quarter stable_order
           sample_clean sample_clean sample_features _
           eq_refl eq_refl eq_refl).
Defined.

Lemma rolling_windows_agree_early_witness :
  In "TMAX" weather_vars /\
  sort_values stable_order "DATE" sample_clean = Some sample_clean /\
  create_lag_features Qsqrt_newton ymd_isoweek ymd_quarter stable_order sample_clean
  = Some sample_features /\
  exists xs,
    get "TMAX" sample_clean = Some xs /\
    exists m7 m14 s7 s14,
      get (roll_mean_name "TMAX" 7) sample_features = Some m7 /\
      get (roll_mean_name "TMAX" 14) sample_features = Some m14 /\
      get (roll_std_name "TMAX" 7) sample_features = Some s7 /\
      get (roll_std_name "TMAX" 14) sample_features = Some s14 /\
      forall i, (i < 7)%nat ->
        nth i m7 NA = nth i m14 NA /\ nth i s7 NA = nth i s14 NA.
Proof.
  assert (HX : In "TMAX" weather_vars) by (right; left; reflexivity).
  split; [exact HX|]. split; [reflexivity|]. split; [reflexivity|].
  eexists. split; [reflexivity|].
  apply (rolling_windows_agree_early Qsqrt_newton ymd_isoweek ymd_quarter stable_order
           sample_clean sample_clean sample_features "TMAX" _
           HX eq_refl eq_refl eq_refl).
Defined.









Lemma corr_columns_count_witness :
  (20 < length (eligible_cols sample_features))%nat /\
  length (corr_columns sample_features)
  = Nat.max 20 (length (priority_cols sample_features)) /\
  (forall c, In c (priority_cols sample_features) ->
             In c (corr_columns sample_features)) /\
  (forall c, In c (eligible_cols sample_features) ->
             ~ In c (corr_columns sample_features) ->
             contains "LAG" c = true /\ contains "DENGUE" c = false).
Proof.
  assert (H : (20 < length (eligible_cols sample_features))%nat).
  { apply Nat.ltb_lt. vm_compute. reflexivity. }
  split; [exact H|]. apply (corr_columns_count sample_features H).
Defined.

Lemma report_needs_raw_columns_witness :
  In "RH" ["DENGUE CASES"; "RAINFALL"; "TMAX"; "TMIN"; "Ave. Temp"; "RH"] /\
  has "RH" messy_raw = false /\
  clean_data ymd_assemble stable_order messy_raw = Some messy_clean /\
  create_lag_features Qsqrt_newton ymd_isoweek ymd_quarter stable_order messy_clean
  = Some messy_features /\
  generate_eda ymd_month messy_features = None.
Proof.
  assert (H : In "RH" ["DENGUE CASES"; "RAINFALL"; "TMAX"; "TMIN";
                       "Ave. Temp"; "RH"]).
  { apply mem_In. reflexivity. }
  split; [exact H|]. split; [reflexivity|]. split; [reflexivity|].
  split; [reflexivity|].
  apply (report_needs_raw_columns ymd_assemble Qsqrt_newton ymd_isoweek
           ymd_quarter ymd_month stable_order messy_raw messy_clean
           messy_features "RH"
           H eq_refl eq_refl eq_refl).
Defined.


Lemma default_keys_chain_witness :
  exists a1 a2 a3,
    clean_data_config (buckets_env "raw" "work") = Some a1 /\
    create_features_config (buckets_env "work" "work") = Some a2 /\
    generate_eda_config (buckets_env "work" "reports") = Some a3 /\
    (input_bucket a2 = output_bucket a1 /\ input_key a2 = output_key a1) /\
    (input_bucket a3 = output_bucket a2 /\ input_key a3 = output_key a2).
Proof.
  eexists. eexists. eexists.
  split; [reflexivity|]. split; [reflexivity|]. split; [reflexivity|].
  apply (default_keys_chain (buckets_env "raw" "work")
           (buckets_env "work" "work") (buckets_env "work" "reports")
           _ _ _ eq_refl eq_refl eq_refl
           eq_refl eq_refl eq_refl eq_refl eq_refl eq_refl).
Defined.
